(** * react-native-awesome-slider: gesture-to-value logic of the Slider

    A shallow embedding of the worklets of the two Slider variants of the
    repository:

    - [Stepped]: [src/slide.tsx], the variant with the [step] prop (marks,
      labels, rounding of the progress on release);
    - [Plain]: the second, near-duplicate component (no [step] prop, a
      [snapToInteger] prop instead).

    JavaScript numbers are modelled by [num]: the rationals with exact
    arithmetic, extended with [NaN], [Infinity] and [-Infinity], so that
    every division of the source, guarded or not, has the value JavaScript
    gives it.  Binary rounding and overflow of IEEE doubles are abstracted
    away, and zero is unsigned (the divisors of the source, [width -
    thumbWidth] and [maximumValue + minimumValue], are [+0] whenever they
    are zero for numeric props).  The concrete sliders of the
    counterexamples are chosen so that double arithmetic is exact on
    them.  Where the order of computed numbers is at stake, for the mark
    offsets of [markLeftArr], the code is read a second time with every
    operation rounded as binary64 rounds it ([Binary64],
    [Stepped.markLeftArrData64]). *)

From Stdlib Require Import QArith Qround Qabs Qpower ZArith List Bool Lia Lqa.
Import ListNotations.

Set Implicit Arguments.

(** ** JavaScript numbers *)

Inductive num : Type :=
| NaN
| PInf
| NInf
| Fin (q : Q).

Declare Scope js_scope.
Delimit Scope js_scope with js.
Bind Scope js_scope with num.

Module Js.

Definition of_Z (z : Z) : num := Fin (inject_Z z).
Definition of_nat (n : nat) : num := of_Z (Z.of_nat n).

Definition is_finite (a : num) : bool :=
  match a with Fin _ => true | _ => false end.

(** Unary minus. *)
Definition neg (a : num) : num :=
  match a with
  | NaN => NaN
  | PInf => NInf
  | NInf => PInf
  | Fin q => Fin (- q)
  end.

(** [a + b]: opposite infinities cancel to [NaN]. *)
Definition add (a b : num) : num :=
  match a, b with
  | NaN, _ | _, NaN => NaN
  | PInf, NInf | NInf, PInf => NaN
  | PInf, _ | _, PInf => PInf
  | NInf, _ | _, NInf => NInf
  | Fin p, Fin q => Fin (p + q)
  end.

Definition sub (a b : num) : num := add a (neg b).

(** An infinity scaled by the sign of a finite factor; [Infinity * 0] is
    [NaN]. *)
Definition scale_inf (inf : num) (q : Q) : num :=
  match q ?= 0 with
  | Eq => NaN
  | Gt => inf
  | Lt => neg inf
  end.

Definition mul (a b : num) : num :=
  match a, b with
  | NaN, _ | _, NaN => NaN
  | Fin p, Fin q => Fin (p * q)
  | Fin p, inf => scale_inf inf p
  | inf, Fin q => scale_inf inf q
  | PInf, PInf | NInf, NInf => PInf
  | PInf, NInf | NInf, PInf => NInf
  end.

(** [a / b].  A finite dividend over zero is an infinity of the sign of
    the dividend, [0 / 0] is [NaN], a finite dividend over an infinity is
    zero and an infinity over an infinity is [NaN]. *)
Definition div (a b : num) : num :=
  match a, b with
  | NaN, _ | _, NaN => NaN
  | Fin p, Fin q =>
      if Qeq_bool q 0 then
        match p ?= 0 with
        | Eq => NaN
        | Gt => PInf
        | Lt => NInf
        end
      else Fin (p / q)
  | Fin _, _ => Fin 0
  | inf, Fin q =>
      match q ?= 0 with
      | Lt => neg inf
      | _ => inf
      end
  | _, _ => NaN
  end.

(** Comparisons: every comparison with [NaN] is false. *)
Definition le (a b : num) : bool :=
  match a, b with
  | NaN, _ | _, NaN => false
  | NInf, _ | _, PInf => true
  | _, NInf | PInf, _ => false
  | Fin p, Fin q => Qle_bool p q
  end.

Definition lt (a b : num) : bool :=
  match a, b with
  | NaN, _ | _, NaN => false
  | PInf, _ | _, NInf => false
  | NInf, _ | _, PInf => true
  | Fin p, Fin q => negb (Qle_bool q p)
  end.

Definition ge (a b : num) : bool := le b a.
Definition gt (a b : num) : bool := lt b a.

(** [a === b] on numbers. *)
Definition seq (a b : num) : bool :=
  match a, b with
  | PInf, PInf | NInf, NInf => true
  | Fin p, Fin q => Qeq_bool p q
  | _, _ => false
  end.

(** [a !== b]. *)
Definition sne (a b : num) : bool := negb (seq a b).

(** [Math.max(a, b)] and [Math.min(a, b)]: [NaN] as soon as one argument
    is [NaN]. *)
Definition max (a b : num) : num :=
  match a, b with
  | NaN, _ | _, NaN => NaN
  | _, _ => if le a b then b else a
  end.

Definition min (a b : num) : num :=
  match a, b with
  | NaN, _ | _, NaN => NaN
  | _, _ => if le a b then a else b
  end.

(** [Math.round(a)]: the nearest integer, halves towards [+Infinity]. *)
Definition round (a : num) : num :=
  match a with
  | Fin q => of_Z (Qfloor (q + (1 # 2)))
  | _ => a
  end.

(** Truncation towards zero, as used by the remainder. *)
Definition trunc (q : Q) : Z := Z.quot (Qnum q) (Zpos (Qden q)).

(** [a % b]: the remainder has the sign of the dividend. *)
Definition rem (a b : num) : num :=
  match a, b with
  | Fin p, Fin q =>
      if Qeq_bool q 0 then NaN
      else Fin (p - q * inject_Z (trunc (p / q)))
  | Fin p, PInf | Fin p, NInf => Fin p
  | _, _ => NaN
  end.

End Js.

Notation "a + b" := (Js.add a b) : js_scope.
Notation "a - b" := (Js.sub a b) : js_scope.
Notation "a * b" := (Js.mul a b) : js_scope.
Notation "a / b" := (Js.div a b) : js_scope.
Notation "- a" := (Js.neg a) : js_scope.
Notation "a <= b" := (Js.le a b) : js_scope.
Notation "a >= b" := (Js.ge a b) : js_scope.
Notation "a < b" := (Js.lt a b) : js_scope.
Notation "a > b" := (Js.gt a b) : js_scope.
Notation "a === b" := (Js.seq a b) (at level 70, no associativity) : js_scope.
Notation "a !== b" := (Js.sne a b) (at level 70, no associativity) : js_scope.

(** ** Binary64 rounding

    What an arithmetic operation of JavaScript returns for the exact
    result [q]: the nearest binary64 number, ties to the even significand,
    with gradual underflow and overflow to the infinities.  Zero is
    unsigned, as everywhere in this model. *)

Module Binary64.

Definition pow2 (e : Z) : Q := 2 ^ e.

(** The nearest integer, ties to even: the rounding of a significand. *)
Definition roundEven (y : Q) : Z :=
  let f := Qfloor y in
  match Qcompare (y - inject_Z f) (1 # 2) with
  | Lt => f
  | Gt => (f + 1)%Z
  | Eq => if Z.even f then f else (f + 1)%Z
  end.

(** The exponent of the last place of a nonzero [q]: the [e] with
    [2^52 <= |q| / 2^e < 2^53], and -1074 for the subnormal numbers. *)
Definition ulpExponent (q : Q) : Z :=
  let e0 := (Z.log2 (Z.abs (Qnum q)) - Z.log2 (Zpos (Qden q)) - 53)%Z in
  let e := if Qle_bool (pow2 53) (Qabs q / pow2 e0) then (e0 + 1)%Z else e0 in
  Z.max e (-1074).

Definition fl (q : Q) : num :=
  if Qeq_bool q 0 then Fin 0
  else
    let e := ulpExponent q in
    let m := inject_Z (roundEven (Qabs q / pow2 e)) * pow2 e in
    if Qle_bool (pow2 1024) m then (if Qle_bool 0 q then PInf else NInf)
    else Fin (if Qle_bool 0 q then m else - m).

Definition round (a : num) : num :=
  match a with
  | Fin q => fl q
  | _ => a
  end.

Definition add (a b : num) : num := round (Js.add a b).
Definition sub (a b : num) : num := round (Js.sub a b).
Definition mul (a b : num) : num := round (Js.mul a b).
Definition div (a b : num) : num := round (Js.div a b).

End Binary64.

(** ** Shared values, props and callbacks *)

Inductive HapticModeEnum : Type := NONE | STEP | BOTH.

Inductive PanDirectionEnum : Type := START | LEFT | RIGHT | END.

(** The shared values of one mounted Slider: the ones handed in by the
    application ([progress], [minimumValue], [maximumValue], [isScrubbing],
    [panDirectionValue]) and the ones the component creates with
    [useSharedValue].  [bubbleOpacity] holds the target of the last
    [withSpring] assigned to it. *)
Record State : Type := mkState {
  progress : num;
  minimumValue : num;
  maximumValue : num;
  width : num;
  thumbValue : num;
  bubbleOpacity : num;
  prevX : num;
  markLeftArr : list num;
  thumbIndex : nat;
  isTriggedHaptic : bool;
  isScrubbing : bool;
  panDirectionValue : PanDirectionEnum
}.

Definition set_progress (v : num) (s : State) : State :=
  mkState v (minimumValue s) (maximumValue s) (width s) (thumbValue s)
    (bubbleOpacity s) (prevX s) (markLeftArr s) (thumbIndex s)
    (isTriggedHaptic s) (isScrubbing s) (panDirectionValue s).

Definition set_thumbValue (v : num) (s : State) : State :=
  mkState (progress s) (minimumValue s) (maximumValue s) (width s) v
    (bubbleOpacity s) (prevX s) (markLeftArr s) (thumbIndex s)
    (isTriggedHaptic s) (isScrubbing s) (panDirectionValue s).

Definition set_bubbleOpacity (v : num) (s : State) : State :=
  mkState (progress s) (minimumValue s) (maximumValue s) (width s)
    (thumbValue s) v (prevX s) (markLeftArr s) (thumbIndex s)
    (isTriggedHaptic s) (isScrubbing s) (panDirectionValue s).

Definition set_prevX (v : num) (s : State) : State :=
  mkState (progress s) (minimumValue s) (maximumValue s) (width s)
    (thumbValue s) (bubbleOpacity s) v (markLeftArr s) (thumbIndex s)
    (isTriggedHaptic s) (isScrubbing s) (panDirectionValue s).

Definition set_markLeftArr (v : list num) (s : State) : State :=
  mkState (progress s) (minimumValue s) (maximumValue s) (width s)
    (thumbValue s) (bubbleOpacity s) (prevX s) v (thumbIndex s)
    (isTriggedHaptic s) (isScrubbing s) (panDirectionValue s).

Definition set_isTriggedHaptic (v : bool) (s : State) : State :=
  mkState (progress s) (minimumValue s) (maximumValue s) (width s)
    (thumbValue s) (bubbleOpacity s) (prevX s) (markLeftArr s) (thumbIndex s)
    v (isScrubbing s) (panDirectionValue s).

Definition set_isScrubbing (v : bool) (s : State) : State :=
  mkState (progress s) (minimumValue s) (maximumValue s) (width s)
    (thumbValue s) (bubbleOpacity s) (prevX s) (markLeftArr s) (thumbIndex s)
    (isTriggedHaptic s) v (panDirectionValue s).

Definition set_panDirectionValue (v : PanDirectionEnum) (s : State) : State :=
  mkState (progress s) (minimumValue s) (maximumValue s) (width s)
    (thumbValue s) (bubbleOpacity s) (prevX s) (markLeftArr s) (thumbIndex s)
    (isTriggedHaptic s) (isScrubbing s) v.

(** The calls a handler hands to the JS thread with [runOnJS], in order.
    [OnValueChange] is the call [onSlideAcitve] makes to the [onValueChange]
    prop (the bubble text it also sets is a formatted string, left out). *)
Inductive Call : Type :=
| OnSlidingStart
| OnValueChange (seconds : num)
| OnSlidingComplete (value : num)
| OnTap
| OnHapticFeedback
| SetMarkStyles.

(** ** Worklets as state transformers that log their calls *)

Definition Worklet (A : Type) : Type := State -> A * State * list Call.

Definition ret {A} (a : A) : Worklet A := fun s => (a, s, []).

Definition bind {A B} (m : Worklet A) (k : A -> Worklet B) : Worklet B :=
  fun s =>
    let '(a, s1, t1) := m s in
    let '(b, s2, t2) := k a s1 in
    (b, s2, t1 ++ t2).

Definition gets {A} (f : State -> A) : Worklet A := fun s => (f s, s, []).

Definition modify (f : State -> State) : Worklet unit :=
  fun s => (tt, f s, []).

Definition runOnJS (c : Call) : Worklet unit := fun s => (tt, s, [c]).

Definition when (b : bool) (m : Worklet unit) : Worklet unit :=
  if b then m else ret tt.

Definition state_of {A} (r : A * State * list Call) : State := snd (fst r).
Definition calls_of {A} (r : A * State * list Call) : list Call := snd r.
Definition value_of {A} (r : A * State * list Call) : A := fst (fst r).

Notation "x <- m ;; k" := (bind m (fun x => k))
  (at level 61, m at next level, right associativity).
Notation "m ;; k" := (bind m (fun _ => k))
  (at level 61, right associativity).

(** Modelled from the spec: the helper [clamp] of [./utils], which both
    components import and which is not among the sources.  The spec only
    says that positions are "clamped to track bounds"; it is taken as
    [Math.min(Math.max(lowerBound, value), upperBound)]. *)
Definition clamp (value lowerBound upperBound : num) : num :=
  Js.min (Js.max lowerBound value) upperBound.

(** [Array.prototype.findIndex]: the index of the first element that
    passes the test, [-1] when there is none. *)
Fixpoint findIndex (test : num -> bool) (l : list num) : Z :=
  match l with
  | [] => (-1)%Z
  | v :: l' =>
      if test v then 0%Z
      else match findIndex test l' with
           | Z.neg _ => (-1)%Z
           | i => (i + 1)%Z
           end
  end.

(** [lo <= v && v <= hi] on JavaScript numbers. *)
Definition within (lo hi v : num) : Prop :=
  (lo <= v)%js = true /\ (v <= hi)%js = true.

(** The tint [getMarkStyles] gives to a mark: the [minimumTrackTintColor]
    or the [maximumTrackTintColor] of the [theme] prop. *)
Inductive MarkTint : Type := MinimumTrackTint | MaximumTrackTint.

(** A number in the test of a conditional: [0] and [NaN] are falsy. *)
Definition truthy (a : num) : bool :=
  match a with
  | NaN => false
  | Fin q => negb (Qeq_bool q 0)
  | _ => true
  end.

(** ** The Slider of [src/slide.tsx] *)

Module Stepped.

(** The props the worklets read.  A callback or shared-value prop is
    [true] when the application supplies it.  [step] is a count of
    intervals: [new Array(step + 1)] throws on anything but a natural
    number, and [0] is as falsy as an absent prop. *)
Record Props : Type := mkProps {
  disable : bool;
  disableTapEvent : bool;
  disableTrackFollow : bool;
  hapticMode : HapticModeEnum;
  step : option nat;
  thumbWidth : num;
  markWidth : num;
  hasIsScrubbing : bool;
  hasPanDirectionValue : bool;
  onSlidingStart : bool;
  onValueChange : bool;
  onSlidingComplete : bool;
  onTap : bool;
  onHapticFeedback : bool
}.

Section Worklets.

Variable P : Props.

Definition sliderTotalValue (s : State) : num :=
  (maximumValue s + minimumValue s)%js.

Definition progressToValue (s : State) (value : num) : num :=
  if (sliderTotalValue s === Fin 0)%js then Fin 0
  else (value / sliderTotalValue s * width s)%js.

(** The [translateX] of [animatedThumbStyle]. *)
Definition animatedThumbStyle (s : State) : num :=
  if disableTrackFollow P then
    clamp (thumbValue s) (Fin 0) (width s - thumbWidth P)
  else
    clamp (progressToValue s (progress s) - thumbWidth P)
          (- thumbWidth P / Fin 2)
          (width s - thumbWidth P).

Definition onSlideAcitve (seconds : num) : Worklet unit :=
  when (onValueChange P) (runOnJS (OnValueChange seconds)).

Definition shareValueToSeconds (s : State) : num :=
  let sliderPercent :=
    clamp (thumbValue s / (width s - thumbWidth P)
           + minimumValue s / sliderTotalValue s)
          (Fin 0) (Fin 1) in
  clamp (sliderPercent * sliderTotalValue s)
        (minimumValue s) (maximumValue s).

(** [step && markLeftArr.value.length >= step]. *)
Definition stepping (s : State) : bool :=
  match step P with
  | Some (S n) => (S n <=? length (markLeftArr s))%nat
  | _ => false
  end.

(** A read past the end of [markLeftArr] is [undefined]; every use of
    [progress.value] in these worklets is numeric, where [undefined]
    behaves as [NaN]. *)
Definition xToProgress (s : State) (x : num) : num :=
  if stepping s then
    match nth_error (markLeftArr s) (thumbIndex s) with
    | Some v => v
    | None => NaN
    end
  else (x / (width s - thumbWidth P) * sliderTotalValue s)%js.

Definition onActiveSlider (x : num) : Worklet unit :=
  when (hasIsScrubbing P) (modify (set_isScrubbing true)) ;;
  w <- gets width ;;
  modify (set_thumbValue (clamp x (Fin 0) (w - thumbWidth P))) ;;
  when (negb (disableTrackFollow P))
    (p <- gets (fun s => xToProgress s x) ;; modify (set_progress p)) ;;
  triggered <- gets isTriggedHaptic ;;
  (if (x <= Fin 0)%js || (x >= w - thumbWidth P)%js then
     match negb triggered, hapticMode P, onHapticFeedback P with
     | true, BOTH, true =>
         runOnJS OnHapticFeedback ;;
         modify (set_isTriggedHaptic true)
     | _, _, _ => ret tt
     end
   else modify (set_isTriggedHaptic false)) ;;
  seconds <- gets shareValueToSeconds ;;
  onSlideAcitve seconds ;;
  runOnJS SetMarkStyles.

(** The tail shared by the pan [onEnd] and the tap [onEnd]. *)
Definition roundOnRelease : Worklet unit :=
  p <- gets progress ;;
  if (Js.rem p (Fin 1) !== Fin 0)%js then
    let roundedValue := Js.round p in
    modify (set_progress roundedValue) ;;
    when (onSlidingComplete P)
      (runOnJS (OnSlidingComplete roundedValue) ;; runOnJS SetMarkStyles)
  else
    when (onSlidingComplete P)
      (seconds <- gets shareValueToSeconds ;;
       runOnJS (OnSlidingComplete seconds)).

Definition onGestureEvent_onStart : Worklet unit :=
  if disable P then ret tt
  else
    when (hasIsScrubbing P) (modify (set_isScrubbing true)) ;;
    when (hasPanDirectionValue P)
      (modify (set_panDirectionValue START) ;;
       modify (set_prevX (Fin 0))) ;;
    when (onSlidingStart P) (runOnJS OnSlidingStart).

Definition onGestureEvent_onUpdate (x : num) : Worklet unit :=
  if disable P then ret tt
  else
    when (hasPanDirectionValue P)
      (px <- gets prevX ;;
       modify (set_panDirectionValue
                 (if (px - x > Fin 0)%js then LEFT else RIGHT)) ;;
       modify (set_prevX x)) ;;
    modify (set_bubbleOpacity (Fin 1)) ;;
    onActiveSlider x.

Definition onGestureEvent_onEnd (x : num) : Worklet unit :=
  if disable P then ret tt
  else
    when (hasIsScrubbing P) (modify (set_isScrubbing true)) ;;
    when (hasPanDirectionValue P) (modify (set_panDirectionValue END)) ;;
    modify (set_bubbleOpacity (Fin 0)) ;;
    when (disableTrackFollow P)
      (p <- gets (fun s => xToProgress s x) ;; modify (set_progress p)) ;;
    roundOnRelease.

Definition onSingleTapEvent_onEnd (x : num) (isFinished : bool) : Worklet unit :=
  when (onTap P) (runOnJS OnTap) ;;
  if disable P || disableTapEvent P then ret tt
  else
    when isFinished (onActiveSlider x) ;;
    when (hasIsScrubbing P) (modify (set_isScrubbing true)) ;;
    modify (set_bubbleOpacity (Fin 0)) ;;
    roundOnRelease.

(** The value the first [useAnimatedReaction] stores in [markLeftArr]. *)
Definition markLeftArrData (s : State) : list num :=
  match step P with
  | Some (S n) =>
      map (fun i =>
             (Js.round (width s * (Js.of_nat i / Js.of_nat (S n)))
              - Js.of_nat i / Js.of_nat (S n) * markWidth P
              - Js.round (thumbWidth P / Fin 3))%js)
          (seq 0 (S n + 1))
  | _ => []
  end.

(** The same value with every operation rounded as binary64 rounds it;
    [Math.round] is exact on a binary64 number. *)
Definition markLeftArrData64 (s : State) : list num :=
  match step P with
  | Some (S n) =>
      map (fun i =>
             let ratio := Binary64.div (Js.of_nat i) (Js.of_nat (S n)) in
             Binary64.sub
               (Binary64.sub
                  (Js.round (Binary64.mul (width s) ratio))
                  (Binary64.mul ratio (markWidth P)))
               (Js.round (Binary64.div (thumbWidth P) (Fin 3))))
          (seq 0 (S n + 1))
  | _ => []
  end.

(** The value the second [useAnimatedReaction] computes for [thumbIndex];
    [None] is the [undefined] that leaves [thumbIndex] as it is. *)
Definition thumbIndexData (s : State) : option nat :=
  if hasIsScrubbing P && isScrubbing s then None
  else
    match step P with
    | Some (S n) =>
        let marksLeft :=
          map (fun i => Js.round (width s * (Js.of_nat i / Js.of_nat (S n)))%js)
              (seq 0 (S n + 1)) in
        let currentWidth :=
          Js.round ((progress s - minimumValue s)
                    / (maximumValue s - minimumValue s) * width s)%js in
        let currentIndex :=
          findIndex (fun value => (value >= currentWidth)%js) marksLeft in
        match clamp (Js.of_Z currentIndex) (Fin 0) (Js.of_nat (S n)) with
        | Fin q => Some (Z.to_nat (Qfloor q))
        | _ => None
        end
    | _ => None
    end.


(** One style per mark, [(step ?? 0) + 1] of them; only the tint is kept. *)
Definition getMarkStyles (s : State) : list MarkTint :=
  map (fun index =>
         if (progress s >= Js.of_nat index)%js then MinimumTrackTint
         else MaximumTrackTint)
      (seq 0 (match step P with Some n => n | None => 0 end + 1)).

(** The [width] of [animatedSeekStyle]. *)
Definition animatedSeekStyle (s : State) : num :=
  let seekWidth :=
    (progressToValue s (progress s) + thumbWidth P / Fin 2)%js in
  clamp seekWidth (Fin 0) (width s).

(** The [translateX] of [animatedBubbleStyle], for the [bubbleWidth] prop;
    with [stepTimingOptions] it is the target of the [withTiming]. *)
Definition animatedBubbleStyle (bubbleWidth : num) (s : State) : num :=
  let translateX :=
    if stepping s then
      (match nth_error (markLeftArr s) (thumbIndex s) with
       | Some v => v
       | None => NaN
       end + thumbWidth P / Fin 2)%js
    else (thumbValue s + thumbWidth P / Fin 2)%js in
  clamp translateX (bubbleWidth / Fin 2) (width s - bubbleWidth / Fin 2).

(** The [width] of [animatedCacheXStyle], for the optional [cache] shared
    value. *)
Definition animatedCacheXStyle (cache : option num) (s : State) : num :=
  match cache with
  | Some c =>
      if truthy c then (c / sliderTotalValue s * width s)%js else Fin 0
  | None => Fin 0
  end.

(** The value the third [useAnimatedReaction] computes for [thumbValue];
    [None] is the [undefined] that leaves [thumbValue] as it is. *)
Definition thumbValueData (s : State) : option num :=
  if hasIsScrubbing P && isScrubbing s then None
  else
    match step P with
    | Some (S _) => None
    | _ =>
        let currentValue :=
          (progress s / (minimumValue s + maximumValue s) * width s)%js in
        Some (clamp currentValue (Fin 0) (width s - thumbWidth P))
    end.

End Worklets.

End Stepped.

(** ** The second Slider (no [step] prop, [snapToInteger] instead) *)

Module Plain.

Record Props : Type := mkProps {
  disable : bool;
  disableTapEvent : bool;
  disableTrackFollow : bool;
  hapticMode : HapticModeEnum;
  snapToInteger : bool;
  thumbWidth : num;
  hasIsScrubbing : bool;
  hasPanDirectionValue : bool;
  onSlidingStart : bool;
  onValueChange : bool;
  onSlidingComplete : bool;
  onTap : bool;
  onHapticFeedback : bool
}.

Section Worklets.

Variable P : Props.

Definition sliderTotalValue (s : State) : num :=
  (maximumValue s + minimumValue s)%js.

Definition progressToValue (s : State) (value : num) : num :=
  if (sliderTotalValue s === Fin 0)%js then Fin 0
  else (value / sliderTotalValue s * (width s - thumbWidth P))%js.

(** The [translateX] of [animatedThumbStyle]. *)
Definition animatedThumbStyle (s : State) : num :=
  if disableTrackFollow P then
    clamp (thumbValue s) (Fin 0) (width s - thumbWidth P)
  else
    clamp (progressToValue s (progress s)) (Fin 0)
          (width s - thumbWidth P).

Definition onSlideAcitve (seconds : num) : Worklet unit :=
  when (onValueChange P) (runOnJS (OnValueChange seconds)).

Definition shareValueToSeconds (s : State) : num :=
  let sliderPercent :=
    clamp (thumbValue s / (width s - thumbWidth P)
           + minimumValue s / sliderTotalValue s)
          (Fin 0) (Fin 1) in
  clamp (sliderPercent * sliderTotalValue s)
        (minimumValue s) (maximumValue s).

Definition xToProgress (s : State) (x : num) : num :=
  (x / (width s - thumbWidth P) * sliderTotalValue s)%js.

Definition onActiveSlider (x : num) : Worklet unit :=
  when (hasIsScrubbing P) (modify (set_isScrubbing true)) ;;
  w <- gets width ;;
  modify (set_thumbValue (clamp x (Fin 0) (w - thumbWidth P))) ;;
  when (negb (disableTrackFollow P))
    (p <- gets (fun s => xToProgress s x) ;; modify (set_progress p)) ;;
  triggered <- gets isTriggedHaptic ;;
  (if (x <= Fin 0)%js || (x >= w - thumbWidth P)%js then
     match negb triggered, hapticMode P, onHapticFeedback P with
     | true, BOTH, true =>
         runOnJS OnHapticFeedback ;;
         modify (set_isTriggedHaptic true)
     | _, _, _ => ret tt
     end
   else modify (set_isTriggedHaptic false)) ;;
  seconds <- gets shareValueToSeconds ;;
  onSlideAcitve seconds.

(** The tail shared by the pan [onEnd] and the tap [onEnd]. *)
Definition roundOnRelease : Worklet unit :=
  p <- gets progress ;;
  if snapToInteger P && (Js.rem p (Fin 1) !== Fin 0)%js then
    let roundedValue := Js.round p in
    modify (set_progress roundedValue) ;;
    when (onSlidingComplete P) (runOnJS (OnSlidingComplete roundedValue))
  else
    when (onSlidingComplete P)
      (seconds <- gets shareValueToSeconds ;;
       runOnJS (OnSlidingComplete seconds)).

Definition onGestureEvent_onStart : Worklet unit :=
  if disable P then ret tt
  else
    when (hasIsScrubbing P) (modify (set_isScrubbing true)) ;;
    when (hasPanDirectionValue P)
      (modify (set_panDirectionValue START) ;;
       modify (set_prevX (Fin 0))) ;;
    when (onSlidingStart P) (runOnJS OnSlidingStart).

Definition onGestureEvent_onUpdate (x : num) : Worklet unit :=
  if disable P then ret tt
  else
    when (hasPanDirectionValue P)
      (px <- gets prevX ;;
       modify (set_panDirectionValue
                 (if (px - x > Fin 0)%js then LEFT else RIGHT)) ;;
       modify (set_prevX x)) ;;
    modify (set_bubbleOpacity (Fin 1)) ;;
    onActiveSlider x.

Definition onGestureEvent_onEnd (x : num) : Worklet unit :=
  if disable P then ret tt
  else
    when (hasIsScrubbing P) (modify (set_isScrubbing true)) ;;
    when (hasPanDirectionValue P) (modify (set_panDirectionValue END)) ;;
    modify (set_bubbleOpacity (Fin 0)) ;;
    when (disableTrackFollow P)
      (p <- gets (fun s => xToProgress s x) ;; modify (set_progress p)) ;;
    roundOnRelease.

Definition onSingleTapEvent_onEnd (x : num) (isFinished : bool) : Worklet unit :=
  when (onTap P) (runOnJS OnTap) ;;
  if disable P || disableTapEvent P then ret tt
  else
    when isFinished (onActiveSlider x) ;;
    when (hasIsScrubbing P) (modify (set_isScrubbing true)) ;;
    modify (set_bubbleOpacity (Fin 0)) ;;
    roundOnRelease.

(** The [width] of [animatedSeekStyle]. *)
Definition animatedSeekStyle (s : State) : num :=
  let seekWidth :=
    (progressToValue s (progress s) + thumbWidth P / Fin 2)%js in
  clamp seekWidth (Fin 0) (width s).

(** The [translateX] of [animatedBubbleStyle], for the [bubbleWidth]
    prop. *)
Definition animatedBubbleStyle (bubbleWidth : num) (s : State) : num :=
  let translateX := (thumbValue s + thumbWidth P / Fin 2)%js in
  clamp translateX (bubbleWidth / Fin 2) (width s - bubbleWidth / Fin 2).

(** The [width] of [animatedCacheXStyle], for the optional [cache] shared
    value. *)
Definition animatedCacheXStyle (cache : option num) (s : State) : num :=
  match cache with
  | Some c =>
      if truthy c then (c / sliderTotalValue s * width s)%js else Fin 0
  | None => Fin 0
  end.

End Worklets.

End Plain.

(** ** Events of one gesture recogniser, and whole gestures *)

Inductive Gesture : Type :=
| PanStart
| PanUpdate (x : num)
| PanEnd (x : num)
| Tap (x : num) (isFinished : bool).

Definition steppedHandle (P : Stepped.Props) (e : Gesture) : Worklet unit :=
  match e with
  | PanStart => Stepped.onGestureEvent_onStart P
  | PanUpdate x => Stepped.onGestureEvent_onUpdate P x
  | PanEnd x => Stepped.onGestureEvent_onEnd P x
  | Tap x fin => Stepped.onSingleTapEvent_onEnd P x fin
  end.

Definition plainHandle (P : Plain.Props) (e : Gesture) : Worklet unit :=
  match e with
  | PanStart => Plain.onGestureEvent_onStart P
  | PanUpdate x => Plain.onGestureEvent_onUpdate P x
  | PanEnd x => Plain.onGestureEvent_onEnd P x
  | Tap x fin => Plain.onSingleTapEvent_onEnd P x fin
  end.

(** Events are delivered one after the other, each handler running to its
    end before the next event.  Only the handlers run, not the
    [useAnimatedReaction] callbacks, which write [markLeftArr],
    [thumbIndex] and [thumbValue]; [deliverReacting] below runs them as
    well. *)
Fixpoint deliver (handle : Gesture -> Worklet unit) (es : list Gesture)
  : Worklet unit :=
  match es with
  | [] => ret tt
  | e :: es' => handle e ;; deliver handle es'
  end.

(** The number of [onHapticFeedback] calls in a log. *)
Definition hapticCalls (t : list Call) : nat :=
  length (filter (fun c => match c with OnHapticFeedback => true | _ => false end) t).

(** The thumb is at an edge of a track of width [w]: the test of
    [onActiveSlider]. *)
Definition atEdge (w thumbWidth x : num) : bool :=
  (x <= Fin 0)%js || (x >= w - thumbWidth)%js.

(** ** Properties stated by the specification *)

(** The haptic callback fires once per edge-touch, for the pan updates of a
    handler on a thumb of width [tw]: a run of updates that keeps the thumb
    at an edge fires it at most once, and not at all when it has already
    fired; it fires only when armed and at an edge; and once fired it is
    armed again only by an update away from the edges. *)
Definition hapticOncePerEdgeTouch
           (tw : num) (handle : Gesture -> Worklet unit) : Prop :=
  forall s : State,
    (forall xs : list num,
        Forall (fun x => atEdge (width s) tw x = true) xs ->
        let calls := calls_of (deliver handle (map PanUpdate xs) s) in
        (hapticCalls calls <= 1)%nat /\
        (isTriggedHaptic s = true -> hapticCalls calls = 0%nat)) /\
    (forall x : num,
        let r := handle (PanUpdate x) s in
        (hapticCalls (calls_of r) <= 1)%nat /\
        (hapticCalls (calls_of r) = 1%nat ->
         isTriggedHaptic s = false /\ atEdge (width s) tw x = true) /\
        (isTriggedHaptic s = true -> isTriggedHaptic (state_of r) = false ->
         atEdge (width s) tw x = false)).

(** The value of mark [i] when the bound range is cut into [n] steps. *)
Definition markValue (s : State) (n i : nat) : num :=
  (minimumValue s
   + Js.of_nat i / Js.of_nat n * (maximumValue s - minimumValue s))%js.

(** [v] is the value of one of the [n + 1] marks. *)
Definition onMark (s : State) (n : nat) (v : num) : Prop :=
  exists i : nat, (i <= n)%nat /\ (v === markValue s n i)%js = true.

(** [v] is an integer within one half of [p]: what [Math.round] returns. *)
Definition nearestInteger (p v : num) : Prop :=
  exists (q : Q) (z : Z),
    p = Fin q /\ (v === Js.of_Z z)%js = true /\
    Qabs (inject_Z z - q) <= 1 # 2.

(** The test and assignment at the end of both [onEnd] handlers of
    [src/slide.tsx], as a function of the progress they find. *)
Definition roundIfFractional (p : num) : num :=
  if (Js.rem p (Fin 1) !== Fin 0)%js then Js.round p else p.

(** The track: the shared values [xToProgress] reads. *)
Definition track (s : State) : num * num * num * list num * nat :=
  (width s, minimumValue s, maximumValue s, markLeftArr s, thumbIndex s).

(** A worklet keeps an observation [f] of the state. *)
Definition keeps {A B} (f : State -> A) (m : Worklet B) : Prop :=
  forall s : State, f (state_of (m s)) = f s.


(** Two lists of the same numbers, compared entry by entry with [===]. *)
Definition sameNumbers (l l' : list num) : bool :=
  (length l =? length l')%nat &&
  forallb (fun p => (fst p === snd p)%js) (combine l l').

(** ** Vocabulary of the further properties *)

(** [clamp] on finite numbers, as a function on the rationals. *)
Definition qclamp (v lo hi : Q) : Q :=
  let m := if Qle_bool lo v then v else lo in
  if Qle_bool m hi then m else hi.

(** The position an event carries. *)
Definition positionOf (e : Gesture) : option num :=
  match e with
  | PanStart => None
  | PanUpdate x | PanEnd x | Tap x _ => Some x
  end.

(** The events delivered by a recogniser carry a number, not [NaN]. *)
Definition positioned (e : Gesture) : Prop :=
  forall x, positionOf e = Some x -> x <> NaN.

(** The number of calls of one kind in a log. *)
Definition countCalls (kind : Call -> bool) (t : list Call) : nat :=
  length (filter kind t).

Definition isOnSlidingStart (c : Call) : bool :=
  match c with OnSlidingStart => true | _ => false end.

Definition isOnValueChange (c : Call) : bool :=
  match c with OnValueChange _ => true | _ => false end.

Definition isOnSlidingComplete (c : Call) : bool :=
  match c with OnSlidingComplete _ => true | _ => false end.

Definition isOnHapticFeedback (c : Call) : bool :=
  match c with OnHapticFeedback => true | _ => false end.

Definition isOnTap (c : Call) : bool :=
  match c with OnTap => true | _ => false end.

(** Whether the handler of an event gets past its guard: [disable] for
    the pan handlers, [disable || disableTapEvent] for the tap handler. *)
Definition steppedRuns (P : Stepped.Props) (e : Gesture) : bool :=
  match e with
  | Tap _ _ => negb (Stepped.disable P || Stepped.disableTapEvent P)
  | _ => negb (Stepped.disable P)
  end.

Definition plainRuns (P : Plain.Props) (e : Gesture) : bool :=
  match e with
  | Tap _ _ => negb (Plain.disable P || Plain.disableTapEvent P)
  | _ => negb (Plain.disable P)
  end.

(** One complete pan: the start, one update per position, the end. *)
Definition panGesture (xs : list num) (x : num) : list Gesture :=
  PanStart :: map PanUpdate xs ++ [PanEnd x].

(** ** The reactions between events *)

Definition set_thumbIndex (v : nat) (s : State) : State :=
  mkState (progress s) (minimumValue s) (maximumValue s) (width s)
    (thumbValue s) (bubbleOpacity s) (prevX s) (markLeftArr s) v
    (isTriggedHaptic s) (isScrubbing s) (panDirectionValue s).

(** Which of the three [useAnimatedReaction] callbacks run once a handler
    has returned.  Reanimated runs a reaction after a shared value its first
    function reads has been written; which ones that makes after an event
    is left open, so that what is proved holds however they are scheduled. *)
Record Reactions : Type := mkReactions {
  runsMarkLeftArr : bool;
  runsThumbIndex : bool;
  runsThumbValue : bool
}.

Definition allReactions : Reactions := mkReactions true true true.

(** The reactions of [src/slide.tsx]: each stores what its first function
    computes, unless that is [undefined].  None of the three reads a shared
    value another one writes. *)
Definition steppedReact (P : Stepped.Props) (r : Reactions) (s : State)
  : State :=
  let s1 :=
    if runsMarkLeftArr r then set_markLeftArr (Stepped.markLeftArrData P s) s
    else s in
  let s2 :=
    if runsThumbIndex r then
      match Stepped.thumbIndexData P s1 with
      | Some data => set_thumbIndex data s1
      | None => s1
      end
    else s1 in
  if runsThumbValue r then
    match Stepped.thumbValueData P s2 with
    | Some data => set_thumbValue data s2
    | None => s2
    end
  else s2.

(** The reactions of the second Slider: the first stores [[]] in
    [markLeftArr], the other two compute [undefined] and store nothing. *)
Definition plainReact (r : Reactions) (s : State) : State :=
  if runsMarkLeftArr r then set_markLeftArr [] s else s.

(** Events delivered one after the other, each followed by the reactions
    that run before the next event. *)
Fixpoint deliverReacting (handle : Gesture -> Worklet unit)
         (react : Reactions -> State -> State)
         (es : list (Gesture * Reactions)) : Worklet unit :=
  match es with
  | [] => ret tt
  | (e, r) :: es' =>
      handle e ;; modify (react r) ;; deliverReacting handle react es'
  end.

(** The position an event carries is a finite number. *)
Definition finitePosition (e : Gesture) : Prop :=
  forall x, positionOf e = Some x -> Js.is_finite x = true.

(** The start and the updates of a pan: the events of a drag before its
    release. *)
Definition dragging (e : Gesture) : Prop :=
  match e with
  | PanStart | PanUpdate _ => True
  | _ => False
  end.

(** The [step] prop is falsy: unset or 0. *)
Definition stepUnset (P : Stepped.Props) : Prop :=
  match Stepped.step P with
  | Some (S _) => False
  | _ => True
  end.

(** ** Concrete sliders used by the examples below *)

(** Shared values right after mount and layout: [progress] 0, track width
    [w], bounds [lo] and [hi]. *)
Definition mounted (lo hi w : Q) : State :=
  mkState (Fin 0) (Fin lo) (Fin hi) (Fin w) (Fin 0) (Fin 0) (Fin 0)
    [] 0 false false START.

(** Props with the defaults of the source ([thumbWidth = 15],
    [markWidth = 4], [hapticMode = 'none'], nothing disabled) and every
    callback supplied. *)
Definition steppedDefaults : Stepped.Props :=
  Stepped.mkProps false false false NONE None (Fin 15) (Fin 4)
    false false true true true true true.

Definition plainDefaults : Plain.Props :=
  Plain.mkProps false false false NONE false (Fin 15)
    false false true true true true true.

(** The defaults with [hapticMode = 'both']. *)
Definition steppedHaptic : Stepped.Props :=
  Stepped.mkProps false false false BOTH None (Fin 15) (Fin 4)
    false false true true true true true.

Definition plainHaptic : Plain.Props :=
  Plain.mkProps false false false BOTH false (Fin 15)
    false false true true true true true.

(** The defaults with [disable] set. *)
Definition steppedDisabled : Stepped.Props :=
  Stepped.mkProps true false false BOTH None (Fin 15) (Fin 4)
    false false true true true true true.

Definition plainDisabled : Plain.Props :=
  Plain.mkProps true false false BOTH false (Fin 15)
    false false true true true true true.

(** The defaults with [disableTrackFollow] set. *)
Definition steppedNoFollow : Stepped.Props :=
  Stepped.mkProps false false true NONE None (Fin 15) (Fin 4)
    false false true true true true true.

Definition plainNoFollow : Plain.Props :=
  Plain.mkProps false false true NONE false (Fin 15)
    false false true true true true true.

Definition steppedWithStep (n : nat) : Stepped.Props :=
  Stepped.mkProps false false false NONE (Some n) (Fin 15) (Fin 4)
    false false true true true true true.

(** The defaults with [step = n] and marks of width [mw]. *)
Definition steppedWithMarks (n : nat) (mw : Q) : Stepped.Props :=
  Stepped.mkProps false false false NONE (Some n) (Fin 15) (Fin mw)
    false false true true true true true.

(** The defaults with [step = n] and [disableTrackFollow] set. *)
Definition steppedNoFollowWithStep (n : nat) : Stepped.Props :=
  Stepped.mkProps false false true NONE (Some n) (Fin 15) (Fin 4)
    false false true true true true true.

(** ** Facts about JavaScript numbers *)

Lemma Qle_bool_false (p q : Q) : Qle_bool p q = false -> q < p.
Proof.
  intros H. apply Qnot_le_lt. intros Hle.
  apply Qle_bool_iff in Hle. congruence.
Qed.

Lemma le_Fin (p q : Q) : (Fin p <= Fin q)%js = true <-> p <= q.
Proof. simpl. apply Qle_bool_iff. Qed.


Lemma within_Fin (lo hi v : Q) :
  within (Fin lo) (Fin hi) (Fin v) <-> lo <= v /\ v <= hi.
Proof. unfold within. now rewrite !le_Fin. Qed.

(** [clamp] of finite numbers is finite, and lies between the bounds when
    these are in order. *)
Lemma clamp_Fin (v lo hi : Q) :
  exists r, clamp (Fin v) (Fin lo) (Fin hi) = Fin r /\
            r <= hi /\ (lo <= hi -> lo <= r).
Proof.
  unfold clamp, Js.max, Js.min, Js.le.
  destruct (Qle_bool lo v) eqn:E1.
  - destruct (Qle_bool v hi) eqn:E2; eexists; (split; [reflexivity|]).
    + apply Qle_bool_iff in E1, E2. auto.
    + apply Qle_bool_iff in E1. apply Qle_bool_false in E2.
      split; [apply Qle_refl | auto].
  - destruct (Qle_bool lo hi) eqn:E2; eexists; (split; [reflexivity|]).
    + apply Qle_bool_iff in E2. split; [auto | intros _; apply Qle_refl].
    + apply Qle_bool_false in E2. split; [apply Qle_refl|].
      intros H. exfalso. apply (Qlt_irrefl hi). eapply Qlt_le_trans; eauto.
Qed.

Lemma clamp_Fin_within (v lo hi : Q) :
  lo <= hi -> within (Fin lo) (Fin hi) (clamp (Fin v) (Fin lo) (Fin hi)).
Proof.
  intros H. destruct (clamp_Fin v lo hi) as (r & -> & H1 & H2).
  apply within_Fin. auto.
Qed.

(** Division of finite numbers by a non-zero finite number is the rational
    quotient. *)
Lemma div_Fin (p q : Q) : ~ q == 0 -> (Fin p / Fin q)%js = Fin (p / q).
Proof.
  intros H. simpl. destruct (Qeq_bool q 0) eqn:E; [|reflexivity].
  apply Qeq_bool_iff in E. contradiction.
Qed.

Lemma seq_Fin_false (p q : Q) : (Fin p === Fin q)%js = false -> ~ p == q.
Proof.
  simpl. intros H E. apply Qeq_bool_iff in E. congruence.
Qed.

(** ** Progress while the track follows the thumb *)

(** C1, evaluated on the code: a slider with bounds [0, 100], a track of
    width 75 and the default thumb of width 15, dragged to the right end of
    the track ([x = 75]), has its progress set to 125, above
    [maximumValue]; with bounds [10, 20] a drag to [x = 0] sets it to 0,
    below [minimumValue].  The value handed to [onValueChange] by the same
    call is the clamped 100. *)
Theorem onActiveSlider_progress_leaves_bounds :
  let s := mounted 0 100 75 in
  let r := Stepped.onActiveSlider steppedDefaults (Fin 75) s in
  Stepped.step steppedDefaults = None /\
  Stepped.disableTrackFollow steppedDefaults = false /\
  within (Fin 0) (width s) (Fin 75) /\
  (progress (state_of r) === Fin 125)%js = true /\
  (progress (state_of r) <= maximumValue (state_of r))%js = false /\
  (exists v, calls_of r = [OnValueChange v; SetMarkStyles] /\
             (v === Fin 100)%js = true) /\
  (minimumValue (mounted 10 20 75) <=
   progress (state_of (Stepped.onActiveSlider steppedDefaults (Fin 0)
                         (mounted 10 20 75))))%js = false.
Proof.
  cbv zeta. unfold within. repeat split; try (vm_compute; reflexivity).
  eexists. split; vm_compute; reflexivity.
Qed.

(** ** The rendered offset of the thumb *)

Lemma progressToValue_Fin_stepped (P : Stepped.Props) (s : State)
      (p mn mx w : Q) :
  minimumValue s = Fin mn -> maximumValue s = Fin mx -> width s = Fin w ->
  exists r, Stepped.progressToValue s (Fin p) = Fin r.
Proof.
  intros Hmn Hmx Hw. unfold Stepped.progressToValue, Stepped.sliderTotalValue.
  rewrite Hmn, Hmx, Hw. cbn [Js.add].
  destruct (Fin (mx + mn) === Fin 0)%js eqn:E; [eauto|].
  apply seq_Fin_false in E. rewrite div_Fin by assumption.
  cbn [Js.mul]. eauto.
Qed.

Lemma progressToValue_Fin_plain (P : Plain.Props) (s : State)
      (p mn mx w tw : Q) :
  minimumValue s = Fin mn -> maximumValue s = Fin mx -> width s = Fin w ->
  Plain.thumbWidth P = Fin tw ->
  exists r, Plain.progressToValue P s (Fin p) = Fin r.
Proof.
  intros Hmn Hmx Hw Htw. unfold Plain.progressToValue, Plain.sliderTotalValue.
  rewrite Hmn, Hmx, Hw, Htw. cbn [Js.add Js.sub Js.neg].
  destruct (Fin (mx + mn) === Fin 0)%js eqn:E; [eauto|].
  apply seq_Fin_false in E. rewrite div_Fin by assumption.
  cbn [Js.mul]. eauto.
Qed.

(** C2 as stated fails on [src/slide.tsx]: with the track following the
    thumb, progress 0 on a track of width 75 puts the default thumb at
    [translateX = -7.5]. *)
Lemma thumb_offset_negative :
  let s := mounted 0 100 75 in
  (Stepped.thumbWidth steppedDefaults <= width s)%js = true /\
  (Stepped.animatedThumbStyle steppedDefaults s === Fin (-15 # 2))%js = true /\
  ~ within (Fin 0) (width s - Stepped.thumbWidth steppedDefaults)
      (Stepped.animatedThumbStyle steppedDefaults s).
Proof.
  cbv zeta. split; [reflexivity|]. split; [reflexivity|].
  unfold within. vm_compute. intros [H _]. discriminate.
Qed.

(** C2, amended: for finite shared values and a thumb no wider than the
    track, the [translateX] of [animatedThumbStyle] lies in
    [0, width - thumbWidth] in the second Slider and, when
    [disableTrackFollow] is set, in [src/slide.tsx]; when the track follows
    the thumb in [src/slide.tsx] it lies in
    [-thumbWidth / 2, width - thumbWidth] (thumb width not negative). *)
Theorem thumb_offset_bounds
        (SP : Stepped.Props) (PP : Plain.Props) (s : State)
        (p mn mx w tv tw : Q) :
  progress s = Fin p -> minimumValue s = Fin mn -> maximumValue s = Fin mx ->
  width s = Fin w -> thumbValue s = Fin tv ->
  Stepped.thumbWidth SP = Fin tw -> Plain.thumbWidth PP = Fin tw ->
  tw <= w ->
  (Stepped.disableTrackFollow SP = true ->
   within (Fin 0) (Fin (w - tw)) (Stepped.animatedThumbStyle SP s)) /\
  (Stepped.disableTrackFollow SP = false -> 0 <= tw ->
   within (Fin (- tw / 2)) (Fin (w - tw)) (Stepped.animatedThumbStyle SP s)) /\
  within (Fin 0) (Fin (w - tw)) (Plain.animatedThumbStyle PP s).
Proof.
  intros Hp Hmn Hmx Hw Htv HtwS HtwP Hle.
  assert (H0 : 0 <= w - tw) by lra.
  split; [|split].
  - intros D. unfold Stepped.animatedThumbStyle.
    rewrite D, Htv, Hw, HtwS. cbn [Js.sub Js.neg Js.add].
    apply (clamp_Fin_within tv H0).
  - intros D Hpos. unfold Stepped.animatedThumbStyle.
    rewrite D, Hp, Hw, HtwS.
    destruct (progressToValue_Fin_stepped SP s p Hmn Hmx Hw) as [r ->].
    cbn [Js.sub Js.neg Js.add]. rewrite div_Fin by (intros E; discriminate).
    assert (Hb : - tw / 2 <= w - tw)
      by (setoid_replace (- tw / 2) with (- tw * (1 # 2)) by field; lra).
    apply (clamp_Fin_within (r + - tw) Hb).
  - unfold Plain.animatedThumbStyle. rewrite Htv, Hp, Hw, HtwP.
    destruct (progressToValue_Fin_plain PP s p Hmn Hmx Hw HtwP) as [r ->].
    cbn [Js.sub Js.neg Js.add].
    destruct (Plain.disableTrackFollow PP); apply (clamp_Fin_within _ H0).
Qed.

Lemma thumb_offset_bounds_witness :
  let s := mounted 0 100 115 in
  (Stepped.disableTrackFollow steppedDefaults = true ->
   within (Fin 0) (Fin (115 - 15))
     (Stepped.animatedThumbStyle steppedDefaults s)) /\
  (Stepped.disableTrackFollow steppedDefaults = false -> 0 <= 15 ->
   within (Fin (- (15) / 2)) (Fin (115 - 15))
     (Stepped.animatedThumbStyle steppedDefaults s)) /\
  within (Fin 0) (Fin (115 - 15)) (Plain.animatedThumbStyle plainDefaults s).
Proof.
  apply (@thumb_offset_bounds steppedDefaults plainDefaults
           (mounted 0 100 115) 0 0 100 115 0 15); try reflexivity.
  unfold Qle; simpl; lia.
Defined.

(** ** The value handed to [onValueChange] *)

Lemma add_NaN_r (a : num) : (a + NaN)%js = NaN.
Proof. destruct a; reflexivity. Qed.

Lemma clamp_NaN (lo hi : num) : clamp NaN lo hi = NaN.
Proof. unfold clamp. destruct lo; reflexivity. Qed.

(** [0 / 0]: with both bounds zero the unguarded quotient
    [minimumValue / sliderTotalValue()] is [NaN], and so is the result. *)
Lemma shareValueToSeconds_zero_bounds_stepped
      (P : Stepped.Props) (s : State) (mn mx : Q) :
  minimumValue s = Fin mn -> mn == 0 ->
  maximumValue s = Fin mx -> mx == 0 ->
  Stepped.shareValueToSeconds P s = NaN.
Proof.
  intros Hmn Zmn Hmx Zmx.
  unfold Stepped.shareValueToSeconds, Stepped.sliderTotalValue.
  rewrite Hmn, Hmx. cbn [Js.add].
  assert (E : (Fin mn / Fin (mx + mn))%js = NaN).
  { simpl. assert (Z : mx + mn == 0) by (rewrite Zmn, Zmx; reflexivity).
    apply Qeq_bool_iff in Z. rewrite Z.
    apply Qeq_alt in Zmn. now rewrite Zmn. }
  rewrite E, add_NaN_r, clamp_NaN. reflexivity.
Qed.

Lemma shareValueToSeconds_zero_bounds_plain
      (P : Plain.Props) (s : State) (mn mx : Q) :
  minimumValue s = Fin mn -> mn == 0 ->
  maximumValue s = Fin mx -> mx == 0 ->
  Plain.shareValueToSeconds P s = NaN.
Proof.
  intros Hmn Zmn Hmx Zmx.
  unfold Plain.shareValueToSeconds, Plain.sliderTotalValue.
  rewrite Hmn, Hmx. cbn [Js.add].
  assert (E : (Fin mn / Fin (mx + mn))%js = NaN).
  { simpl. assert (Z : mx + mn == 0) by (rewrite Zmn, Zmx; reflexivity).
    apply Qeq_bool_iff in Z. rewrite Z.
    apply Qeq_alt in Zmn. now rewrite Zmn. }
  rewrite E, add_NaN_r, clamp_NaN. reflexivity.
Qed.

(** Away from the degenerate bounds the value is within the bounds: finite
    shared values, a thumb narrower than the track, bounds in order whose
    sum is not zero. *)
Lemma shareValueToSeconds_within
      (P : Stepped.Props) (s : State) (mn mx w tv tw : Q) :
  minimumValue s = Fin mn -> maximumValue s = Fin mx ->
  width s = Fin w -> thumbValue s = Fin tv -> Stepped.thumbWidth P = Fin tw ->
  mn <= mx -> tw < w -> ~ mx + mn == 0 ->
  within (Fin mn) (Fin mx) (Stepped.shareValueToSeconds P s).
Proof.
  intros Hmn Hmx Hw Htv Htw Hle Hlt Hnz.
  unfold Stepped.shareValueToSeconds, Stepped.sliderTotalValue.
  rewrite Hmn, Hmx, Hw, Htv, Htw. cbn [Js.add Js.sub Js.neg].
  rewrite !div_Fin; [| assumption | lra]. cbn [Js.add].
  destruct (clamp_Fin (tv / (w + - tw) + mn / (mx + mn)) 0 1) as (r & -> & _).
  cbn [Js.mul]. now apply clamp_Fin_within.
Qed.

(** C3, evaluated on the code: with both bounds 0 (bounds in order, thumb
    narrower than the track) a pan update at [x = 30] hands [NaN] to
    [onValueChange], in both Sliders; [NaN] is not within the bounds. *)
Theorem onValueChange_NaN_on_zero_bounds :
  let s := mounted 0 0 75 in
  (minimumValue s <= maximumValue s)%js = true /\
  (Stepped.thumbWidth steppedDefaults < width s)%js = true /\
  calls_of (Stepped.onGestureEvent_onUpdate steppedDefaults (Fin 30) s) =
    [OnValueChange NaN; SetMarkStyles] /\
  calls_of (Plain.onGestureEvent_onUpdate plainDefaults (Fin 30) s) =
    [OnValueChange NaN] /\
  ~ within (minimumValue s) (maximumValue s) NaN.
Proof.
  cbv zeta. repeat split; try reflexivity.
  intros [H _]. discriminate.
Qed.

(** ** Degenerate bounds *)

(** C6, evaluated on the code: when [sliderTotalValue()] is zero
    [progressToValue] returns 0 in both Sliders (its division is guarded),
    but [shareValueToSeconds] divides [minimumValue] by it unguarded and
    returns [NaN] whenever both bounds are 0. *)
Theorem shareValueToSeconds_NaN_on_zero_bounds
        (SP : Stepped.Props) (PP : Plain.Props) (s : State) (mn mx : Q) :
  minimumValue s = Fin mn -> mn == 0 ->
  maximumValue s = Fin mx -> mx == 0 ->
  (Stepped.sliderTotalValue s === Fin 0)%js = true /\
  (forall value, Stepped.progressToValue s value = Fin 0) /\
  (forall value, Plain.progressToValue PP s value = Fin 0) /\
  Stepped.shareValueToSeconds SP s = NaN /\
  Plain.shareValueToSeconds PP s = NaN.
Proof.
  intros Hmn Zmn Hmx Zmx.
  assert (T : (Stepped.sliderTotalValue s === Fin 0)%js = true).
  { unfold Stepped.sliderTotalValue. rewrite Hmn, Hmx. simpl.
    apply Qeq_bool_iff. rewrite Zmn, Zmx. reflexivity. }
  split; [exact T|]. split; [|split; [|split]].
  - intros v. unfold Stepped.progressToValue. now rewrite T.
  - intros v. unfold Plain.progressToValue.
    change (Plain.sliderTotalValue s) with (Stepped.sliderTotalValue s).
    now rewrite T.
  - eapply shareValueToSeconds_zero_bounds_stepped; eauto.
  - eapply shareValueToSeconds_zero_bounds_plain; eauto.
Qed.

Lemma shareValueToSeconds_NaN_on_zero_bounds_witness :
  Stepped.shareValueToSeconds steppedDefaults
    (set_thumbValue (Fin 30) (mounted 0 0 75)) = NaN /\
  Plain.shareValueToSeconds plainDefaults
    (set_thumbValue (Fin 30) (mounted 0 0 75)) = NaN.
Proof.
  apply (@shareValueToSeconds_NaN_on_zero_bounds steppedDefaults plainDefaults
           (set_thumbValue (Fin 30) (mounted 0 0 75)) 0 0);
    reflexivity.
Defined.

(** ** Running worklets *)

Lemma state_bind {A B} (m : Worklet A) (k : A -> Worklet B) (s : State) :
  state_of (bind m k s) = state_of (k (value_of (m s)) (state_of (m s))).
Proof.
  unfold bind, state_of, value_of. destruct (m s) as [[a s1] t1].
  cbn. now destruct (k a s1) as [[b s2] t2].
Qed.

Lemma calls_bind {A B} (m : Worklet A) (k : A -> Worklet B) (s : State) :
  calls_of (bind m k s) =
  calls_of (m s) ++ calls_of (k (value_of (m s)) (state_of (m s))).
Proof.
  unfold bind, calls_of, state_of, value_of. destruct (m s) as [[a s1] t1].
  cbn. now destruct (k a s1) as [[b s2] t2].
Qed.

Lemma hapticCalls_app (t u : list Call) :
  hapticCalls (t ++ u) = (hapticCalls t + hapticCalls u)%nat.
Proof. unfold hapticCalls. now rewrite filter_app, length_app. Qed.

(** Unfolds a handler down to the state it returns and the calls it logs. *)
Ltac run_worklet :=
  unfold state_of, calls_of, value_of, bind, gets, modify, when, ret, runOnJS;
  cbn.

(** ** The haptic callback at the edges *)

(** One pan update of [src/slide.tsx], seen from the haptic flag. *)
Lemma stepped_update_haptic (P : Stepped.Props) (s : State) (x : num) :
  Stepped.hapticMode P = BOTH -> Stepped.onHapticFeedback P = true ->
  let r := Stepped.onGestureEvent_onUpdate P x s in
  let e := atEdge (width s) (Stepped.thumbWidth P) x in
  width (state_of r) = width s /\
  isTriggedHaptic (state_of r) =
    (if Stepped.disable P then isTriggedHaptic s else e) /\
  hapticCalls (calls_of r) =
    (if negb (Stepped.disable P) && e && negb (isTriggedHaptic s)
     then 1 else 0)%nat.
Proof.
  intros Hm Hc. cbv zeta.
  unfold Stepped.onGestureEvent_onUpdate, Stepped.onActiveSlider, Stepped.onSlideAcitve,
    atEdge.
  rewrite Hm, Hc.
  destruct (Stepped.disable P); [run_worklet; auto|].
  destruct (Stepped.hasIsScrubbing P), (Stepped.hasPanDirectionValue P),
    (Stepped.disableTrackFollow P), (Stepped.onValueChange P);
    run_worklet;
    destruct (isTriggedHaptic s) eqn:T;
    destruct (x <= Fin 0)%js, (x >= width s - Stepped.thumbWidth P)%js;
    cbn; auto.
Qed.

(** One pan update of the second Slider, seen from the haptic flag. *)
Lemma plain_update_haptic (P : Plain.Props) (s : State) (x : num) :
  Plain.hapticMode P = BOTH -> Plain.onHapticFeedback P = true ->
  let r := Plain.onGestureEvent_onUpdate P x s in
  let e := atEdge (width s) (Plain.thumbWidth P) x in
  width (state_of r) = width s /\
  isTriggedHaptic (state_of r) =
    (if Plain.disable P then isTriggedHaptic s else e) /\
  hapticCalls (calls_of r) =
    (if negb (Plain.disable P) && e && negb (isTriggedHaptic s)
     then 1 else 0)%nat.
Proof.
  intros Hm Hc. cbv zeta.
  unfold Plain.onGestureEvent_onUpdate, Plain.onActiveSlider, Plain.onSlideAcitve, atEdge.
  rewrite Hm, Hc.
  destruct (Plain.disable P); [run_worklet; auto|].
  destruct (Plain.hasIsScrubbing P), (Plain.hasPanDirectionValue P),
    (Plain.disableTrackFollow P), (Plain.onValueChange P);
    run_worklet;
    destruct (isTriggedHaptic s) eqn:T;
    destruct (x <= Fin 0)%js, (x >= width s - Plain.thumbWidth P)%js;
    cbn; auto.
Qed.

Section EdgeRuns.

Variable handle : Gesture -> Worklet unit.
Variable tw : num.
Variable disabled : bool.

(** What the two lemmas above establish for a handler. *)
Hypothesis update_haptic : forall (s : State) (x : num),
  let r := handle (PanUpdate x) s in
  let e := atEdge (width s) tw x in
  width (state_of r) = width s /\
  isTriggedHaptic (state_of r) = (if disabled then isTriggedHaptic s else e) /\
  hapticCalls (calls_of r) =
    (if negb disabled && e && negb (isTriggedHaptic s) then 1 else 0)%nat.

Lemma edge_run_fires_once (xs : list num) : forall s : State,
  Forall (fun x => atEdge (width s) tw x = true) xs ->
  let calls := calls_of (deliver handle (map PanUpdate xs) s) in
  (hapticCalls calls <= 1)%nat /\
  (isTriggedHaptic s = true -> hapticCalls calls = 0%nat).
Proof.
  induction xs as [|x xs IH]; intros s Hall; cbv zeta.
  - cbn. split; auto.
  - inversion Hall as [|? ? Hx Hxs]; subst.
    cbn [map deliver]. rewrite calls_bind, hapticCalls_app.
    destruct (update_haptic s x) as (Hw & Hf & Hc).
    rewrite Hx in Hf, Hc.
    destruct (IH (state_of (handle (PanUpdate x) s))) as [IH1 IH2].
    { now rewrite Hw. }
    rewrite Hc.
    destruct disabled; cbn in *.
    + split; [lia|]. intros T. rewrite IH2 by congruence. reflexivity.
    + rewrite (IH2 Hf). destruct (isTriggedHaptic s); cbn; split; auto.
      discriminate.
Qed.

Lemma haptic_once_per_edge_touch : hapticOncePerEdgeTouch tw handle.
Proof.
  intros s. split; [intros xs; apply edge_run_fires_once|].
  intros x. cbv zeta. destruct (update_haptic s x) as (_ & Hf & Hc).
  rewrite Hc, Hf.
  destruct disabled, (atEdge (width s) tw x), (isTriggedHaptic s); cbn;
    repeat split; auto; try discriminate; try congruence.
Qed.

End EdgeRuns.

(** C5: with [hapticMode = 'both'] and an [onHapticFeedback] callback, in
    both Sliders, a run of drag updates that keeps the thumb at an edge
    ([x <= 0] or [x >= width - thumbWidth]) calls [onHapticFeedback] at
    most once, and not at all if it was already called for this touch of
    the edge; the callback fires only when armed, and is armed again only
    by an update whose position is away from both edges. *)
Theorem haptic_fires_once_per_edge_touch
        (SP : Stepped.Props) (PP : Plain.Props) :
  Stepped.hapticMode SP = BOTH -> Stepped.onHapticFeedback SP = true ->
  Plain.hapticMode PP = BOTH -> Plain.onHapticFeedback PP = true ->
  hapticOncePerEdgeTouch (Stepped.thumbWidth SP) (steppedHandle SP) /\
  hapticOncePerEdgeTouch (Plain.thumbWidth PP) (plainHandle PP).
Proof.
  intros HSm HSc HPm HPc. split.
  - apply haptic_once_per_edge_touch with (disabled := Stepped.disable SP).
    intros s x. now apply stepped_update_haptic.
  - apply haptic_once_per_edge_touch with (disabled := Plain.disable PP).
    intros s x. now apply plain_update_haptic.
Qed.

Lemma haptic_fires_once_per_edge_touch_witness :
  hapticOncePerEdgeTouch (Fin 15) (steppedHandle steppedHaptic) /\
  hapticOncePerEdgeTouch (Fin 15) (plainHandle plainHaptic).
Proof.
  apply (@haptic_fires_once_per_edge_touch steppedHaptic plainHaptic);
    reflexivity.
Defined.

(** A drag that stays at the left edge for three updates, leaves it, and
    then stays at the right edge for two: two calls, one per touch. *)
Example haptic_two_touches :
  let xs := [Fin 0; Fin (-3); Fin 0; Fin 50; Fin 115; Fin 120] in
  hapticCalls (calls_of (deliver (steppedHandle steppedHaptic)
                           (map PanUpdate xs) (mounted 0 100 115))) = 2%nat /\
  hapticCalls (calls_of (deliver (plainHandle plainHaptic)
                           (map PanUpdate xs) (mounted 0 100 115))) = 2%nat.
Proof. split; vm_compute; reflexivity. Qed.

(** ** A disabled Slider *)

(** C9: when [disable] is set, in both Sliders, a pan start, a pan update,
    a pan end and a tap leave every shared value as it was, among them
    [progress], [thumbValue] and [bubbleOpacity]; the pan events make no
    call at all, and a tap makes exactly the call to [onTap], when that
    prop is supplied. *)
Theorem disabled_slider_is_inert
        (SP : Stepped.Props) (PP : Plain.Props) (s : State) (e : Gesture) :
  Stepped.disable SP = true -> Plain.disable PP = true ->
  state_of (steppedHandle SP e s) = s /\
  state_of (plainHandle PP e s) = s /\
  calls_of (steppedHandle SP e s) =
    match e with
    | Tap _ _ => if Stepped.onTap SP then [OnTap] else []
    | _ => []
    end /\
  calls_of (plainHandle PP e s) =
    match e with
    | Tap _ _ => if Plain.onTap PP then [OnTap] else []
    | _ => []
    end.
Proof.
  intros HS HP.
  destruct e; cbn [steppedHandle plainHandle];
    unfold Stepped.onGestureEvent_onStart, Stepped.onGestureEvent_onUpdate, Stepped.onGestureEvent_onEnd,
      Stepped.onSingleTapEvent_onEnd, Plain.onGestureEvent_onStart, Plain.onGestureEvent_onUpdate, Plain.onGestureEvent_onEnd,
      Plain.onSingleTapEvent_onEnd;
    rewrite HS, HP; cbn [orb];
    try (repeat split; reflexivity).
  destruct (Stepped.onTap SP), (Plain.onTap PP); repeat split; reflexivity.
Qed.

Lemma disabled_slider_is_inert_witness :
  let s := mounted 0 100 115 in
  state_of (steppedHandle steppedDisabled (Tap (Fin 50) true) s) = s /\
  state_of (plainHandle plainDisabled (Tap (Fin 50) true) s) = s /\
  calls_of (steppedHandle steppedDisabled (Tap (Fin 50) true) s) = [OnTap] /\
  calls_of (plainHandle plainDisabled (Tap (Fin 50) true) s) = [OnTap].
Proof.
  apply (@disabled_slider_is_inert steppedDisabled plainDisabled
           (mounted 0 100 115) (Tap (Fin 50) true)); reflexivity.
Defined.

(** ** The two Sliders agree on the shared logic *)

(** C8: with [step] unset and the same thumb width, [xToProgress] and
    [shareValueToSeconds] of [src/slide.tsx] return what the functions of
    the same names in the second Slider return, for every position and all
    shared values. *)
Theorem variants_agree
        (SP : Stepped.Props) (PP : Plain.Props) (s : State) (x : num) :
  Stepped.step SP = None ->
  Stepped.thumbWidth SP = Plain.thumbWidth PP ->
  Stepped.xToProgress SP s x = Plain.xToProgress PP s x /\
  Stepped.shareValueToSeconds SP s = Plain.shareValueToSeconds PP s.
Proof.
  intros Hstep Htw. split.
  - unfold Stepped.xToProgress, Stepped.stepping, Plain.xToProgress.
    rewrite Hstep, Htw. reflexivity.
  - unfold Stepped.shareValueToSeconds, Plain.shareValueToSeconds.
    rewrite Htw. reflexivity.
Qed.

Lemma variants_agree_witness :
  let s := set_thumbValue (Fin 40) (mounted 0 100 115) in
  Stepped.xToProgress steppedDefaults s (Fin 40) =
    Plain.xToProgress plainDefaults s (Fin 40) /\
  Stepped.shareValueToSeconds steppedDefaults s =
    Plain.shareValueToSeconds plainDefaults s.
Proof.
  apply (@variants_agree steppedDefaults plainDefaults
           (set_thumbValue (Fin 40) (mounted 0 100 115)) (Fin 40));
    reflexivity.
Defined.

(** ** Progress when the track does not follow the thumb *)

Section Keeps.

Context {A : Type} (f : State -> A).

Lemma keeps_ret {B} (b : B) : keeps f (ret b).
Proof. intros s. reflexivity. Qed.

Lemma keeps_gets {B} (g : State -> B) : keeps f (gets g).
Proof. intros s. reflexivity. Qed.

Lemma keeps_runOnJS (c : Call) : keeps f (runOnJS c).
Proof. intros s. reflexivity. Qed.

Lemma keeps_modify (g : State -> State) :
  (forall s, f (g s) = f s) -> keeps f (modify g).
Proof. intros H s. apply H. Qed.

Lemma keeps_bind {B C} (m : Worklet B) (k : B -> Worklet C) :
  keeps f m -> (forall b, keeps f (k b)) -> keeps f (bind m k).
Proof.
  intros Hm Hk s. rewrite state_bind, Hk. apply Hm.
Qed.

Lemma keeps_when (b : bool) (m : Worklet unit) :
  keeps f m -> keeps f (when b m).
Proof. intros H. destruct b; [exact H | apply keeps_ret]. Qed.

Lemma keeps_deliver (handle : Gesture -> Worklet unit) (es : list Gesture) :
  Forall (fun e => keeps f (handle e)) es -> keeps f (deliver handle es).
Proof.
  induction 1 as [|e es He _ IH]; cbn [deliver].
  - apply keeps_ret.
  - apply keeps_bind; auto.
Qed.

End Keeps.

(** Walks through a worklet, one combinator at a time. *)
Ltac keeps_step :=
  match goal with
  | |- keeps _ (bind _ _) => apply keeps_bind; [|intros ?]
  | |- keeps _ (when _ _) => apply keeps_when
  | |- keeps _ (ret _) => apply keeps_ret
  | |- keeps _ (gets _) => apply keeps_gets
  | |- keeps _ (runOnJS _) => apply keeps_runOnJS
  | |- keeps _ (modify _) => apply keeps_modify; intros ?; reflexivity
  | |- keeps _ (if ?c then _ else _) => destruct c
  | |- keeps _ (match ?c with _ => _ end) => destruct c
  | |- keeps _ _ => progress cbv zeta
  end.

(** No handler of either Slider writes to the track. *)
Lemma stepped_handle_track (P : Stepped.Props) (e : Gesture) :
  keeps track (steppedHandle P e).
Proof.
  destruct e; cbn [steppedHandle];
    unfold Stepped.onGestureEvent_onStart, Stepped.onGestureEvent_onUpdate, Stepped.onGestureEvent_onEnd,
      Stepped.onSingleTapEvent_onEnd, Stepped.onActiveSlider, Stepped.onSlideAcitve,
      Stepped.roundOnRelease;
    repeat keeps_step.
Qed.

Lemma plain_handle_track (P : Plain.Props) (e : Gesture) :
  keeps track (plainHandle P e).
Proof.
  destruct e; cbn [plainHandle];
    unfold Plain.onGestureEvent_onStart, Plain.onGestureEvent_onUpdate, Plain.onGestureEvent_onEnd,
      Plain.onSingleTapEvent_onEnd, Plain.onActiveSlider, Plain.onSlideAcitve,
      Plain.roundOnRelease;
    repeat keeps_step.
Qed.

Lemma stepped_xToProgress_track (P : Stepped.Props) (s s' : State) (x : num) :
  track s' = track s ->
  Stepped.xToProgress P s' x = Stepped.xToProgress P s x.
Proof.
  unfold track. intros E. injection E as A1 A2 A3 A4 A5.
  unfold Stepped.xToProgress, Stepped.stepping, Stepped.sliderTotalValue.
  now rewrite A1, A2, A3, A4, A5.
Qed.

Lemma plain_xToProgress_track (P : Plain.Props) (s s' : State) (x : num) :
  track s' = track s ->
  Plain.xToProgress P s' x = Plain.xToProgress P s x.
Proof.
  unfold track. intros E. injection E as A1 A2 A3 A4 A5.
  unfold Plain.xToProgress, Plain.sliderTotalValue.
  now rewrite A1, A2, A3.
Qed.

(** With [disableTrackFollow], the start and the updates of a pan leave
    [progress] alone. *)
Lemma stepped_drag_keeps_progress (P : Stepped.Props) (e : Gesture) :
  Stepped.disableTrackFollow P = true ->
  match e with PanStart | PanUpdate _ => True | _ => False end ->
  keeps progress (steppedHandle P e).
Proof.
  intros D He. destruct e; try contradiction; cbn [steppedHandle];
    unfold Stepped.onGestureEvent_onStart, Stepped.onGestureEvent_onUpdate,
      Stepped.onActiveSlider, Stepped.onSlideAcitve;
    rewrite ?D; cbn [negb when]; repeat keeps_step.
Qed.

Lemma plain_drag_keeps_progress (P : Plain.Props) (e : Gesture) :
  Plain.disableTrackFollow P = true ->
  match e with PanStart | PanUpdate _ => True | _ => False end ->
  keeps progress (plainHandle P e).
Proof.
  intros D He. destruct e; try contradiction; cbn [plainHandle];
    unfold Plain.onGestureEvent_onStart, Plain.onGestureEvent_onUpdate,
      Plain.onActiveSlider, Plain.onSlideAcitve;
    rewrite ?D; cbn [negb when]; repeat keeps_step.
Qed.

Lemma stepped_roundOnRelease_progress (P : Stepped.Props) (s : State) :
  progress (state_of (Stepped.roundOnRelease P s)) =
  roundIfFractional (progress s).
Proof.
  unfold Stepped.roundOnRelease, roundIfFractional. run_worklet.
  destruct (Js.rem (progress s) (Fin 1) !== Fin 0)%js,
    (Stepped.onSlidingComplete P); reflexivity.
Qed.

Lemma plain_roundOnRelease_progress (P : Plain.Props) (s : State) :
  progress (state_of (Plain.roundOnRelease P s)) =
  if Plain.snapToInteger P then roundIfFractional (progress s)
  else progress s.
Proof.
  unfold Plain.roundOnRelease, roundIfFractional. run_worklet.
  destruct (Plain.snapToInteger P),
    (Js.rem (progress s) (Fin 1) !== Fin 0)%js,
    (Plain.onSlidingComplete P); reflexivity.
Qed.

(** What [onActiveSlider] leaves in [progress] and [thumbValue]. *)
Lemma stepped_onActiveSlider_values (P : Stepped.Props) (s : State) (x : num) :
  let s' := state_of (Stepped.onActiveSlider P x s) in
  progress s' =
    (if Stepped.disableTrackFollow P then progress s
     else Stepped.xToProgress P s x) /\
  thumbValue s' = clamp x (Fin 0) (width s - Stepped.thumbWidth P).
Proof.
  cbv zeta. unfold Stepped.onActiveSlider, Stepped.onSlideAcitve.
  destruct (Stepped.hasIsScrubbing P), (Stepped.disableTrackFollow P),
    (Stepped.onValueChange P), (Stepped.hapticMode P),
    (Stepped.onHapticFeedback P), (isTriggedHaptic s) eqn:T;
    run_worklet; rewrite ?T; cbn;
    destruct (x <= Fin 0)%js, (x >= width s - Stepped.thumbWidth P)%js;
    split; reflexivity.
Qed.

Lemma plain_onActiveSlider_values (P : Plain.Props) (s : State) (x : num) :
  let s' := state_of (Plain.onActiveSlider P x s) in
  progress s' =
    (if Plain.disableTrackFollow P then progress s
     else Plain.xToProgress P s x) /\
  thumbValue s' = clamp x (Fin 0) (width s - Plain.thumbWidth P).
Proof.
  cbv zeta. unfold Plain.onActiveSlider, Plain.onSlideAcitve.
  destruct (Plain.hasIsScrubbing P), (Plain.disableTrackFollow P),
    (Plain.onValueChange P), (Plain.hapticMode P),
    (Plain.onHapticFeedback P), (isTriggedHaptic s) eqn:T;
    run_worklet; rewrite ?T; cbn;
    destruct (x <= Fin 0)%js, (x >= width s - Plain.thumbWidth P)%js;
    split; reflexivity.
Qed.

(** The progress a pan leaves on release. *)
Lemma stepped_onGestureEvent_onEnd_progress (P : Stepped.Props) (s : State) (x : num) :
  Stepped.disable P = false ->
  progress (state_of (Stepped.onGestureEvent_onEnd P x s)) =
  roundIfFractional
    (if Stepped.disableTrackFollow P then Stepped.xToProgress P s x
     else progress s).
Proof.
  intros D. unfold Stepped.onGestureEvent_onEnd. rewrite D.
  rewrite !state_bind, stepped_roundOnRelease_progress. f_equal.
  destruct (Stepped.hasIsScrubbing P), (Stepped.hasPanDirectionValue P),
    (Stepped.disableTrackFollow P); reflexivity.
Qed.

Lemma plain_onGestureEvent_onEnd_progress (P : Plain.Props) (s : State) (x : num) :
  Plain.disable P = false ->
  progress (state_of (Plain.onGestureEvent_onEnd P x s)) =
  let p := if Plain.disableTrackFollow P then Plain.xToProgress P s x
           else progress s in
  if Plain.snapToInteger P then roundIfFractional p else p.
Proof.
  intros D. unfold Plain.onGestureEvent_onEnd. rewrite D.
  rewrite !state_bind, plain_roundOnRelease_progress. cbv zeta.
  destruct (Plain.hasIsScrubbing P), (Plain.hasPanDirectionValue P),
    (Plain.disableTrackFollow P), (Plain.snapToInteger P); reflexivity.
Qed.

(** The progress a tap leaves. *)
Lemma stepped_onSingleTapEvent_onEnd_progress
      (P : Stepped.Props) (s : State) (x : num) (isFinished : bool) :
  Stepped.disable P = false -> Stepped.disableTapEvent P = false ->
  progress (state_of (Stepped.onSingleTapEvent_onEnd P x isFinished s)) =
  roundIfFractional
    (if isFinished && negb (Stepped.disableTrackFollow P)
     then Stepped.xToProgress P s x else progress s).
Proof.
  intros D T. unfold Stepped.onSingleTapEvent_onEnd. rewrite D, T. cbn [orb].
  rewrite !state_bind, stepped_roundOnRelease_progress. f_equal.
  assert (E : forall s0, state_of (when (Stepped.onTap P) (runOnJS OnTap) s0) = s0)
    by (intros s0; destruct (Stepped.onTap P); reflexivity).
  rewrite E.
  destruct isFinished; cbn [when andb].
  - destruct (stepped_onActiveSlider_values P s x) as [Hp _].
    destruct (Stepped.hasIsScrubbing P); cbn; exact Hp || (rewrite Hp;
      now destruct (Stepped.disableTrackFollow P)).
  - destruct (Stepped.hasIsScrubbing P); reflexivity.
Qed.

Lemma stepped_onGestureEvent_onUpdate_thumbValue (P : Stepped.Props) (s : State) (x : num) :
  Stepped.disable P = false ->
  thumbValue (state_of (Stepped.onGestureEvent_onUpdate P x s)) =
  clamp x (Fin 0) (width s - Stepped.thumbWidth P).
Proof.
  intros D. unfold Stepped.onGestureEvent_onUpdate. rewrite D. rewrite !state_bind.
  rewrite (proj2 (stepped_onActiveSlider_values P _ x)).
  destruct (Stepped.hasPanDirectionValue P); reflexivity.
Qed.

Lemma plain_onGestureEvent_onUpdate_thumbValue (P : Plain.Props) (s : State) (x : num) :
  Plain.disable P = false ->
  thumbValue (state_of (Plain.onGestureEvent_onUpdate P x s)) =
  clamp x (Fin 0) (width s - Plain.thumbWidth P).
Proof.
  intros D. unfold Plain.onGestureEvent_onUpdate. rewrite D. rewrite !state_bind.
  rewrite (proj2 (plain_onActiveSlider_values P _ x)).
  destruct (Plain.hasPanDirectionValue P); reflexivity.
Qed.

Lemma drag_events (xs : list num) (Q : Gesture -> Prop) :
  Q PanStart -> (forall x, Q (PanUpdate x)) ->
  Forall Q (PanStart :: map PanUpdate xs).
Proof.
  intros H0 H1. constructor; [exact H0|].
  induction xs; cbn; constructor; auto.
Qed.

(** C10, evaluated on the code: a slider of [src/slide.tsx] with 4 steps
    (bounds 0 and 4, track width 100) and [disableTrackFollow] set, mounted
    with progress 0.  The start and the update of a pan leave [progress] at
    0 and move [thumbValue] to the clamped position; the pan end does
    assign [progress], but not from the position: [xToProgress] takes its
    stepping branch, so that a pan released at [x = 10] and one released at
    [x = 90] both end with progress -5, the offset of mark 0, whichever
    reactions run between the events. *)
Theorem pan_end_ignores_position_when_stepping :
  let P := steppedNoFollowWithStep 4 in
  let s0 := mounted 0 4 100 in
  let s := set_markLeftArr (Stepped.markLeftArrData P s0) s0 in
  let dragged (x : num) (r1 r2 : Reactions) :=
    state_of (deliverReacting (steppedHandle P) (steppedReact P)
                [(PanStart, r1); (PanUpdate x, r2)] s) in
  let released (x : num) (r1 r2 r3 : Reactions) :=
    state_of (deliverReacting (steppedHandle P) (steppedReact P)
                [(PanStart, r1); (PanUpdate x, r2); (PanEnd x, r3)] s) in
  Stepped.disableTrackFollow P = true /\
  Stepped.stepping P s = true /\
  (forall r1 r2 : Reactions,
      (progress (dragged (Fin 10) r1 r2) === Fin 0)%js = true /\
      (thumbValue (dragged (Fin 10) r1 r2) === Fin 10)%js = true /\
      (progress (dragged (Fin 90) r1 r2) === Fin 0)%js = true /\
      (thumbValue (dragged (Fin 90) r1 r2) === Fin 85)%js = true) /\
  (forall r1 r2 r3 : Reactions,
      (progress (released (Fin 10) r1 r2 r3) === Fin (-5))%js = true /\
      (progress (released (Fin 90) r1 r2 r3) === Fin (-5))%js = true).
Proof.
  cbv zeta. split; [reflexivity|]. split; [reflexivity|]. split.
  - intros [[] [] []] [[] [] []]; vm_compute; repeat split.
  - intros [[] [] []] [[] [] []] [[] [] []]; vm_compute; repeat split.
Qed.

Example drag_without_follow :
  let s := set_progress (Fin 20) (mounted 0 100 75) in
  let drag := PanStart :: map PanUpdate [Fin 15; Fin 30] in
  let s1 := state_of (deliver (steppedHandle steppedNoFollow) drag s) in
  progress s1 = Fin 20 /\ thumbValue s1 = Fin 30 /\
  (progress (state_of (steppedHandle steppedNoFollow (PanEnd (Fin 30)) s1))
   === Fin 50)%js = true.
Proof. repeat split; vm_compute; reflexivity. Qed.

(** ** Release: rounding to an integer *)

Lemma roundIfFractional_nearest (q : Q) :
  nearestInteger (Fin q) (roundIfFractional (Fin q)).
Proof.
  unfold roundIfFractional, Js.rem, Js.sne, Js.seq.
  change (Qeq_bool 1 0) with false. cbv iota.
  set (z := Js.trunc (q / 1)).
  destruct (Qeq_bool (q - 1 * inject_Z z) 0) eqn:E; cbn [negb].
  - apply Qeq_bool_iff in E. exists q, z. split; [reflexivity|]. split.
    + simpl. apply Qeq_bool_iff. lra.
    + apply Qabs_Qle_condition. lra.
  - exists q, (Qfloor (q + (1 # 2))). split; [reflexivity|]. split.
    + simpl. apply Qeq_bool_iff. reflexivity.
    + pose proof (Qfloor_le (q + (1 # 2))) as H1.
      pose proof (Qlt_floor (q + (1 # 2))) as H2.
      rewrite inject_Z_plus in H2. change (inject_Z 1) with 1 in H2.
      apply Qabs_Qle_condition. lra.
Qed.

(** C4, evaluated on the code: a slider of 4 steps (bounds 0 and 4, track
    width 100), mounted with progress 0, is dragged to [x = 60] and released
    there.  With stepping enabled [xToProgress] returns
    [markLeftArr[thumbIndex]], the pixel offset of mark 0, whatever the
    position, and the release, which only rounds to an integer, keeps it.
    The progress ends at -5: below [minimumValue] and the value of none of
    the five marks, where the nearest mark to the release position is
    mark 3 (read as an offset, -5 is farther from 60 than the offset of
    mark 3).  The reactions agree with the [markLeftArr] and the
    [thumbIndex] of the states before and after the gesture, and the
    progress is the same whichever of them run between the events. *)
Theorem release_leaves_progress_off_marks :
  let P := steppedWithStep 4 in
  let s0 := mounted 0 4 100 in
  let s := set_markLeftArr (Stepped.markLeftArrData P s0) s0 in
  let gesture := [PanStart; PanUpdate (Fin 60); PanEnd (Fin 60)] in
  let s' := state_of (deliver (steppedHandle P) gesture s) in
  Stepped.thumbIndexData P s = Some (thumbIndex s) /\
  Stepped.thumbIndexData P s' = Some (thumbIndex s') /\
  Stepped.stepping P s = true /\
  (Stepped.xToProgress P s (Fin 60) === Fin (-5))%js = true /\
  (progress s' === Fin (-5))%js = true /\
  (progress s' < minimumValue s')%js = true /\
  ~ onMark s' 4 (progress s') /\
  (exists m p : Q,
      nth_error (markLeftArr s') 3 = Some (Fin m) /\ progress s' = Fin p /\
      Qabs (m - 60) < Qabs (p - 60)) /\
  (forall r1 r2 r3 : Reactions,
      progress
        (state_of (deliverReacting (steppedHandle P) (steppedReact P)
                     [(PanStart, r1); (PanUpdate (Fin 60), r2);
                      (PanEnd (Fin 60), r3)] s)) = progress s').
Proof.
  cbv zeta. split; [vm_compute; reflexivity|].
  split; [vm_compute; reflexivity|].
  split; [reflexivity|]. split; [vm_compute; reflexivity|].
  split; [vm_compute; reflexivity|]. split; [vm_compute; reflexivity|].
  split; [|split].
  - intros (i & Hi & H).
    do 5 (destruct i as [|i]; [vm_compute in H; discriminate|]).
    lia.
  - eexists. eexists. split; [vm_compute; reflexivity|].
    split; [vm_compute; reflexivity|]. vm_compute. reflexivity.
  - intros [[] [] []] [[] [] []] [[] [] []]; vm_compute; reflexivity.
Qed.

(** What a release of [src/slide.tsx] does to the progress it finds, with
    or without [step]: on an enabled Slider the end of a pan, or a finished
    tap when taps are not disabled, replaces it by the nearest integer,
    halves upwards, and keeps it when it is an integer already; the
    progress it finds is [xToProgress x] where the handler assigns it and
    the previous progress otherwise. *)
Lemma release_rounds_progress_to_integer
      (P : Stepped.Props) (s : State) (x : num) :
  Stepped.disable P = false ->
  let found_by_pan :=
    if Stepped.disableTrackFollow P then Stepped.xToProgress P s x
    else progress s in
  let found_by_tap :=
    if Stepped.disableTrackFollow P then progress s
    else Stepped.xToProgress P s x in
  (progress (state_of (steppedHandle P (PanEnd x) s)) =
     roundIfFractional found_by_pan /\
   (Js.is_finite found_by_pan = true ->
    nearestInteger found_by_pan (roundIfFractional found_by_pan))) /\
  (Stepped.disableTapEvent P = false ->
   progress (state_of (steppedHandle P (Tap x true) s)) =
     roundIfFractional found_by_tap /\
   (Js.is_finite found_by_tap = true ->
    nearestInteger found_by_tap (roundIfFractional found_by_tap))).
Proof.
  intros D. cbv zeta. split; [|intros T]; (split; [|]).
  - apply stepped_onGestureEvent_onEnd_progress, D.
  - intros F. destruct (if Stepped.disableTrackFollow P then _ else _);
      try discriminate. apply roundIfFractional_nearest.
  - cbn [steppedHandle]. rewrite stepped_onSingleTapEvent_onEnd_progress by assumption.
    now destruct (Stepped.disableTrackFollow P).
  - intros F. destruct (if Stepped.disableTrackFollow P then _ else _);
      try discriminate. apply roundIfFractional_nearest.
Qed.

(** ** The marks *)


Lemma markLeftArrData_length (P : Stepped.Props) (s : State) (n : nat) :
  Stepped.step P = Some (S n) ->
  length (Stepped.markLeftArrData P s) = (S n + 1)%nat.
Proof.
  intros Hstep. unfold Stepped.markLeftArrData.
  now rewrite Hstep, length_map, length_seq.
Qed.


(** *** Binary64: the error of one rounding *)










(** *** The mark offsets in binary64 *)






(** The binary64 reading follows the code where the exact one does not:
    on a track of width 345 cut into 10 steps, [345 * (7 / 10)] falls just
    below 241.5 in binary64, so that mark 7 lies at 236 (marks of width
    0); and both readings agree on the slider of the examples. *)
Example markLeftArrData64_rounds :
  (nth 7 (Stepped.markLeftArrData64 (steppedWithMarks 10 0)
            (mounted 0 10 345)) NaN === Fin 236)%js = true /\
  (nth 7 (Stepped.markLeftArrData (steppedWithMarks 10 0)
            (mounted 0 10 345)) NaN === Fin 237)%js = true /\
  sameNumbers
    (Stepped.markLeftArrData64 (steppedWithStep 4) (mounted 0 4 100))
    (Stepped.markLeftArrData (steppedWithStep 4) (mounted 0 4 100)) = true.
Proof. repeat split; vm_compute; reflexivity. Qed.


(** Room for the marks is not enough on a track too wide for binary64:
    with 5 steps, marks of width 2^56 and a track 16 wider, marks 2 and 3
    coincide. *)
Example markLeftArr_wide_track :
  let P := steppedWithMarks 5 72057594037927936 in
  let s := mounted 0 5 72057594037927952 in
  (nth 2 (Stepped.markLeftArrData64 P s) NaN === Fin 3)%js = true /\
  (nth 3 (Stepped.markLeftArrData64 P s) NaN === Fin 3)%js = true.
Proof. split; vm_compute; reflexivity. Qed.




(** ** Further properties: [clamp] on finite and infinite numbers *)

Ltac qbool :=
  repeat match goal with
         | H : Qle_bool _ _ = true |- _ => apply Qle_bool_iff in H
         | H : Qle_bool _ _ = false |- _ => apply Qle_bool_false in H
         | H : Qeq_bool _ _ = true |- _ => apply Qeq_bool_iff in H
         | H : Qeq_bool _ _ = false |- _ => apply Qeq_bool_neq in H
         end.

Lemma clamp_Fin_q (v lo hi : Q) :
  clamp (Fin v) (Fin lo) (Fin hi) = Fin (qclamp v lo hi).
Proof.
  unfold clamp, qclamp, Js.max, Js.min, Js.le.
  destruct (Qle_bool lo v); cbv zeta;
    match goal with |- context [Qle_bool ?a hi] => destruct (Qle_bool a hi) end;
    reflexivity.
Qed.

Lemma qclamp_bounds (v lo hi : Q) :
  lo <= hi -> lo <= qclamp v lo hi /\ qclamp v lo hi <= hi.
Proof.
  intros H. unfold qclamp.
  destruct (Qle_bool lo v) eqn:E1; cbv zeta;
    match goal with
    | |- context [Qle_bool ?a hi] => destruct (Qle_bool a hi) eqn:E2
    end; qbool; lra.
Qed.

Lemma qclamp_mono (a b lo hi : Q) :
  a <= b -> qclamp a lo hi <= qclamp b lo hi.
Proof.
  intros H. unfold qclamp.
  destruct (Qle_bool lo a) eqn:E1, (Qle_bool lo b) eqn:E2; cbv zeta;
    repeat match goal with
           | |- context [Qle_bool ?x hi] =>
               let E := fresh "E" in destruct (Qle_bool x hi) eqn:E
           end; qbool; lra.
Qed.

Lemma qclamp_compat (a b lo hi : Q) :
  a == b -> qclamp a lo hi == qclamp b lo hi.
Proof.
  intros H. apply Qle_antisym; apply qclamp_mono; rewrite H; apply Qle_refl.
Qed.

Lemma qclamp_inside (v lo hi : Q) :
  lo <= v -> v <= hi -> qclamp v lo hi == v.
Proof.
  intros H1 H2. unfold qclamp.
  destruct (Qle_bool lo v) eqn:E1; cbv zeta;
    match goal with
    | |- context [Qle_bool ?a hi] => destruct (Qle_bool a hi) eqn:E2
    end; qbool; lra.
Qed.

Lemma qclamp_above (v lo hi : Q) :
  lo <= hi -> hi <= v -> qclamp v lo hi == hi.
Proof.
  intros H1 H2. unfold qclamp.
  destruct (Qle_bool lo v) eqn:E1; cbv zeta;
    match goal with
    | |- context [Qle_bool ?a hi] => destruct (Qle_bool a hi) eqn:E2
    end; qbool; lra.
Qed.


(** An infinite argument is clamped to the bound on its side; only [NaN]
    gets through. *)
Lemma clamp_within_number (v : num) (lo hi : Q) :
  v <> NaN -> lo <= hi -> within (Fin lo) (Fin hi) (clamp v (Fin lo) (Fin hi)).
Proof.
  intros Hv H. destruct v as [| | |q]; [congruence | | |].
  - unfold clamp. cbn. apply within_Fin. lra.
  - unfold clamp. cbn. apply Qle_bool_iff in H. rewrite H.
    apply within_Fin. qbool. lra.
  - now apply clamp_Fin_within.
Qed.

Lemma seq_Fin (p q : Q) : (Fin p === Fin q)%js = true <-> p == q.
Proof. simpl. apply Qeq_bool_iff. Qed.

(** ** Further properties: position and progress *)

(** X1: the two ends of the thumb's travel, through [xToProgress] and
    back.  For finite shared values, bounds that do not sum to zero and a
    thumb not as wide as the track ([step] inactive), position 0 has
    progress 0 and position [width - thumbWidth] has progress
    [maximumValue + minimumValue] in both Sliders; [progressToValue] takes
    these back to 0 and to [width - thumbWidth] in the second Slider, and
    to 0 and to [width] in [src/slide.tsx]. *)
Theorem progressToValue_xToProgress_at_the_ends
        (SP : Stepped.Props) (PP : Plain.Props) (s : State)
        (mn mx w tw : Q) :
  minimumValue s = Fin mn -> maximumValue s = Fin mx -> width s = Fin w ->
  Stepped.thumbWidth SP = Fin tw -> Plain.thumbWidth PP = Fin tw ->
  Stepped.stepping SP s = false ->
  ~ mx + mn == 0 -> ~ w - tw == 0 ->
  let right := (width s - Plain.thumbWidth PP)%js in
  ((Plain.xToProgress PP s (Fin 0) === Fin 0)%js = true /\
   (Plain.xToProgress PP s right === Plain.sliderTotalValue s)%js = true /\
   (Plain.progressToValue PP s (Plain.xToProgress PP s (Fin 0))
    === Fin 0)%js = true /\
   (Plain.progressToValue PP s (Plain.xToProgress PP s right)
    === right)%js = true) /\
  ((Stepped.xToProgress SP s (Fin 0) === Fin 0)%js = true /\
   (Stepped.xToProgress SP s right === Stepped.sliderTotalValue s)%js = true /\
   (Stepped.progressToValue s (Stepped.xToProgress SP s (Fin 0))
    === Fin 0)%js = true /\
   (Stepped.progressToValue s (Stepped.xToProgress SP s right)
    === width s)%js = true).
Proof.
  intros Hmn Hmx Hw HtS HtP Hst HT HW. cbv zeta.
  unfold Plain.progressToValue, Plain.xToProgress, Plain.sliderTotalValue,
    Stepped.progressToValue, Stepped.xToProgress, Stepped.sliderTotalValue.
  rewrite Hst, Hmn, Hmx, Hw, HtS, HtP. cbn [Js.add Js.sub Js.neg].
  unfold Qminus in HW. rewrite !(@div_Fin _ (w + - tw) HW). cbn [Js.mul].
  assert (E : (Fin (mx + mn) === Fin 0)%js = false).
  { simpl. destruct (Qeq_bool (mx + mn) 0) eqn:E; [|reflexivity].
    qbool. contradiction. }
  rewrite ?E, !div_Fin by assumption. cbn [Js.mul].
  repeat split; apply seq_Fin; field; repeat split; assumption.
Qed.

Lemma progressToValue_xToProgress_at_the_ends_witness :
  let s := mounted 0 100 75 in
  (Plain.progressToValue plainDefaults s
     (Plain.xToProgress plainDefaults s (Fin (75 - 15))) === Fin (75 - 15))%js
  = true /\
  (Stepped.progressToValue s
     (Stepped.xToProgress steppedDefaults s (Fin (75 - 15))) === Fin 75)%js
  = true.
Proof.
  destruct (@progressToValue_xToProgress_at_the_ends
              steppedDefaults plainDefaults (mounted 0 100 75) 0 100 75 15
              eq_refl eq_refl eq_refl eq_refl eq_refl eq_refl)
    as [(_ & _ & _ & H1) (_ & _ & _ & H2)].
  - intros E; vm_compute in E; discriminate.
  - intros E; vm_compute in E; discriminate.
  - split; [exact H1 | exact H2].
Defined.

(** X2: where the progress of a drag does stay within the bounds: with
    [minimumValue] zero, a maximum that is not negative, a thumb narrower
    than the track and the track following the thumb, every position in
    [0, width - thumbWidth] leaves [progress] within
    [minimumValue, maximumValue], in both Sliders ([step] inactive). *)
Theorem onActiveSlider_progress_within
        (SP : Stepped.Props) (PP : Plain.Props) (s : State)
        (x mn mx w tw : Q) :
  minimumValue s = Fin mn -> maximumValue s = Fin mx -> width s = Fin w ->
  Stepped.thumbWidth SP = Fin tw -> Plain.thumbWidth PP = Fin tw ->
  Stepped.stepping SP s = false ->
  Stepped.disableTrackFollow SP = false ->
  Plain.disableTrackFollow PP = false ->
  mn == 0 -> 0 <= mx -> tw < w -> 0 <= x -> x <= w - tw ->
  within (Fin mn) (Fin mx)
    (progress (state_of (Stepped.onActiveSlider SP (Fin x) s))) /\
  within (Fin mn) (Fin mx)
    (progress (state_of (Plain.onActiveSlider PP (Fin x) s))).
Proof.
  intros Hmn Hmx Hw HtS HtP Hst DS DP Zmn Hpos Hlt Hx0 Hx1.
  rewrite (proj1 (stepped_onActiveSlider_values SP s (Fin x))), DS.
  rewrite (proj1 (plain_onActiveSlider_values PP s (Fin x))), DP.
  unfold Stepped.xToProgress, Plain.xToProgress, Stepped.sliderTotalValue,
    Plain.sliderTotalValue.
  rewrite Hst, Hmn, Hmx, Hw, HtS, HtP. cbn [Js.add Js.sub Js.neg].
  assert (HW : ~ w + - tw == 0) by lra.
  rewrite (div_Fin x HW). cbn [Js.mul].
  assert (Hr : 0 <= x / (w + - tw) /\ x / (w + - tw) <= 1).
  { split.
    - apply Qle_shift_div_l; lra.
    - apply Qle_shift_div_r; lra. }
  destruct Hr as [Hr0 Hr1].
  assert (within (Fin mn) (Fin mx) (Fin (x / (w + - tw) * (mx + mn)))).
  { apply within_Fin. set (r := x / (w + - tw)) in *. split; nra. }
  auto.
Qed.

Lemma onActiveSlider_progress_within_witness :
  let s := mounted 0 100 75 in
  within (Fin 0) (Fin 100)
    (progress (state_of (Stepped.onActiveSlider steppedDefaults (Fin 30) s)))
  /\
  within (Fin 0) (Fin 100)
    (progress (state_of (Plain.onActiveSlider plainDefaults (Fin 30) s))).
Proof.
  apply (@onActiveSlider_progress_within steppedDefaults plainDefaults
           (mounted 0 100 75) 30 0 100 75 15); try reflexivity;
    unfold Qle, Qlt; simpl; lia.
Defined.

Lemma stepped_onActiveSlider_track (P : Stepped.Props) (x : num) :
  keeps track (Stepped.onActiveSlider P x).
Proof.
  unfold Stepped.onActiveSlider, Stepped.onSlideAcitve. repeat keeps_step.
Qed.

Lemma plain_onActiveSlider_track (P : Plain.Props) (x : num) :
  keeps track (Plain.onActiveSlider P x).
Proof.
  unfold Plain.onActiveSlider, Plain.onSlideAcitve. repeat keeps_step.
Qed.

(** ** Further properties: [shareValueToSeconds] *)

Lemma plain_shareValueToSeconds_eq
      (SP : Stepped.Props) (PP : Plain.Props) (s : State) :
  Stepped.thumbWidth SP = Plain.thumbWidth PP ->
  Plain.shareValueToSeconds PP s = Stepped.shareValueToSeconds SP s.
Proof.
  intros H. unfold Plain.shareValueToSeconds, Stepped.shareValueToSeconds.
  now rewrite H.
Qed.

Lemma shareValueToSeconds_within_iff_stepped
      (P : Stepped.Props) (s : State) (mn mx w tv tw : Q) :
  minimumValue s = Fin mn -> maximumValue s = Fin mx ->
  width s = Fin w -> thumbValue s = Fin tv -> Stepped.thumbWidth P = Fin tw ->
  mn <= mx -> tw < w ->
  within (Fin mn) (Fin mx) (Stepped.shareValueToSeconds P s) <->
  ~ (mn == 0 /\ mx == 0).
Proof.
  intros Hmn Hmx Hw Htv Htw Hle Hlt.
  destruct (Qeq_bool (mx + mn) 0) eqn:T.
  - apply Qeq_bool_iff in T.
    destruct (Qcompare mn 0) eqn:C.
    + apply Qeq_alt in C. assert (Zmx : mx == 0) by lra.
      rewrite (shareValueToSeconds_zero_bounds_stepped P s Hmn C Hmx Zmx).
      split; [intros [H _]; discriminate | intros H; exfalso; auto].
    + split; [intros _ [Z _]; apply Qlt_alt in C; lra | intros _].
      unfold Stepped.shareValueToSeconds, Stepped.sliderTotalValue.
      rewrite Hmn, Hmx, Hw, Htv, Htw. cbn [Js.add Js.sub Js.neg].
      rewrite (@div_Fin tv (w + - tw)) by lra.
      assert (E : (Fin mn / Fin (mx + mn))%js = NInf).
      { simpl. apply Qeq_bool_iff in T. now rewrite T, C. }
      rewrite E. cbn [Js.add].
      change (clamp NInf (Fin 0) (Fin 1)) with (Fin 0). cbn [Js.mul].
      now apply clamp_Fin_within.
    + apply Qgt_alt in C. lra.
  - assert (HT : ~ mx + mn == 0) by (qbool; assumption).
    split; [intros _ [Z1 Z2]; apply HT; lra | intros _].
    eapply shareValueToSeconds_within; eauto.
Qed.

(** X4: for finite shared values, bounds in order and a thumb narrower than
    the track, the value [shareValueToSeconds] returns lies within
    [minimumValue, maximumValue] exactly when the bounds are not both
    zero, in both Sliders. *)
Theorem shareValueToSeconds_within_iff
        (SP : Stepped.Props) (PP : Plain.Props) (s : State)
        (mn mx w tv tw : Q) :
  minimumValue s = Fin mn -> maximumValue s = Fin mx ->
  width s = Fin w -> thumbValue s = Fin tv ->
  Stepped.thumbWidth SP = Fin tw -> Plain.thumbWidth PP = Fin tw ->
  mn <= mx -> tw < w ->
  (within (Fin mn) (Fin mx) (Stepped.shareValueToSeconds SP s) <->
   ~ (mn == 0 /\ mx == 0)) /\
  (within (Fin mn) (Fin mx) (Plain.shareValueToSeconds PP s) <->
   ~ (mn == 0 /\ mx == 0)).
Proof.
  intros Hmn Hmx Hw Htv HtS HtP Hle Hlt.
  rewrite (@plain_shareValueToSeconds_eq SP PP s) by congruence.
  split; eapply shareValueToSeconds_within_iff_stepped; eauto.
Qed.

Lemma shareValueToSeconds_within_iff_witness :
  let s := set_thumbValue (Fin 30) (mounted (-5) 5 75) in
  (within (Fin (-5)) (Fin 5)
     (Stepped.shareValueToSeconds steppedDefaults s) <->
   ~ (-5 == 0 /\ 5 == 0)) /\
  (within (Fin (-5)) (Fin 5) (Plain.shareValueToSeconds plainDefaults s) <->
   ~ (-5 == 0 /\ 5 == 0)).
Proof.
  apply (@shareValueToSeconds_within_iff steppedDefaults plainDefaults
           (set_thumbValue (Fin 30) (mounted (-5) 5 75)) (-5) 5 75 30 15);
    try reflexivity; unfold Qle, Qlt; simpl; lia.
Defined.

(** X5: with bounds [0 <= minimumValue <= maximumValue] that are not both
    zero and a thumb narrower than the track, a thumb at the right end
    ([thumbValue = width - thumbWidth]) reports [maximumValue]; with
    [minimumValue] zero, a thumb at the left end ([thumbValue = 0])
    reports 0, the [minimumValue].  In both Sliders. *)
Theorem shareValueToSeconds_at_the_ends
        (SP : Stepped.Props) (PP : Plain.Props) (s : State)
        (mn mx w tw : Q) :
  minimumValue s = Fin mn -> maximumValue s = Fin mx -> width s = Fin w ->
  Stepped.thumbWidth SP = Fin tw -> Plain.thumbWidth PP = Fin tw ->
  0 <= mn -> mn <= mx -> 0 < mx + mn -> tw < w ->
  let left := set_thumbValue (Fin 0) s in
  let right := set_thumbValue (width s - Stepped.thumbWidth SP)%js s in
  (Stepped.shareValueToSeconds SP right === maximumValue s)%js = true /\
  (Plain.shareValueToSeconds PP right === maximumValue s)%js = true /\
  (mn == 0 ->
   (Stepped.shareValueToSeconds SP left === Fin 0)%js = true /\
   (Plain.shareValueToSeconds PP left === Fin 0)%js = true).
Proof.
  intros Hmn Hmx Hw HtS HtP H0 Hle HT Hlt. cbv zeta.
  rewrite !(@plain_shareValueToSeconds_eq SP PP) by congruence.
  assert (HW : ~ w + - tw == 0) by lra.
  assert (HT' : ~ mx + mn == 0) by lra.
  assert (L : mn == 0 ->
              (Stepped.shareValueToSeconds SP (set_thumbValue (Fin 0) s)
               === Fin 0)%js = true).
  { intros Z.
    unfold Stepped.shareValueToSeconds, Stepped.sliderTotalValue.
    cbn [thumbValue width minimumValue maximumValue set_thumbValue].
    rewrite Hmn, Hmx, Hw, HtS. cbn [Js.add Js.sub Js.neg].
    rewrite !div_Fin by assumption. cbn [Js.add].
    rewrite clamp_Fin_q. cbn [Js.mul]. rewrite clamp_Fin_q.
    apply seq_Fin.
    assert (E1 : qclamp (0 / (w + - tw) + mn / (mx + mn)) 0 1 == 0).
    { rewrite (@qclamp_compat _ 0).
      - apply qclamp_inside; lra.
      - rewrite Z. field. split; [lra | assumption]. }
    rewrite (@qclamp_compat _ 0).
    - rewrite qclamp_inside; lra.
    - rewrite E1. ring. }
  assert (R : (Stepped.shareValueToSeconds SP
                 (set_thumbValue (width s - Stepped.thumbWidth SP)%js s)
               === maximumValue s)%js = true).
  { unfold Stepped.shareValueToSeconds, Stepped.sliderTotalValue.
    cbn [thumbValue width minimumValue maximumValue set_thumbValue].
    rewrite Hmn, Hmx, Hw, HtS. cbn [Js.add Js.sub Js.neg].
    rewrite !div_Fin by assumption. cbn [Js.add].
    rewrite clamp_Fin_q. cbn [Js.mul]. rewrite clamp_Fin_q.
    apply seq_Fin.
    assert (Hr : 0 <= mn / (mx + mn)) by (apply Qle_shift_div_l; lra).
    assert (E1 : qclamp ((w + - tw) / (w + - tw) + mn / (mx + mn)) 0 1 == 1).
    { apply qclamp_above; [lra|].
      setoid_replace ((w + - tw) / (w + - tw)) with 1 by (field; assumption).
      lra. }
    rewrite (@qclamp_compat _ (mx + mn)).
    - apply qclamp_above; lra.
    - rewrite E1. ring. }
  auto.
Qed.

Lemma shareValueToSeconds_at_the_ends_witness :
  let s := mounted 0 20 75 in
  (Stepped.shareValueToSeconds steppedDefaults
     (set_thumbValue (Fin 75 - Fin 15)%js s) === Fin 20)%js = true /\
  (Plain.shareValueToSeconds plainDefaults
     (set_thumbValue (Fin 75 - Fin 15)%js s) === Fin 20)%js = true /\
  (Stepped.shareValueToSeconds steppedDefaults (set_thumbValue (Fin 0) s)
   === Fin 0)%js = true /\
  (Plain.shareValueToSeconds plainDefaults (set_thumbValue (Fin 0) s)
   === Fin 0)%js = true.
Proof.
  destruct (@shareValueToSeconds_at_the_ends steppedDefaults plainDefaults
              (mounted 0 20 75) 0 20 75 15
              eq_refl eq_refl eq_refl eq_refl eq_refl)
    as (H1 & H2 & H3); try (unfold Qle, Qlt; simpl; lia).
  destruct (H3 (Qeq_refl 0)) as [H4 H5].
  repeat split; assumption.
Defined.

(** X6: for finite shared values, a thumb narrower than the track and
    bounds of positive sum, [shareValueToSeconds] does not decrease when
    the thumb moves to the right, in both Sliders. *)
Theorem shareValueToSeconds_monotone
        (SP : Stepped.Props) (PP : Plain.Props) (s : State)
        (mn mx w tw tv1 tv2 : Q) :
  minimumValue s = Fin mn -> maximumValue s = Fin mx -> width s = Fin w ->
  Stepped.thumbWidth SP = Fin tw -> Plain.thumbWidth PP = Fin tw ->
  0 < mx + mn -> tw < w -> tv1 <= tv2 ->
  (Stepped.shareValueToSeconds SP (set_thumbValue (Fin tv1) s) <=
   Stepped.shareValueToSeconds SP (set_thumbValue (Fin tv2) s))%js = true /\
  (Plain.shareValueToSeconds PP (set_thumbValue (Fin tv1) s) <=
   Plain.shareValueToSeconds PP (set_thumbValue (Fin tv2) s))%js = true.
Proof.
  intros Hmn Hmx Hw HtS HtP HT Hlt Htv.
  rewrite !(@plain_shareValueToSeconds_eq SP PP) by congruence.
  assert (HW : ~ w + - tw == 0) by lra.
  assert (HT' : ~ mx + mn == 0) by lra.
  assert (M : (Stepped.shareValueToSeconds SP (set_thumbValue (Fin tv1) s) <=
               Stepped.shareValueToSeconds SP (set_thumbValue (Fin tv2) s))%js
              = true).
  { unfold Stepped.shareValueToSeconds, Stepped.sliderTotalValue.
    cbn [thumbValue width minimumValue maximumValue set_thumbValue].
    rewrite Hmn, Hmx, Hw, HtS. cbn [Js.add Js.sub Js.neg].
    rewrite !div_Fin by assumption. cbn [Js.add].
    rewrite !clamp_Fin_q. cbn [Js.mul]. rewrite !clamp_Fin_q.
    apply le_Fin, qclamp_mono.
    assert (Hd : tv1 / (w + - tw) <= tv2 / (w + - tw)).
    { unfold Qdiv. apply Qmult_le_compat_r; [assumption|].
      apply Qlt_le_weak, Qinv_lt_0_compat. lra. }
    pose proof (@qclamp_mono (tv1 / (w + - tw) + mn / (mx + mn))
                  (tv2 / (w + - tw) + mn / (mx + mn)) 0 1) as Hq.
    assert (Hq' := Hq ltac:(lra)).
    apply Qmult_le_compat_r; [exact Hq' | lra]. }
  auto.
Qed.

Lemma shareValueToSeconds_monotone_witness :
  let s := mounted 0 100 75 in
  (Stepped.shareValueToSeconds steppedDefaults (set_thumbValue (Fin 15) s) <=
   Stepped.shareValueToSeconds steppedDefaults (set_thumbValue (Fin 30) s))%js
  = true /\
  (Plain.shareValueToSeconds plainDefaults (set_thumbValue (Fin 15) s) <=
   Plain.shareValueToSeconds plainDefaults (set_thumbValue (Fin 30) s))%js
  = true.
Proof.
  apply (@shareValueToSeconds_monotone steppedDefaults plainDefaults
           (mounted 0 100 75) 0 100 75 15 15 30); try reflexivity;
    unfold Qle, Qlt; simpl; lia.
Defined.

(** ** Further properties: the derived styles *)

Lemma add_Fin_not_NaN (v : num) (q : Q) : v <> NaN -> (v + Fin q)%js <> NaN.
Proof. destruct v; cbn; congruence. Qed.

(** X7: the width [animatedSeekStyle] gives the filled part of the track
    lies within [0, width], for finite shared values and a track width
    that is not negative, in both Sliders. *)
Theorem seek_width_on_track
        (SP : Stepped.Props) (PP : Plain.Props) (s : State)
        (p mn mx w tw : Q) :
  progress s = Fin p -> minimumValue s = Fin mn -> maximumValue s = Fin mx ->
  width s = Fin w ->
  Stepped.thumbWidth SP = Fin tw -> Plain.thumbWidth PP = Fin tw ->
  0 <= w ->
  within (Fin 0) (Fin w) (Stepped.animatedSeekStyle SP s) /\
  within (Fin 0) (Fin w) (Plain.animatedSeekStyle PP s).
Proof.
  intros Hp Hmn Hmx Hw HtS HtP H0.
  unfold Stepped.animatedSeekStyle, Plain.animatedSeekStyle. cbv zeta.
  rewrite Hp, Hw, HtS, HtP.
  destruct (progressToValue_Fin_stepped SP s p Hmn Hmx Hw) as [r ->].
  destruct (progressToValue_Fin_plain PP s p Hmn Hmx Hw HtP) as [r' ->].
  rewrite div_Fin by (intros E; discriminate). cbn [Js.add].
  split; now apply clamp_Fin_within.
Qed.

Lemma seek_width_on_track_witness :
  let s := set_progress (Fin 250) (mounted 0 100 75) in
  within (Fin 0) (Fin 75) (Stepped.animatedSeekStyle steppedDefaults s) /\
  within (Fin 0) (Fin 75) (Plain.animatedSeekStyle plainDefaults s).
Proof.
  apply (@seek_width_on_track steppedDefaults plainDefaults
           (set_progress (Fin 250) (mounted 0 100 75)) 250 0 100 75 15);
    try reflexivity.
  unfold Qle; simpl; lia.
Defined.

(** X8: the offset [animatedBubbleStyle] gives the bubble lies within
    [bubbleWidth / 2, width - bubbleWidth / 2] whenever the bubble is no
    wider than the track and the position it starts from is a number: the
    [thumbValue] in the second Slider and in [src/slide.tsx] without
    stepping, the offset of the current mark with stepping. *)
Theorem bubble_offset_on_track
        (SP : Stepped.Props) (PP : Plain.Props) (s : State) (w tw bw : Q) :
  width s = Fin w ->
  Stepped.thumbWidth SP = Fin tw -> Plain.thumbWidth PP = Fin tw ->
  bw <= w ->
  let lo := Fin (bw / 2) in
  let hi := Fin (w - bw / 2) in
  (thumbValue s <> NaN ->
   within lo hi (Plain.animatedBubbleStyle PP (Fin bw) s)) /\
  (Stepped.stepping SP s = false -> thumbValue s <> NaN ->
   within lo hi (Stepped.animatedBubbleStyle SP (Fin bw) s)) /\
  (forall left : num,
      Stepped.stepping SP s = true ->
      nth_error (markLeftArr s) (thumbIndex s) = Some left -> left <> NaN ->
      within lo hi (Stepped.animatedBubbleStyle SP (Fin bw) s)).
Proof.
  intros Hw HtS HtP Hle. cbv zeta.
  assert (Hb : bw / 2 <= w - bw / 2).
  { setoid_replace (bw / 2) with (bw * (1 # 2)) by field. lra. }
  unfold Stepped.animatedBubbleStyle, Plain.animatedBubbleStyle. cbv zeta.
  rewrite Hw, HtS, HtP.
  rewrite !div_Fin by (intros E; discriminate).
  cbn [Js.sub Js.neg Js.add].
  split; [|split].
  - intros Hv. apply (clamp_within_number (v := (thumbValue s + Fin (tw / 2))%js));
      [now apply add_Fin_not_NaN | exact Hb].
  - intros -> Hv.
    apply (clamp_within_number (v := (thumbValue s + Fin (tw / 2))%js));
      [now apply add_Fin_not_NaN | exact Hb].
  - intros left -> -> Hl.
    apply (clamp_within_number (v := (left + Fin (tw / 2))%js));
      [now apply add_Fin_not_NaN | exact Hb].
Qed.

Lemma bubble_offset_on_track_witness :
  let s := set_thumbValue (Fin 60) (mounted 0 100 75) in
  within (Fin (40 / 2)) (Fin (75 - 40 / 2))
    (Plain.animatedBubbleStyle plainDefaults (Fin 40) s) /\
  within (Fin (40 / 2)) (Fin (75 - 40 / 2))
    (Stepped.animatedBubbleStyle steppedDefaults (Fin 40) s).
Proof.
  destruct (@bubble_offset_on_track steppedDefaults plainDefaults
              (set_thumbValue (Fin 60) (mounted 0 100 75)) 75 15 40
              eq_refl eq_refl eq_refl) as (H1 & H2 & _).
  - unfold Qle; simpl; lia.
  - split; [apply H1 | apply H2]; try reflexivity; discriminate.
Defined.

(** X9: the width [animatedCacheXStyle] gives the cache bar is 0 without a
    [cache] shared value, and for a finite cache value in
    [0, maximumValue + minimumValue], bounds of positive sum and a track
    width that is not negative it lies within [0, width], in both
    Sliders. *)
Theorem cache_width_on_track
        (SP : Stepped.Props) (PP : Plain.Props) (s : State) (c mn mx w : Q) :
  minimumValue s = Fin mn -> maximumValue s = Fin mx -> width s = Fin w ->
  0 <= c -> c <= mx + mn -> 0 < mx + mn -> 0 <= w ->
  Stepped.animatedCacheXStyle None s = Fin 0 /\
  Plain.animatedCacheXStyle None s = Fin 0 /\
  within (Fin 0) (Fin w) (Stepped.animatedCacheXStyle (Some (Fin c)) s) /\
  within (Fin 0) (Fin w) (Plain.animatedCacheXStyle (Some (Fin c)) s).
Proof.
  intros Hmn Hmx Hw Hc0 Hc1 HT H0.
  split; [reflexivity|]. split; [reflexivity|].
  unfold Stepped.animatedCacheXStyle, Plain.animatedCacheXStyle,
    Stepped.sliderTotalValue, Plain.sliderTotalValue.
  rewrite Hmn, Hmx, Hw. cbn [Js.add].
  destruct (truthy (Fin c)).
  - rewrite div_Fin by lra. cbn [Js.mul].
    assert (Hr : 0 <= c / (mx + mn) /\ c / (mx + mn) <= 1).
    { split; [apply Qle_shift_div_l | apply Qle_shift_div_r]; lra. }
    set (r := c / (mx + mn)) in *.
    assert (within (Fin 0) (Fin w) (Fin (r * w)))
      by (apply within_Fin; split; nra).
    auto.
  - assert (within (Fin 0) (Fin w) (Fin 0)) by (apply within_Fin; lra).
    auto.
Qed.

Lemma cache_width_on_track_witness :
  let s := mounted 0 100 75 in
  Stepped.animatedCacheXStyle None s = Fin 0 /\
  Plain.animatedCacheXStyle None s = Fin 0 /\
  within (Fin 0) (Fin 75) (Stepped.animatedCacheXStyle (Some (Fin 50)) s) /\
  within (Fin 0) (Fin 75) (Plain.animatedCacheXStyle (Some (Fin 50)) s).
Proof.
  apply (@cache_width_on_track steppedDefaults plainDefaults
           (mounted 0 100 75) 50 0 100 75); try reflexivity;
    unfold Qle, Qlt; simpl; lia.
Defined.

(** X10: the reaction that recomputes [thumbValue] from [progress] leaves
    it alone while scrubbing and when [step] is set; otherwise, for finite
    shared values, bounds not summing to zero and a thumb no wider than the
    track, the value it stores lies within [0, width - thumbWidth]. *)
Theorem thumbValue_reaction_on_track
        (P : Stepped.Props) (s : State) (p mn mx w tw : Q) :
  progress s = Fin p -> minimumValue s = Fin mn -> maximumValue s = Fin mx ->
  width s = Fin w -> Stepped.thumbWidth P = Fin tw ->
  ~ mn + mx == 0 -> tw <= w ->
  (Stepped.hasIsScrubbing P && isScrubbing s = true ->
   Stepped.thumbValueData P s = None) /\
  ((exists n, Stepped.step P = Some (S n)) ->
   Stepped.thumbValueData P s = None) /\
  (Stepped.hasIsScrubbing P && isScrubbing s = false ->
   ~ (exists n, Stepped.step P = Some (S n)) ->
   exists v, Stepped.thumbValueData P s = Some v /\
             within (Fin 0) (Fin (w - tw)) v).
Proof.
  intros Hp Hmn Hmx Hw Htw HT Hle. unfold Stepped.thumbValueData.
  split; [intros ->; reflexivity|]. split.
  - intros [n ->]. now destruct (_ && _).
  - intros -> Hstep. rewrite Hp, Hmn, Hmx, Hw, Htw.
    cbn [Js.add Js.sub Js.neg]. rewrite div_Fin by assumption.
    cbn [Js.mul]. cbv zeta.
    assert (H0 : 0 <= w + - tw) by lra.
    destruct (Stepped.step P) as [[|n]|];
      try (eexists; split; [reflexivity | now apply clamp_Fin_within]).
    exfalso. apply Hstep. eauto.
Qed.

Lemma thumbValue_reaction_on_track_witness :
  let s := set_progress (Fin 250) (mounted 0 100 75) in
  exists v, Stepped.thumbValueData steppedDefaults s = Some v /\
            within (Fin 0) (Fin (75 - 15)) v.
Proof.
  destruct (@thumbValue_reaction_on_track steppedDefaults
              (set_progress (Fin 250) (mounted 0 100 75)) 250 0 100 75 15
              eq_refl eq_refl eq_refl eq_refl eq_refl) as (_ & _ & H).
  - intros E; vm_compute in E; discriminate.
  - unfold Qle; simpl; lia.
  - apply H; [reflexivity|]. intros [n E]. discriminate.
Defined.

(** ** Further properties: what a sequence of events keeps *)

Lemma state_deliver_cons (h : Gesture -> Worklet unit) (e : Gesture)
      (es : list Gesture) (s : State) :
  state_of (deliver h (e :: es) s) = state_of (deliver h es (state_of (h e s))).
Proof. cbn [deliver]. now rewrite state_bind. Qed.

Lemma calls_deliver_cons (h : Gesture -> Worklet unit) (e : Gesture)
      (es : list Gesture) (s : State) :
  calls_of (deliver h (e :: es) s) =
  calls_of (h e s) ++ calls_of (deliver h es (state_of (h e s))).
Proof. cbn [deliver]. now rewrite calls_bind. Qed.

Lemma state_deliver_app (h : Gesture -> Worklet unit) (es es' : list Gesture) :
  forall s : State,
    state_of (deliver h (es ++ es') s) =
    state_of (deliver h es' (state_of (deliver h es s))).
Proof.
  induction es as [|e es IH]; intros s; [reflexivity|].
  cbn [app]. now rewrite !state_deliver_cons, IH.
Qed.

Lemma calls_deliver_app (h : Gesture -> Worklet unit) (es es' : list Gesture) :
  forall s : State,
    calls_of (deliver h (es ++ es') s) =
    calls_of (deliver h es s) ++
    calls_of (deliver h es' (state_of (deliver h es s))).
Proof.
  induction es as [|e es IH]; intros s; [reflexivity|].
  cbn [app]. rewrite !calls_deliver_cons, state_deliver_cons, IH.
  now rewrite app_assoc.
Qed.

Lemma state_deliver_nil (h : Gesture -> Worklet unit) (s : State) :
  state_of (deliver h [] s) = s.
Proof. reflexivity. Qed.

Lemma state_deliver_one (h : Gesture -> Worklet unit) (e : Gesture)
      (s : State) :
  state_of (deliver h [e] s) = state_of (h e s).
Proof. now rewrite state_deliver_cons. Qed.

(** An invariant of every handler is an invariant of every sequence of
    events. *)
Lemma deliver_invariant (h : Gesture -> Worklet unit) (I : State -> Prop)
      (ok : Gesture -> Prop) :
  (forall e s, ok e -> I s -> I (state_of (h e s))) ->
  forall es s, Forall ok es -> I s -> I (state_of (deliver h es s)).
Proof.
  intros Hh es. induction es as [|e es IH]; intros s Hes Hs; [exact Hs|].
  inversion Hes; subst. rewrite state_deliver_cons. apply IH; auto.
Qed.

Lemma stepped_roundOnRelease_keeps {A} (f : State -> A) (P : Stepped.Props) :
  (forall v s, f (set_progress v s) = f s) ->
  keeps f (Stepped.roundOnRelease P).
Proof.
  intros H. unfold Stepped.roundOnRelease.
  repeat match goal with
         | |- keeps _ (modify (set_progress _)) =>
             apply keeps_modify; intros ?; apply H
         | _ => keeps_step
         end.
Qed.

Lemma plain_roundOnRelease_keeps {A} (f : State -> A) (P : Plain.Props) :
  (forall v s, f (set_progress v s) = f s) ->
  keeps f (Plain.roundOnRelease P).
Proof.
  intros H. unfold Plain.roundOnRelease.
  repeat match goal with
         | |- keeps _ (modify (set_progress _)) =>
             apply keeps_modify; intros ?; apply H
         | _ => keeps_step
         end.
Qed.

(** What a handler of [src/slide.tsx] does to [thumbValue]: nothing, or
    the clamped position of the event. *)
Lemma stepped_handle_thumbValue (P : Stepped.Props) (e : Gesture) (s : State) :
  thumbValue (state_of (steppedHandle P e s)) = thumbValue s \/
  exists x, positionOf e = Some x /\
            thumbValue (state_of (steppedHandle P e s)) =
            clamp x (Fin 0) (width s - Stepped.thumbWidth P).
Proof.
  destruct e as [|x|x|x fin]; cbn [steppedHandle].
  - left. revert s. change (keeps thumbValue (Stepped.onGestureEvent_onStart P)).
    unfold Stepped.onGestureEvent_onStart. repeat keeps_step.
  - destruct (Stepped.disable P) eqn:D.
    + left. unfold Stepped.onGestureEvent_onUpdate. now rewrite D.
    + right. exists x. split; [reflexivity|].
      now apply stepped_onGestureEvent_onUpdate_thumbValue.
  - left. revert s. change (keeps thumbValue (Stepped.onGestureEvent_onEnd P x)).
    unfold Stepped.onGestureEvent_onEnd, Stepped.roundOnRelease.
    repeat keeps_step.
  - unfold Stepped.onSingleTapEvent_onEnd.
    rewrite state_bind.
    assert (E : state_of (when (Stepped.onTap P) (runOnJS OnTap) s) = s)
      by (destruct (Stepped.onTap P); reflexivity).
    rewrite E.
    destruct (Stepped.disable P || Stepped.disableTapEvent P);
      [left; reflexivity|].
    rewrite state_bind.
    assert (K : keeps thumbValue
                  (when (Stepped.hasIsScrubbing P) (modify (set_isScrubbing true));;
                   modify (set_bubbleOpacity (Fin 0));;
                   Stepped.roundOnRelease P)).
    { unfold Stepped.roundOnRelease. repeat keeps_step. }
    destruct fin; cbn [when]; [right | left; rewrite K; reflexivity].
    exists x. split; [reflexivity|]. rewrite K.
    apply (proj2 (stepped_onActiveSlider_values P s x)).
Qed.

Lemma plain_handle_thumbValue (P : Plain.Props) (e : Gesture) (s : State) :
  thumbValue (state_of (plainHandle P e s)) = thumbValue s \/
  exists x, positionOf e = Some x /\
            thumbValue (state_of (plainHandle P e s)) =
            clamp x (Fin 0) (width s - Plain.thumbWidth P).
Proof.
  destruct e as [|x|x|x fin]; cbn [plainHandle].
  - left. revert s. change (keeps thumbValue (Plain.onGestureEvent_onStart P)).
    unfold Plain.onGestureEvent_onStart. repeat keeps_step.
  - destruct (Plain.disable P) eqn:D.
    + left. unfold Plain.onGestureEvent_onUpdate. now rewrite D.
    + right. exists x. split; [reflexivity|].
      now apply plain_onGestureEvent_onUpdate_thumbValue.
  - left. revert s. change (keeps thumbValue (Plain.onGestureEvent_onEnd P x)).
    unfold Plain.onGestureEvent_onEnd, Plain.roundOnRelease.
    repeat keeps_step.
  - unfold Plain.onSingleTapEvent_onEnd.
    rewrite state_bind.
    assert (E : state_of (when (Plain.onTap P) (runOnJS OnTap) s) = s)
      by (destruct (Plain.onTap P); reflexivity).
    rewrite E.
    destruct (Plain.disable P || Plain.disableTapEvent P);
      [left; reflexivity|].
    rewrite state_bind.
    assert (K : keeps thumbValue
                  (when (Plain.hasIsScrubbing P) (modify (set_isScrubbing true));;
                   modify (set_bubbleOpacity (Fin 0));;
                   Plain.roundOnRelease P)).
    { unfold Plain.roundOnRelease. repeat keeps_step. }
    destruct fin; cbn [when]; [right | left; rewrite K; reflexivity].
    exists x. split; [reflexivity|]. rewrite K.
    apply (proj2 (plain_onActiveSlider_values P s x)).
Qed.

(** ** Further properties: one drag update, in full *)

(** Runs a worklet whose branches are decided. *)
Ltac run_fast :=
  cbv [state_of calls_of value_of bind gets modify when ret runOnJS
       fst snd app negb orb andb
       progress minimumValue maximumValue width thumbValue bubbleOpacity
       prevX markLeftArr thumbIndex isTriggedHaptic isScrubbing
       panDirectionValue
       set_progress set_thumbValue set_bubbleOpacity set_prevX
       set_markLeftArr set_isTriggedHaptic set_isScrubbing
       set_panDirectionValue].

Lemma stepped_onActiveSlider_effects (P : Stepped.Props) (s : State) (x : num) :
  let r := Stepped.onActiveSlider P x s in
  let e := atEdge (width s) (Stepped.thumbWidth P) x in
  let armed := match Stepped.hapticMode P with
               | BOTH => Stepped.onHapticFeedback P
               | _ => false
               end in
  isTriggedHaptic (state_of r) = e && (isTriggedHaptic s || armed) /\
  isScrubbing (state_of r) = Stepped.hasIsScrubbing P || isScrubbing s /\
  calls_of r =
    (if e && negb (isTriggedHaptic s) && armed then [OnHapticFeedback] else [])
    ++ (if Stepped.onValueChange P
        then [OnValueChange
                (Stepped.shareValueToSeconds P
                   (set_thumbValue
                      (clamp x (Fin 0) (width s - Stepped.thumbWidth P)) s))]
        else [])
    ++ [SetMarkStyles].
Proof.
  cbv zeta. unfold Stepped.onActiveSlider, Stepped.onSlideAcitve, atEdge,
    Stepped.shareValueToSeconds, Stepped.sliderTotalValue.
  destruct s as [p mn mx w tv bo px mla ti trig scr pd].
  destruct (Stepped.hasIsScrubbing P), (Stepped.disableTrackFollow P),
    (Stepped.onValueChange P), (Stepped.hapticMode P),
    (Stepped.onHapticFeedback P), trig;
    run_fast;
    destruct (x <= Fin 0)%js, (x >= w - Stepped.thumbWidth P)%js;
    run_fast; repeat split; reflexivity.
Qed.

Lemma plain_onActiveSlider_effects (P : Plain.Props) (s : State) (x : num) :
  let r := Plain.onActiveSlider P x s in
  let e := atEdge (width s) (Plain.thumbWidth P) x in
  let armed := match Plain.hapticMode P with
               | BOTH => Plain.onHapticFeedback P
               | _ => false
               end in
  isTriggedHaptic (state_of r) = e && (isTriggedHaptic s || armed) /\
  isScrubbing (state_of r) = Plain.hasIsScrubbing P || isScrubbing s /\
  calls_of r =
    (if e && negb (isTriggedHaptic s) && armed then [OnHapticFeedback] else [])
    ++ (if Plain.onValueChange P
        then [OnValueChange
                (Plain.shareValueToSeconds P
                   (set_thumbValue
                      (clamp x (Fin 0) (width s - Plain.thumbWidth P)) s))]
        else []).
Proof.
  cbv zeta. unfold Plain.onActiveSlider, Plain.onSlideAcitve, atEdge,
    Plain.shareValueToSeconds, Plain.sliderTotalValue.
  destruct s as [p mn mx w tv bo px mla ti trig scr pd].
  destruct (Plain.hasIsScrubbing P), (Plain.disableTrackFollow P),
    (Plain.onValueChange P), (Plain.hapticMode P),
    (Plain.onHapticFeedback P), trig;
    run_fast;
    destruct (x <= Fin 0)%js, (x >= w - Plain.thumbWidth P)%js;
    run_fast; repeat split; reflexivity.
Qed.

Lemma stepped_onActiveSlider_keeps {A} (f : State -> A)
      (P : Stepped.Props) (x : num) :
  (forall v s, f (set_progress v s) = f s) ->
  (forall v s, f (set_thumbValue v s) = f s) ->
  (forall v s, f (set_isTriggedHaptic v s) = f s) ->
  (forall v s, f (set_isScrubbing v s) = f s) ->
  keeps f (Stepped.onActiveSlider P x).
Proof.
  intros H1 H2 H3 H4. unfold Stepped.onActiveSlider, Stepped.onSlideAcitve.
  repeat match goal with
         | |- keeps _ (modify (set_progress _)) =>
             apply keeps_modify; intros ?; apply H1
         | |- keeps _ (modify (set_thumbValue _)) =>
             apply keeps_modify; intros ?; apply H2
         | |- keeps _ (modify (set_isTriggedHaptic _)) =>
             apply keeps_modify; intros ?; apply H3
         | |- keeps _ (modify (set_isScrubbing _)) =>
             apply keeps_modify; intros ?; apply H4
         | _ => keeps_step
         end.
Qed.

Lemma plain_onActiveSlider_keeps {A} (f : State -> A)
      (P : Plain.Props) (x : num) :
  (forall v s, f (set_progress v s) = f s) ->
  (forall v s, f (set_thumbValue v s) = f s) ->
  (forall v s, f (set_isTriggedHaptic v s) = f s) ->
  (forall v s, f (set_isScrubbing v s) = f s) ->
  keeps f (Plain.onActiveSlider P x).
Proof.
  intros H1 H2 H3 H4. unfold Plain.onActiveSlider, Plain.onSlideAcitve.
  repeat match goal with
         | |- keeps _ (modify (set_progress _)) =>
             apply keeps_modify; intros ?; apply H1
         | |- keeps _ (modify (set_thumbValue _)) =>
             apply keeps_modify; intros ?; apply H2
         | |- keeps _ (modify (set_isTriggedHaptic _)) =>
             apply keeps_modify; intros ?; apply H3
         | |- keeps _ (modify (set_isScrubbing _)) =>
             apply keeps_modify; intros ?; apply H4
         | _ => keeps_step
         end.
Qed.

(** ** Further properties: the gesture state *)

Lemma stepped_handle_gesture_state (P : Stepped.Props) (e : Gesture) (s : State) :
  let s' := state_of (steppedHandle P e s) in
  let runs := steppedRuns P e in
  isScrubbing s' = isScrubbing s || (Stepped.hasIsScrubbing P && runs) /\
  bubbleOpacity s' =
    (if runs then
       match e with
       | PanStart => bubbleOpacity s
       | PanUpdate _ => Fin 1
       | PanEnd _ | Tap _ _ => Fin 0
       end
     else bubbleOpacity s) /\
  panDirectionValue s' =
    (if runs && Stepped.hasPanDirectionValue P then
       match e with
       | PanStart => START
       | PanUpdate x => if (prevX s - x > Fin 0)%js then LEFT else RIGHT
       | PanEnd _ => END
       | Tap _ _ => panDirectionValue s
       end
     else panDirectionValue s) /\
  prevX s' =
    (if runs && Stepped.hasPanDirectionValue P then
       match e with
       | PanStart => Fin 0
       | PanUpdate x => x
       | _ => prevX s
       end
     else prevX s).
Proof.
  cbv zeta. destruct e as [|x|x|x fin]; cbn [steppedHandle steppedRuns].
  - unfold Stepped.onGestureEvent_onStart.
    destruct s as [p mn mx w tv bo px mla ti trig scr pd].
    destruct (Stepped.disable P); cbn [negb andb];
      [rewrite ?andb_false_r, ?orb_false_r; repeat split; reflexivity|].
    destruct scr, (Stepped.hasIsScrubbing P), (Stepped.hasPanDirectionValue P),
      (Stepped.onSlidingStart P); run_fast; repeat split; reflexivity.
  - unfold Stepped.onGestureEvent_onUpdate.
    destruct (Stepped.disable P); cbn [negb andb];
      [rewrite ?andb_false_r, ?orb_false_r; repeat split; reflexivity|].
    rewrite !state_bind.
    rewrite (proj1 (proj2 (stepped_onActiveSlider_effects P _ x))).
    rewrite !(@stepped_onActiveSlider_keeps _ bubbleOpacity),
            !(@stepped_onActiveSlider_keeps _ panDirectionValue),
            !(@stepped_onActiveSlider_keeps _ prevX) by reflexivity.
    destruct s as [p mn mx w tv bo px mla ti trig scr pd].
    destruct scr, (Stepped.hasIsScrubbing P), (Stepped.hasPanDirectionValue P);
      run_fast; repeat split; reflexivity.
  - unfold Stepped.onGestureEvent_onEnd.
    destruct (Stepped.disable P); cbn [negb andb];
      [rewrite ?andb_false_r, ?orb_false_r; repeat split; reflexivity|].
    rewrite !state_bind.
    rewrite !(@stepped_roundOnRelease_keeps _ isScrubbing),
            !(@stepped_roundOnRelease_keeps _ bubbleOpacity),
            !(@stepped_roundOnRelease_keeps _ panDirectionValue),
            !(@stepped_roundOnRelease_keeps _ prevX) by reflexivity.
    destruct s as [p mn mx w tv bo px mla ti trig scr pd].
    destruct scr, (Stepped.hasIsScrubbing P), (Stepped.hasPanDirectionValue P),
      (Stepped.disableTrackFollow P);
      run_fast; repeat split; reflexivity.
  - unfold Stepped.onSingleTapEvent_onEnd.
    rewrite state_bind.
    assert (E : state_of (when (Stepped.onTap P) (runOnJS OnTap) s) = s)
      by (destruct (Stepped.onTap P); reflexivity).
    rewrite E.
    destruct (Stepped.disable P || Stepped.disableTapEvent P); cbn [negb andb];
      [rewrite ?andb_false_r, ?orb_false_r; repeat split; reflexivity|].
    rewrite !state_bind.
    rewrite !(@stepped_roundOnRelease_keeps _ isScrubbing),
            !(@stepped_roundOnRelease_keeps _ bubbleOpacity),
            !(@stepped_roundOnRelease_keeps _ panDirectionValue),
            !(@stepped_roundOnRelease_keeps _ prevX) by reflexivity.
    destruct fin; cbn [when].
    + pose proof (proj1 (proj2 (stepped_onActiveSlider_effects P s x))) as HS.
      pose proof (@stepped_onActiveSlider_keeps _ panDirectionValue P x
                    ltac:(reflexivity) ltac:(reflexivity)
                    ltac:(reflexivity) ltac:(reflexivity) s) as HD.
      pose proof (@stepped_onActiveSlider_keeps _ prevX P x
                    ltac:(reflexivity) ltac:(reflexivity)
                    ltac:(reflexivity) ltac:(reflexivity) s) as HX.
      cbv zeta in HS.
      destruct (state_of (Stepped.onActiveSlider P x s))
        as [p1 mn1 mx1 w1 tv1 bo1 px1 mla1 ti1 trig1 scr1 pd1].
      cbn [isScrubbing panDirectionValue prevX] in HS, HD, HX. subst.
      destruct (isScrubbing s), (Stepped.hasIsScrubbing P),
        (Stepped.hasPanDirectionValue P);
        run_fast; repeat split; reflexivity.
    + destruct s as [p mn mx w tv bo px mla ti trig scr pd].
      destruct scr, (Stepped.hasIsScrubbing P), (Stepped.hasPanDirectionValue P);
        run_fast; repeat split; reflexivity.
Qed.

Lemma plain_handle_gesture_state (P : Plain.Props) (e : Gesture) (s : State) :
  let s' := state_of (plainHandle P e s) in
  let runs := plainRuns P e in
  isScrubbing s' = isScrubbing s || (Plain.hasIsScrubbing P && runs) /\
  bubbleOpacity s' =
    (if runs then
       match e with
       | PanStart => bubbleOpacity s
       | PanUpdate _ => Fin 1
       | PanEnd _ | Tap _ _ => Fin 0
       end
     else bubbleOpacity s) /\
  panDirectionValue s' =
    (if runs && Plain.hasPanDirectionValue P then
       match e with
       | PanStart => START
       | PanUpdate x => if (prevX s - x > Fin 0)%js then LEFT else RIGHT
       | PanEnd _ => END
       | Tap _ _ => panDirectionValue s
       end
     else panDirectionValue s) /\
  prevX s' =
    (if runs && Plain.hasPanDirectionValue P then
       match e with
       | PanStart => Fin 0
       | PanUpdate x => x
       | _ => prevX s
       end
     else prevX s).
Proof.
  cbv zeta. destruct e as [|x|x|x fin]; cbn [plainHandle plainRuns].
  - unfold Plain.onGestureEvent_onStart.
    destruct s as [p mn mx w tv bo px mla ti trig scr pd].
    destruct (Plain.disable P); cbn [negb andb];
      [rewrite ?andb_false_r, ?orb_false_r; repeat split; reflexivity|].
    destruct scr, (Plain.hasIsScrubbing P), (Plain.hasPanDirectionValue P),
      (Plain.onSlidingStart P); run_fast; repeat split; reflexivity.
  - unfold Plain.onGestureEvent_onUpdate.
    destruct (Plain.disable P); cbn [negb andb];
      [rewrite ?andb_false_r, ?orb_false_r; repeat split; reflexivity|].
    rewrite !state_bind.
    rewrite (proj1 (proj2 (plain_onActiveSlider_effects P _ x))).
    rewrite !(@plain_onActiveSlider_keeps _ bubbleOpacity),
            !(@plain_onActiveSlider_keeps _ panDirectionValue),
            !(@plain_onActiveSlider_keeps _ prevX) by reflexivity.
    destruct s as [p mn mx w tv bo px mla ti trig scr pd].
    destruct scr, (Plain.hasIsScrubbing P), (Plain.hasPanDirectionValue P);
      run_fast; repeat split; reflexivity.
  - unfold Plain.onGestureEvent_onEnd.
    destruct (Plain.disable P); cbn [negb andb];
      [rewrite ?andb_false_r, ?orb_false_r; repeat split; reflexivity|].
    rewrite !state_bind.
    rewrite !(@plain_roundOnRelease_keeps _ isScrubbing),
            !(@plain_roundOnRelease_keeps _ bubbleOpacity),
            !(@plain_roundOnRelease_keeps _ panDirectionValue),
            !(@plain_roundOnRelease_keeps _ prevX) by reflexivity.
    destruct s as [p mn mx w tv bo px mla ti trig scr pd].
    destruct scr, (Plain.hasIsScrubbing P), (Plain.hasPanDirectionValue P),
      (Plain.disableTrackFollow P);
      run_fast; repeat split; reflexivity.
  - unfold Plain.onSingleTapEvent_onEnd.
    rewrite state_bind.
    assert (E : state_of (when (Plain.onTap P) (runOnJS OnTap) s) = s)
      by (destruct (Plain.onTap P); reflexivity).
    rewrite E.
    destruct (Plain.disable P || Plain.disableTapEvent P); cbn [negb andb];
      [rewrite ?andb_false_r, ?orb_false_r; repeat split; reflexivity|].
    rewrite !state_bind.
    rewrite !(@plain_roundOnRelease_keeps _ isScrubbing),
            !(@plain_roundOnRelease_keeps _ bubbleOpacity),
            !(@plain_roundOnRelease_keeps _ panDirectionValue),
            !(@plain_roundOnRelease_keeps _ prevX) by reflexivity.
    destruct fin; cbn [when].
    + pose proof (proj1 (proj2 (plain_onActiveSlider_effects P s x))) as HS.
      pose proof (@plain_onActiveSlider_keeps _ panDirectionValue P x
                    ltac:(reflexivity) ltac:(reflexivity)
                    ltac:(reflexivity) ltac:(reflexivity) s) as HD.
      pose proof (@plain_onActiveSlider_keeps _ prevX P x
                    ltac:(reflexivity) ltac:(reflexivity)
                    ltac:(reflexivity) ltac:(reflexivity) s) as HX.
      cbv zeta in HS.
      destruct (state_of (Plain.onActiveSlider P x s))
        as [p1 mn1 mx1 w1 tv1 bo1 px1 mla1 ti1 trig1 scr1 pd1].
      cbn [isScrubbing panDirectionValue prevX] in HS, HD, HX. subst.
      destruct (isScrubbing s), (Plain.hasIsScrubbing P),
        (Plain.hasPanDirectionValue P);
        run_fast; repeat split; reflexivity.
    + destruct s as [p mn mx w tv bo px mla ti trig scr pd].
      destruct scr, (Plain.hasIsScrubbing P), (Plain.hasPanDirectionValue P);
        run_fast; repeat split; reflexivity.
Qed.

(** X12: no handler ever sets [isScrubbing] back to false.  In both
    Sliders it stays true through every sequence of events once it is
    true, and on an enabled Slider that is given the shared value even the
    end of a pan leaves it true. *)
Theorem isScrubbing_never_reset
        (SP : Stepped.Props) (PP : Plain.Props) (s : State) :
  (forall es,
      isScrubbing s = true ->
      isScrubbing (state_of (deliver (steppedHandle SP) es s)) = true /\
      isScrubbing (state_of (deliver (plainHandle PP) es s)) = true) /\
  (forall x,
      Stepped.hasIsScrubbing SP = true -> Stepped.disable SP = false ->
      isScrubbing (state_of (steppedHandle SP (PanEnd x) s)) = true) /\
  (forall x,
      Plain.hasIsScrubbing PP = true -> Plain.disable PP = false ->
      isScrubbing (state_of (plainHandle PP (PanEnd x) s)) = true).
Proof.
  split; [|split].
  - intros es Hs. split.
    + apply (@deliver_invariant (steppedHandle SP)
               (fun s' => isScrubbing s' = true) (fun _ => True)); auto.
      * intros e s1 _ H1.
        rewrite (proj1 (stepped_handle_gesture_state SP e s1)), H1.
        reflexivity.
      * apply Forall_forall. auto.
    + apply (@deliver_invariant (plainHandle PP)
               (fun s' => isScrubbing s' = true) (fun _ => True)); auto.
      * intros e s1 _ H1.
        rewrite (proj1 (plain_handle_gesture_state PP e s1)), H1.
        reflexivity.
      * apply Forall_forall. auto.
  - intros x H D.
    rewrite (proj1 (stepped_handle_gesture_state SP (PanEnd x) s)).
    cbn [steppedRuns]. rewrite H, D. apply orb_true_r.
  - intros x H D.
    rewrite (proj1 (plain_handle_gesture_state PP (PanEnd x) s)).
    cbn [plainRuns]. rewrite H, D. apply orb_true_r.
Qed.

Lemma isScrubbing_never_reset_witness :
  let P := Stepped.mkProps false false false NONE None (Fin 15) (Fin 4)
             true false true true true true true in
  isScrubbing (state_of (steppedHandle P (PanEnd (Fin 30))
                           (mounted 0 100 75))) = true.
Proof.
  exact (proj1 (proj2 (@isScrubbing_never_reset
                         (Stepped.mkProps false false false NONE None (Fin 15)
                            (Fin 4) true false true true true true true)
                         plainDefaults (mounted 0 100 75)))
           (Fin 30) eq_refl eq_refl).
Defined.

(** X13: on an enabled Slider of either kind the bubble is shown by every
    drag update and hidden by every release: [bubbleOpacity] is driven to
    1 after a pan start followed by at least one update, and to 0 after a
    complete pan and after a tap that is not disabled. *)
Theorem bubble_shown_while_dragging
        (SP : Stepped.Props) (PP : Plain.Props)
        (s : State) (xs : list num) (x : num) (fin : bool) :
  Stepped.disable SP = false -> Plain.disable PP = false ->
  (bubbleOpacity (state_of (deliver (steppedHandle SP)
                              (PanStart :: map PanUpdate (xs ++ [x])) s))
   = Fin 1 /\
   bubbleOpacity (state_of (deliver (steppedHandle SP) (panGesture xs x) s))
   = Fin 0 /\
   (Stepped.disableTapEvent SP = false ->
    bubbleOpacity (state_of (steppedHandle SP (Tap x fin) s)) = Fin 0)) /\
  (bubbleOpacity (state_of (deliver (plainHandle PP)
                              (PanStart :: map PanUpdate (xs ++ [x])) s))
   = Fin 1 /\
   bubbleOpacity (state_of (deliver (plainHandle PP) (panGesture xs x) s))
   = Fin 0 /\
   (Plain.disableTapEvent PP = false ->
    bubbleOpacity (state_of (plainHandle PP (Tap x fin) s)) = Fin 0)).
Proof.
  intros DS DP. unfold panGesture.
  rewrite map_app. cbn [map].
  change (PanStart :: map PanUpdate xs ++ [PanUpdate x])
    with ((PanStart :: map PanUpdate xs) ++ [PanUpdate x]).
  change (PanStart :: map PanUpdate xs ++ [PanEnd x])
    with ((PanStart :: map PanUpdate xs) ++ [PanEnd x]).
  rewrite !state_deliver_app, !state_deliver_one.
  repeat split.
  - rewrite (proj1 (proj2 (stepped_handle_gesture_state SP (PanUpdate x) _))).
    cbn [steppedRuns]. now rewrite DS.
  - rewrite (proj1 (proj2 (stepped_handle_gesture_state SP (PanEnd x) _))).
    cbn [steppedRuns]. now rewrite DS.
  - intros T.
    rewrite (proj1 (proj2 (stepped_handle_gesture_state SP (Tap x fin) _))).
    cbn [steppedRuns]. now rewrite DS, T.
  - rewrite (proj1 (proj2 (plain_handle_gesture_state PP (PanUpdate x) _))).
    cbn [plainRuns]. now rewrite DP.
  - rewrite (proj1 (proj2 (plain_handle_gesture_state PP (PanEnd x) _))).
    cbn [plainRuns]. now rewrite DP.
  - intros T.
    rewrite (proj1 (proj2 (plain_handle_gesture_state PP (Tap x fin) _))).
    cbn [plainRuns]. now rewrite DP, T.
Qed.

Lemma bubble_shown_while_dragging_witness :
  let s := mounted 0 100 75 in
  bubbleOpacity (state_of (deliver (steppedHandle steppedDefaults)
                             (PanStart :: map PanUpdate ([Fin 15] ++ [Fin 30]))
                             s)) = Fin 1 /\
  bubbleOpacity (state_of (deliver (steppedHandle steppedDefaults)
                             (panGesture [Fin 15] (Fin 30)) s)) = Fin 0.
Proof.
  destruct (@bubble_shown_while_dragging steppedDefaults plainDefaults
              (mounted 0 100 75) [Fin 15] (Fin 30) true eq_refl eq_refl)
    as [(H1 & H2 & _) _].
  split; assumption.
Defined.

(** X14: with a [panDirectionValue] shared value, on an enabled Slider of
    either kind, an update reports LEFT exactly when its position is below
    the position of the update before it, and RIGHT otherwise; the first
    update after a pan start is compared with 0, not with the position of
    the touch; the pan end reports END. *)
Theorem pan_direction_follows_positions
        (SP : Stepped.Props) (PP : Plain.Props) (s : State) (x1 x2 : Q) :
  Stepped.disable SP = false -> Stepped.hasPanDirectionValue SP = true ->
  Plain.disable PP = false -> Plain.hasPanDirectionValue PP = true ->
  let after (h : Gesture -> Worklet unit) (es : list Gesture) :=
    panDirectionValue (state_of (deliver h es s)) in
  let direction (a b : Q) :=
    if Qle_bool a b then RIGHT else LEFT in
  (after (steppedHandle SP) [PanUpdate (Fin x1); PanUpdate (Fin x2)]
   = direction x1 x2 /\
   after (steppedHandle SP) [PanStart; PanUpdate (Fin x1)] = direction 0 x1 /\
   after (steppedHandle SP) [PanUpdate (Fin x1); PanEnd (Fin x2)] = END) /\
  (after (plainHandle PP) [PanUpdate (Fin x1); PanUpdate (Fin x2)]
   = direction x1 x2 /\
   after (plainHandle PP) [PanStart; PanUpdate (Fin x1)] = direction 0 x1 /\
   after (plainHandle PP) [PanUpdate (Fin x1); PanEnd (Fin x2)] = END).
Proof.
  intros DS HS DP HP. cbv beta zeta.
  assert (Hdir : forall a b : Q,
             (if (Fin a - Fin b > Fin 0)%js then LEFT else RIGHT) =
             (if Qle_bool a b then RIGHT else LEFT)).
  { intros a b. cbn [Js.sub Js.neg Js.add]. unfold Js.gt, Js.lt.
    destruct (Qle_bool (a + - b) 0) eqn:E1, (Qle_bool a b) eqn:E2;
      cbn [negb]; try reflexivity; qbool; lra. }
  rewrite !state_deliver_cons, !state_deliver_nil.
  repeat split.
  all: repeat match goal with
         | |- context [panDirectionValue (state_of (steppedHandle ?P ?e ?t))] =>
             rewrite (proj1 (proj2 (proj2
                       (stepped_handle_gesture_state P e t))))
         | |- context [prevX (state_of (steppedHandle ?P ?e ?t))] =>
             rewrite (proj2 (proj2 (proj2
                       (stepped_handle_gesture_state P e t))))
         | |- context [panDirectionValue (state_of (plainHandle ?P ?e ?t))] =>
             rewrite (proj1 (proj2 (proj2
                       (plain_handle_gesture_state P e t))))
         | |- context [prevX (state_of (plainHandle ?P ?e ?t))] =>
             rewrite (proj2 (proj2 (proj2
                       (plain_handle_gesture_state P e t))))
         end;
    cbn [steppedRuns plainRuns]; rewrite ?DS, ?HS, ?DP, ?HP; cbn [negb andb];
    try reflexivity; apply Hdir.
Qed.

Lemma pan_direction_follows_positions_witness :
  panDirectionValue
    (state_of (deliver
                 (steppedHandle
                    (Stepped.mkProps false false false NONE None (Fin 15)
                       (Fin 4) false true true true true true true))
                 [PanUpdate (Fin 30); PanUpdate (Fin 15)]
                 (mounted 0 100 75))) = LEFT.
Proof.
  exact (proj1 (proj1
    (@pan_direction_follows_positions
       (Stepped.mkProps false false false NONE None (Fin 15) (Fin 4)
          false true true true true true true)
       (Plain.mkProps false false false NONE false (Fin 15)
          false true true true true true true)
       (mounted 0 100 75) 30 15 eq_refl eq_refl eq_refl eq_refl))).
Defined.

(** ** Further properties: the calls of a gesture *)

Lemma countCalls_app (k : Call -> bool) (t u : list Call) :
  countCalls k (t ++ u) = (countCalls k t + countCalls k u)%nat.
Proof. unfold countCalls. now rewrite filter_app, length_app. Qed.

Lemma stepped_onActiveSlider_counts (P : Stepped.Props) (s : State) (x : num) :
  let t := calls_of (Stepped.onActiveSlider P x s) in
  let armed := match Stepped.hapticMode P with
               | BOTH => Stepped.onHapticFeedback P
               | _ => false
               end in
  countCalls isOnSlidingStart t = 0%nat /\
  countCalls isOnValueChange t = Nat.b2n (Stepped.onValueChange P) /\
  countCalls isOnSlidingComplete t = 0%nat /\
  countCalls isOnTap t = 0%nat /\
  (armed = false -> countCalls isOnHapticFeedback t = 0%nat).
Proof.
  cbv zeta.
  rewrite (proj2 (proj2 (stepped_onActiveSlider_effects P s x))).
  destruct (match Stepped.hapticMode P with
            | BOTH => Stepped.onHapticFeedback P
            | _ => false
            end);
    destruct (atEdge (width s) (Stepped.thumbWidth P) x),
      (isTriggedHaptic s), (Stepped.onValueChange P);
    cbn; repeat split; congruence.
Qed.

Lemma plain_onActiveSlider_counts (P : Plain.Props) (s : State) (x : num) :
  let t := calls_of (Plain.onActiveSlider P x s) in
  let armed := match Plain.hapticMode P with
               | BOTH => Plain.onHapticFeedback P
               | _ => false
               end in
  countCalls isOnSlidingStart t = 0%nat /\
  countCalls isOnValueChange t = Nat.b2n (Plain.onValueChange P) /\
  countCalls isOnSlidingComplete t = 0%nat /\
  countCalls isOnTap t = 0%nat /\
  (armed = false -> countCalls isOnHapticFeedback t = 0%nat).
Proof.
  cbv zeta.
  rewrite (proj2 (proj2 (plain_onActiveSlider_effects P s x))).
  destruct (match Plain.hapticMode P with
            | BOTH => Plain.onHapticFeedback P
            | _ => false
            end);
    destruct (atEdge (width s) (Plain.thumbWidth P) x),
      (isTriggedHaptic s), (Plain.onValueChange P);
    cbn; repeat split; congruence.
Qed.

(** The one call a release makes to [onSlidingComplete]: with the rounded
    progress when it rounds, with [shareValueToSeconds()] when it does
    not. *)
Lemma stepped_roundOnRelease_calls (P : Stepped.Props) (s : State) :
  calls_of (Stepped.roundOnRelease P s) =
  if Stepped.onSlidingComplete P then
    if (Js.rem (progress s) (Fin 1) !== Fin 0)%js
    then [OnSlidingComplete (Js.round (progress s)); SetMarkStyles]
    else [OnSlidingComplete (Stepped.shareValueToSeconds P s)]
  else [].
Proof.
  unfold Stepped.roundOnRelease. run_worklet.
  destruct (Js.rem (progress s) (Fin 1) !== Fin 0)%js,
    (Stepped.onSlidingComplete P); reflexivity.
Qed.

Lemma plain_roundOnRelease_calls (P : Plain.Props) (s : State) :
  calls_of (Plain.roundOnRelease P s) =
  if Plain.onSlidingComplete P then
    if Plain.snapToInteger P && (Js.rem (progress s) (Fin 1) !== Fin 0)%js
    then [OnSlidingComplete (Js.round (progress s))]
    else [OnSlidingComplete (Plain.shareValueToSeconds P s)]
  else [].
Proof.
  unfold Plain.roundOnRelease. run_worklet.
  destruct (Plain.snapToInteger P),
    (Js.rem (progress s) (Fin 1) !== Fin 0)%js,
    (Plain.onSlidingComplete P); reflexivity.
Qed.

Lemma stepped_roundOnRelease_counts (P : Stepped.Props) (s : State) :
  let t := calls_of (Stepped.roundOnRelease P s) in
  countCalls isOnSlidingStart t = 0%nat /\
  countCalls isOnValueChange t = 0%nat /\
  countCalls isOnSlidingComplete t = Nat.b2n (Stepped.onSlidingComplete P) /\
  countCalls isOnTap t = 0%nat /\
  countCalls isOnHapticFeedback t = 0%nat.
Proof.
  cbv zeta. rewrite stepped_roundOnRelease_calls.
  destruct (Stepped.onSlidingComplete P),
    (Js.rem (progress s) (Fin 1) !== Fin 0)%js; repeat split; reflexivity.
Qed.

Lemma plain_roundOnRelease_counts (P : Plain.Props) (s : State) :
  let t := calls_of (Plain.roundOnRelease P s) in
  countCalls isOnSlidingStart t = 0%nat /\
  countCalls isOnValueChange t = 0%nat /\
  countCalls isOnSlidingComplete t = Nat.b2n (Plain.onSlidingComplete P) /\
  countCalls isOnTap t = 0%nat /\
  countCalls isOnHapticFeedback t = 0%nat.
Proof.
  cbv zeta. rewrite plain_roundOnRelease_calls.
  destruct (Plain.onSlidingComplete P),
    (Plain.snapToInteger P && (Js.rem (progress s) (Fin 1) !== Fin 0)%js);
    repeat split; reflexivity.
Qed.

Lemma stepped_handle_counts (P : Stepped.Props) (e : Gesture) (s : State) :
  let t := calls_of (steppedHandle P e s) in
  let runs := steppedRuns P e in
  let armed := match Stepped.hapticMode P with
               | BOTH => Stepped.onHapticFeedback P
               | _ => false
               end in
  countCalls isOnSlidingStart t =
    match e with
    | PanStart => Nat.b2n (runs && Stepped.onSlidingStart P)
    | _ => 0%nat
    end /\
  countCalls isOnValueChange t =
    match e with
    | PanUpdate _ => Nat.b2n (runs && Stepped.onValueChange P)
    | Tap _ fin => Nat.b2n (runs && fin && Stepped.onValueChange P)
    | _ => 0%nat
    end /\
  countCalls isOnSlidingComplete t =
    match e with
    | PanEnd _ | Tap _ _ => Nat.b2n (runs && Stepped.onSlidingComplete P)
    | _ => 0%nat
    end /\
  countCalls isOnTap t =
    match e with
    | Tap _ _ => Nat.b2n (Stepped.onTap P)
    | _ => 0%nat
    end /\
  (armed = false -> countCalls isOnHapticFeedback t = 0%nat).
Proof.
  cbv zeta. destruct e as [|x|x|x fin]; cbn [steppedHandle steppedRuns].
  - unfold Stepped.onGestureEvent_onStart.
    destruct (Stepped.disable P), (Stepped.hasIsScrubbing P),
      (Stepped.hasPanDirectionValue P), (Stepped.onSlidingStart P);
      repeat split; reflexivity.
  - unfold Stepped.onGestureEvent_onUpdate.
    destruct (Stepped.disable P); [repeat split; reflexivity|].
    rewrite !calls_bind, !countCalls_app.
    destruct (stepped_onActiveSlider_counts P
                (state_of (modify (set_bubbleOpacity (Fin 1))
                   (state_of (when (Stepped.hasPanDirectionValue P)
                      (px <- gets prevX;;
                       modify (set_panDirectionValue
                                 (if (px - x > Fin 0)%js then LEFT else RIGHT));;
                       modify (set_prevX x)) s)))) x)
      as (C1 & C2 & C3 & C4 & C5).
    cbv zeta in C5.
    rewrite C1, C2, C3, C4.
    destruct (Stepped.hasPanDirectionValue P); cbn [negb andb];
      repeat split; try reflexivity; intros A; now rewrite (C5 A).
  - unfold Stepped.onGestureEvent_onEnd.
    destruct (Stepped.disable P); [repeat split; reflexivity|].
    rewrite !calls_bind, !countCalls_app.
    match goal with
    | |- context [calls_of (Stepped.roundOnRelease P ?t)] =>
        destruct (stepped_roundOnRelease_counts P t) as (C1 & C2 & C3 & C4 & C5)
    end.
    rewrite C1, C2, C3, C4, C5.
    destruct (Stepped.hasIsScrubbing P), (Stepped.hasPanDirectionValue P),
      (Stepped.disableTrackFollow P); cbn [negb andb];
      repeat split; reflexivity.
  - unfold Stepped.onSingleTapEvent_onEnd.
    rewrite !calls_bind, !countCalls_app.
    assert (E : state_of (when (Stepped.onTap P) (runOnJS OnTap) s) = s)
      by (destruct (Stepped.onTap P); reflexivity).
    rewrite E.
    destruct (Stepped.disable P || Stepped.disableTapEvent P); cbn [negb andb].
    + destruct (Stepped.onTap P); repeat split; reflexivity.
    + rewrite !calls_bind, !countCalls_app.
      match goal with
      | |- context [calls_of (Stepped.roundOnRelease P ?t)] =>
          destruct (stepped_roundOnRelease_counts P t)
            as (C1 & C2 & C3 & C4 & C5)
      end.
      rewrite C1, C2, C3, C4, C5.
      destruct (stepped_onActiveSlider_counts P s x)
        as (A1 & A2 & A3 & A4 & A5).
      cbv zeta in A5.
      destruct fin; cbn [when].
      * rewrite A1, A2, A3, A4.
        destruct (Stepped.onTap P), (Stepped.hasIsScrubbing P);
          cbn; rewrite ?Nat.add_0_r;
          repeat split; try reflexivity; intros A; now rewrite (A5 A).
      * destruct (Stepped.onTap P), (Stepped.hasIsScrubbing P);
          cbn; repeat split; reflexivity.
Qed.

Lemma plain_handle_counts (P : Plain.Props) (e : Gesture) (s : State) :
  let t := calls_of (plainHandle P e s) in
  let runs := plainRuns P e in
  let armed := match Plain.hapticMode P with
               | BOTH => Plain.onHapticFeedback P
               | _ => false
               end in
  countCalls isOnSlidingStart t =
    match e with
    | PanStart => Nat.b2n (runs && Plain.onSlidingStart P)
    | _ => 0%nat
    end /\
  countCalls isOnValueChange t =
    match e with
    | PanUpdate _ => Nat.b2n (runs && Plain.onValueChange P)
    | Tap _ fin => Nat.b2n (runs && fin && Plain.onValueChange P)
    | _ => 0%nat
    end /\
  countCalls isOnSlidingComplete t =
    match e with
    | PanEnd _ | Tap _ _ => Nat.b2n (runs && Plain.onSlidingComplete P)
    | _ => 0%nat
    end /\
  countCalls isOnTap t =
    match e with
    | Tap _ _ => Nat.b2n (Plain.onTap P)
    | _ => 0%nat
    end /\
  (armed = false -> countCalls isOnHapticFeedback t = 0%nat).
Proof.
  cbv zeta. destruct e as [|x|x|x fin]; cbn [plainHandle plainRuns].
  - unfold Plain.onGestureEvent_onStart.
    destruct (Plain.disable P), (Plain.hasIsScrubbing P),
      (Plain.hasPanDirectionValue P), (Plain.onSlidingStart P);
      repeat split; reflexivity.
  - unfold Plain.onGestureEvent_onUpdate.
    destruct (Plain.disable P); [repeat split; reflexivity|].
    rewrite !calls_bind, !countCalls_app.
    destruct (plain_onActiveSlider_counts P
                (state_of (modify (set_bubbleOpacity (Fin 1))
                   (state_of (when (Plain.hasPanDirectionValue P)
                      (px <- gets prevX;;
                       modify (set_panDirectionValue
                                 (if (px - x > Fin 0)%js then LEFT else RIGHT));;
                       modify (set_prevX x)) s)))) x)
      as (C1 & C2 & C3 & C4 & C5).
    cbv zeta in C5.
    rewrite C1, C2, C3, C4.
    destruct (Plain.hasPanDirectionValue P); cbn [negb andb];
      repeat split; try reflexivity; intros A; now rewrite (C5 A).
  - unfold Plain.onGestureEvent_onEnd.
    destruct (Plain.disable P); [repeat split; reflexivity|].
    rewrite !calls_bind, !countCalls_app.
    match goal with
    | |- context [calls_of (Plain.roundOnRelease P ?t)] =>
        destruct (plain_roundOnRelease_counts P t) as (C1 & C2 & C3 & C4 & C5)
    end.
    rewrite C1, C2, C3, C4, C5.
    destruct (Plain.hasIsScrubbing P), (Plain.hasPanDirectionValue P),
      (Plain.disableTrackFollow P); cbn [negb andb];
      repeat split; reflexivity.
  - unfold Plain.onSingleTapEvent_onEnd.
    rewrite !calls_bind, !countCalls_app.
    assert (E : state_of (when (Plain.onTap P) (runOnJS OnTap) s) = s)
      by (destruct (Plain.onTap P); reflexivity).
    rewrite E.
    destruct (Plain.disable P || Plain.disableTapEvent P); cbn [negb andb].
    + destruct (Plain.onTap P); repeat split; reflexivity.
    + rewrite !calls_bind, !countCalls_app.
      match goal with
      | |- context [calls_of (Plain.roundOnRelease P ?t)] =>
          destruct (plain_roundOnRelease_counts P t)
            as (C1 & C2 & C3 & C4 & C5)
      end.
      rewrite C1, C2, C3, C4, C5.
      destruct (plain_onActiveSlider_counts P s x)
        as (A1 & A2 & A3 & A4 & A5).
      cbv zeta in A5.
      destruct fin; cbn [when].
      * rewrite A1, A2, A3, A4.
        destruct (Plain.onTap P), (Plain.hasIsScrubbing P);
          cbn; rewrite ?Nat.add_0_r;
          repeat split; try reflexivity; intros A; now rewrite (A5 A).
      * destruct (Plain.onTap P), (Plain.hasIsScrubbing P);
          cbn; repeat split; reflexivity.
Qed.

Lemma count_deliver (h : Gesture -> Worklet unit) (k : Call -> bool)
      (c : Gesture -> nat) :
  (forall e s, countCalls k (calls_of (h e s)) = c e) ->
  forall es s,
    countCalls k (calls_of (deliver h es s)) = list_sum (map c es).
Proof.
  intros H es. induction es as [|e es IH]; intros s; [reflexivity|].
  rewrite calls_deliver_cons, countCalls_app, H, IH. reflexivity.
Qed.

Lemma list_sum_pan_gesture (c : Gesture -> nat) (u : nat)
      (xs : list num) (x : num) :
  (forall y, c (PanUpdate y) = u) ->
  list_sum (map c (panGesture xs x)) =
  (c PanStart + length xs * u + c (PanEnd x))%nat.
Proof.
  intros H. unfold panGesture.
  assert (C : forall a l, list_sum (a :: l) = (a + list_sum l)%nat)
    by reflexivity.
  assert (E : list_sum (map c (map PanUpdate xs)) = (length xs * u)%nat).
  { induction xs as [|y xs IH]; [reflexivity|].
    cbn [map length]. rewrite C, H, IH. lia. }
  cbn [map]. rewrite C, map_app, list_sum_app, E. cbn [map].
  rewrite C. cbn. lia.
Qed.

(** X15: one complete pan on an enabled Slider of either kind calls
    [onSlidingStart] once, [onValueChange] once per update and
    [onSlidingComplete] once, each when the prop is supplied, and never
    [onTap]. *)
Theorem pan_gesture_calls
        (SP : Stepped.Props) (PP : Plain.Props)
        (s : State) (xs : list num) (x : num) :
  Stepped.disable SP = false -> Plain.disable PP = false ->
  let ts := calls_of (deliver (steppedHandle SP) (panGesture xs x) s) in
  let tp := calls_of (deliver (plainHandle PP) (panGesture xs x) s) in
  (countCalls isOnSlidingStart ts = Nat.b2n (Stepped.onSlidingStart SP) /\
   countCalls isOnValueChange ts =
     (length xs * Nat.b2n (Stepped.onValueChange SP))%nat /\
   countCalls isOnSlidingComplete ts =
     Nat.b2n (Stepped.onSlidingComplete SP) /\
   countCalls isOnTap ts = 0%nat) /\
  (countCalls isOnSlidingStart tp = Nat.b2n (Plain.onSlidingStart PP) /\
   countCalls isOnValueChange tp =
     (length xs * Nat.b2n (Plain.onValueChange PP))%nat /\
   countCalls isOnSlidingComplete tp = Nat.b2n (Plain.onSlidingComplete PP) /\
   countCalls isOnTap tp = 0%nat).
Proof.
  intros DS DP. cbv zeta.
  repeat split.
  all: match goal with
       | |- countCalls ?k (calls_of (deliver (steppedHandle _) _ _)) = _ =>
           erewrite (@count_deliver (steppedHandle SP) k);
           [| intros e s0;
              first [ apply (proj1 (stepped_handle_counts SP e s0))
                    | apply (proj1 (proj2 (stepped_handle_counts SP e s0)))
                    | apply (proj1 (proj2 (proj2
                               (stepped_handle_counts SP e s0))))
                    | apply (proj1 (proj2 (proj2 (proj2
                               (stepped_handle_counts SP e s0))))) ] ]
       | |- countCalls ?k (calls_of (deliver (plainHandle _) _ _)) = _ =>
           erewrite (@count_deliver (plainHandle PP) k);
           [| intros e s0;
              first [ apply (proj1 (plain_handle_counts PP e s0))
                    | apply (proj1 (proj2 (plain_handle_counts PP e s0)))
                    | apply (proj1 (proj2 (proj2
                               (plain_handle_counts PP e s0))))
                    | apply (proj1 (proj2 (proj2 (proj2
                               (plain_handle_counts PP e s0))))) ] ]
       end.
  all: erewrite list_sum_pan_gesture
    by (intros y; cbn [steppedRuns plainRuns]; reflexivity).
  all: cbn [steppedRuns plainRuns]; rewrite ?DS, ?DP; cbn [negb andb]; lia.
Qed.

Lemma pan_gesture_calls_witness :
  let t := calls_of (deliver (steppedHandle steppedDefaults)
                       (panGesture [Fin 15; Fin 30] (Fin 30))
                       (mounted 0 100 75)) in
  countCalls isOnSlidingStart t = 1%nat /\
  countCalls isOnValueChange t = 2%nat /\
  countCalls isOnSlidingComplete t = 1%nat /\
  countCalls isOnTap t = 0%nat.
Proof.
  exact (proj1 (@pan_gesture_calls steppedDefaults plainDefaults
                  (mounted 0 100 75) [Fin 15; Fin 30] (Fin 30)
                  eq_refl eq_refl)).
Defined.

(** X16: without [hapticMode = 'both'], or without an [onHapticFeedback]
    prop, no sequence of events ever calls the haptic callback, in either
    Slider; in particular [hapticMode = 'step'] fires nothing. *)
Theorem no_haptics_unless_both
        (SP : Stepped.Props) (PP : Plain.Props)
        (s : State) (es : list Gesture) :
  (Stepped.hapticMode SP <> BOTH \/ Stepped.onHapticFeedback SP = false ->
   countCalls isOnHapticFeedback
     (calls_of (deliver (steppedHandle SP) es s)) = 0%nat) /\
  (Plain.hapticMode PP <> BOTH \/ Plain.onHapticFeedback PP = false ->
   countCalls isOnHapticFeedback
     (calls_of (deliver (plainHandle PP) es s)) = 0%nat).
Proof.
  split; intros H.
  - rewrite (@count_deliver (steppedHandle SP) _ (fun _ => 0%nat)).
    + induction es; [reflexivity | assumption].
    + intros e s0.
      apply (proj2 (proj2 (proj2 (proj2 (stepped_handle_counts SP e s0))))).
      destruct (Stepped.hapticMode SP), H; try reflexivity; try congruence.
  - rewrite (@count_deliver (plainHandle PP) _ (fun _ => 0%nat)).
    + induction es; [reflexivity | assumption].
    + intros e s0.
      apply (proj2 (proj2 (proj2 (proj2 (plain_handle_counts PP e s0))))).
      destruct (Plain.hapticMode PP), H; try reflexivity; try congruence.
Qed.

Lemma no_haptics_unless_both_witness :
  let P := Stepped.mkProps false false false STEP (Some 4%nat) (Fin 15)
             (Fin 4) false false true true true true true in
  countCalls isOnHapticFeedback
    (calls_of (deliver (steppedHandle P)
                 (panGesture [Fin 0; Fin 200] (Fin 0)) (mounted 0 4 75)))
  = 0%nat.
Proof.
  apply (proj1 (@no_haptics_unless_both
                  (Stepped.mkProps false false false STEP (Some 4%nat)
                     (Fin 15) (Fin 4) false false true true true true true)
                  plainDefaults (mounted 0 4 75)
                  (panGesture [Fin 0; Fin 200] (Fin 0)))).
  left. discriminate.
Defined.

(** ** Further properties: taps *)

(** X17: with [disableTapEvent] set, a tap on a Slider of either kind
    leaves every shared value as it was and makes exactly the call to
    [onTap], when that prop is supplied, whether or not the Slider is
    otherwise enabled. *)
Theorem disableTapEvent_tap_is_inert
        (SP : Stepped.Props) (PP : Plain.Props)
        (s : State) (x : num) (fin : bool) :
  Stepped.disableTapEvent SP = true -> Plain.disableTapEvent PP = true ->
  state_of (steppedHandle SP (Tap x fin) s) = s /\
  state_of (plainHandle PP (Tap x fin) s) = s /\
  calls_of (steppedHandle SP (Tap x fin) s) =
    (if Stepped.onTap SP then [OnTap] else []) /\
  calls_of (plainHandle PP (Tap x fin) s) =
    (if Plain.onTap PP then [OnTap] else []).
Proof.
  intros HS HP. cbn [steppedHandle plainHandle].
  unfold Stepped.onSingleTapEvent_onEnd, Plain.onSingleTapEvent_onEnd.
  rewrite HS, HP, !orb_true_r.
  destruct (Stepped.onTap SP), (Plain.onTap PP); repeat split; reflexivity.
Qed.

Lemma disableTapEvent_tap_is_inert_witness :
  let P := Stepped.mkProps false true false NONE None (Fin 15) (Fin 4)
             false false true true true true true in
  let s := mounted 0 100 75 in
  state_of (steppedHandle P (Tap (Fin 30) true) s) = s /\
  calls_of (steppedHandle P (Tap (Fin 30) true) s) = [OnTap].
Proof.
  destruct (@disableTapEvent_tap_is_inert
              (Stepped.mkProps false true false NONE None (Fin 15) (Fin 4)
                 false false true true true true true)
              (Plain.mkProps false true false NONE false (Fin 15)
                 false false true true true true true)
              (mounted 0 100 75) (Fin 30) true eq_refl eq_refl)
    as (H1 & _ & H3 & _).
  split; assumption.
Defined.

Lemma stepped_onGestureEvent_onUpdate_progress
      (P : Stepped.Props) (s : State) (x : num) :
  Stepped.disable P = false ->
  progress (state_of (Stepped.onGestureEvent_onUpdate P x s)) =
  if Stepped.disableTrackFollow P then progress s
  else Stepped.xToProgress P s x.
Proof.
  intros D. unfold Stepped.onGestureEvent_onUpdate. rewrite D.
  rewrite !state_bind.
  rewrite (proj1 (stepped_onActiveSlider_values P _ x)).
  destruct (Stepped.hasPanDirectionValue P), (Stepped.disableTrackFollow P);
    reflexivity.
Qed.

Lemma plain_onGestureEvent_onUpdate_progress
      (P : Plain.Props) (s : State) (x : num) :
  Plain.disable P = false ->
  progress (state_of (Plain.onGestureEvent_onUpdate P x s)) =
  if Plain.disableTrackFollow P then progress s
  else Plain.xToProgress P s x.
Proof.
  intros D. unfold Plain.onGestureEvent_onUpdate. rewrite D.
  rewrite !state_bind.
  rewrite (proj1 (plain_onActiveSlider_values P _ x)).
  destruct (Plain.hasPanDirectionValue P), (Plain.disableTrackFollow P);
    reflexivity.
Qed.

Lemma plain_onSingleTapEvent_onEnd_progress
      (P : Plain.Props) (s : State) (x : num) (isFinished : bool) :
  Plain.disable P = false -> Plain.disableTapEvent P = false ->
  progress (state_of (Plain.onSingleTapEvent_onEnd P x isFinished s)) =
  let p := if isFinished && negb (Plain.disableTrackFollow P)
           then Plain.xToProgress P s x else progress s in
  if Plain.snapToInteger P then roundIfFractional p else p.
Proof.
  intros D T. unfold Plain.onSingleTapEvent_onEnd. rewrite D, T. cbn [orb].
  rewrite !state_bind, plain_roundOnRelease_progress. cbv zeta.
  assert (E : forall s0, state_of (when (Plain.onTap P) (runOnJS OnTap) s0) = s0)
    by (intros s0; destruct (Plain.onTap P); reflexivity).
  rewrite E.
  destruct isFinished; cbn [when andb].
  - destruct (plain_onActiveSlider_values P s x) as [Hp _].
    destruct (Plain.snapToInteger P); [f_equal|];
      (destruct (Plain.hasIsScrubbing P); cbn; rewrite Hp;
       now destruct (Plain.disableTrackFollow P)).
  - destruct (Plain.hasIsScrubbing P), (Plain.snapToInteger P); reflexivity.
Qed.

Lemma stepped_finished_tap_thumbValue (P : Stepped.Props) (s : State) (x : num) :
  Stepped.disable P = false -> Stepped.disableTapEvent P = false ->
  thumbValue (state_of (Stepped.onSingleTapEvent_onEnd P x true s)) =
  clamp x (Fin 0) (width s - Stepped.thumbWidth P).
Proof.
  intros D T.
  destruct (stepped_handle_thumbValue P (Tap x true) s) as [H | (y & Hy & H)];
    cbn [steppedHandle] in H.
  - unfold Stepped.onSingleTapEvent_onEnd in *.
    rewrite D, T in *. cbn [orb] in *.
    rewrite state_bind in *.
    assert (E : state_of (when (Stepped.onTap P) (runOnJS OnTap) s) = s)
      by (destruct (Stepped.onTap P); reflexivity).
    rewrite E in *. rewrite state_bind in *.
    assert (K : keeps thumbValue
                  (when (Stepped.hasIsScrubbing P) (modify (set_isScrubbing true));;
                   modify (set_bubbleOpacity (Fin 0));;
                   Stepped.roundOnRelease P))
      by (unfold Stepped.roundOnRelease; repeat keeps_step).
    rewrite K. cbn [when].
    apply (proj2 (stepped_onActiveSlider_values P s x)).
  - cbn in Hy. injection Hy as <-. exact H.
Qed.

Lemma plain_finished_tap_thumbValue (P : Plain.Props) (s : State) (x : num) :
  Plain.disable P = false -> Plain.disableTapEvent P = false ->
  thumbValue (state_of (Plain.onSingleTapEvent_onEnd P x true s)) =
  clamp x (Fin 0) (width s - Plain.thumbWidth P).
Proof.
  intros D T.
  destruct (plain_handle_thumbValue P (Tap x true) s) as [H | (y & Hy & H)];
    cbn [plainHandle] in H.
  - unfold Plain.onSingleTapEvent_onEnd in *.
    rewrite D, T in *. cbn [orb] in *.
    rewrite state_bind in *.
    assert (E : state_of (when (Plain.onTap P) (runOnJS OnTap) s) = s)
      by (destruct (Plain.onTap P); reflexivity).
    rewrite E in *. rewrite state_bind in *.
    assert (K : keeps thumbValue
                  (when (Plain.hasIsScrubbing P) (modify (set_isScrubbing true));;
                   modify (set_bubbleOpacity (Fin 0));;
                   Plain.roundOnRelease P))
      by (unfold Plain.roundOnRelease; repeat keeps_step).
    rewrite K. cbn [when].
    apply (proj2 (plain_onActiveSlider_values P s x)).
  - cbn in Hy. injection Hy as <-. exact H.
Qed.

Lemma stepped_onGestureEvent_onEnd_thumbValue (P : Stepped.Props) (x : num) :
  keeps thumbValue (Stepped.onGestureEvent_onEnd P x).
Proof.
  unfold Stepped.onGestureEvent_onEnd, Stepped.roundOnRelease.
  repeat keeps_step.
Qed.

Lemma plain_onGestureEvent_onEnd_thumbValue (P : Plain.Props) (x : num) :
  keeps thumbValue (Plain.onGestureEvent_onEnd P x).
Proof.
  unfold Plain.onGestureEvent_onEnd, Plain.roundOnRelease.
  repeat keeps_step.
Qed.

(** X18: when the track follows the thumb, a finished tap at a position
    seeks exactly like an update and a release at that position: on an
    enabled Slider of either kind (taps not disabled) it leaves the same
    [progress] and the same [thumbValue]. *)
Theorem tap_seeks_like_drag_and_release
        (SP : Stepped.Props) (PP : Plain.Props) (s : State) (x : num) :
  Stepped.disable SP = false -> Stepped.disableTapEvent SP = false ->
  Stepped.disableTrackFollow SP = false ->
  Plain.disable PP = false -> Plain.disableTapEvent PP = false ->
  Plain.disableTrackFollow PP = false ->
  let tapS := state_of (steppedHandle SP (Tap x true) s) in
  let panS := state_of (deliver (steppedHandle SP) [PanUpdate x; PanEnd x] s) in
  let tapP := state_of (plainHandle PP (Tap x true) s) in
  let panP := state_of (deliver (plainHandle PP) [PanUpdate x; PanEnd x] s) in
  (progress tapS = progress panS /\ thumbValue tapS = thumbValue panS) /\
  (progress tapP = progress panP /\ thumbValue tapP = thumbValue panP).
Proof.
  intros DS TS FS DP TP FP. cbv zeta.
  rewrite !state_deliver_cons, !state_deliver_nil.
  cbn [steppedHandle plainHandle].
  rewrite stepped_onSingleTapEvent_onEnd_progress,
    stepped_onGestureEvent_onEnd_progress,
    stepped_onGestureEvent_onUpdate_progress by assumption.
  rewrite plain_onSingleTapEvent_onEnd_progress,
    plain_onGestureEvent_onEnd_progress,
    plain_onGestureEvent_onUpdate_progress by assumption.
  rewrite stepped_finished_tap_thumbValue, plain_finished_tap_thumbValue
    by assumption.
  rewrite stepped_onGestureEvent_onEnd_thumbValue,
    plain_onGestureEvent_onEnd_thumbValue.
  rewrite stepped_onGestureEvent_onUpdate_thumbValue,
    plain_onGestureEvent_onUpdate_thumbValue by assumption.
  rewrite FS, FP. cbn [andb negb]. cbv zeta.
  repeat split; reflexivity.
Qed.

Lemma tap_seeks_like_drag_and_release_witness :
  let s := mounted 0 100 75 in
  progress (state_of (steppedHandle steppedDefaults (Tap (Fin 30) true) s)) =
  progress (state_of (deliver (steppedHandle steppedDefaults)
                        [PanUpdate (Fin 30); PanEnd (Fin 30)] s)).
Proof.
  exact (proj1 (proj1
    (@tap_seeks_like_drag_and_release steppedDefaults plainDefaults
       (mounted 0 100 75) (Fin 30)
       eq_refl eq_refl eq_refl eq_refl eq_refl eq_refl))).
Defined.

(** X19: with [disableTrackFollow], a finished tap moves the thumb to the
    tapped position but never assigns [progress] from it: on an enabled
    Slider (taps not disabled) [progress] is what it was, rounded as on
    every release in [src/slide.tsx] and when [snapToInteger] is set in
    the second Slider. *)
Theorem tap_without_follow_keeps_progress
        (SP : Stepped.Props) (PP : Plain.Props) (s : State) (x : num) :
  Stepped.disable SP = false -> Stepped.disableTapEvent SP = false ->
  Stepped.disableTrackFollow SP = true ->
  Plain.disable PP = false -> Plain.disableTapEvent PP = false ->
  Plain.disableTrackFollow PP = true ->
  let tapS := state_of (steppedHandle SP (Tap x true) s) in
  let tapP := state_of (plainHandle PP (Tap x true) s) in
  (progress tapS = roundIfFractional (progress s) /\
   thumbValue tapS = clamp x (Fin 0) (width s - Stepped.thumbWidth SP)) /\
  (progress tapP = (if Plain.snapToInteger PP
                    then roundIfFractional (progress s) else progress s) /\
   thumbValue tapP = clamp x (Fin 0) (width s - Plain.thumbWidth PP)).
Proof.
  intros DS TS FS DP TP FP. cbv zeta. cbn [steppedHandle plainHandle].
  rewrite stepped_onSingleTapEvent_onEnd_progress,
    plain_onSingleTapEvent_onEnd_progress by assumption.
  rewrite stepped_finished_tap_thumbValue, plain_finished_tap_thumbValue
    by assumption.
  rewrite FS, FP. cbn [andb negb]. cbv zeta. repeat split; reflexivity.
Qed.

Lemma tap_without_follow_keeps_progress_witness :
  let s := set_progress (Fin 20) (mounted 0 100 75) in
  progress (state_of (steppedHandle steppedNoFollow (Tap (Fin 30) true) s)) =
    roundIfFractional (Fin 20) /\
  thumbValue (state_of (steppedHandle steppedNoFollow (Tap (Fin 30) true) s)) =
    clamp (Fin 30) (Fin 0) (Fin 75 - Fin 15).
Proof.
  exact (proj1
    (@tap_without_follow_keeps_progress steppedNoFollow plainNoFollow
       (set_progress (Fin 20) (mounted 0 100 75)) (Fin 30)
       eq_refl eq_refl eq_refl eq_refl eq_refl eq_refl)).
Defined.

(** X20: in the second Slider the rounding on release is gated by
    [snapToInteger]: without it the end of a pan and a tap leave exactly
    the progress they find, with it a finite progress is replaced by the
    nearest integer (enabled Slider, taps not disabled). *)
Theorem plain_release_rounds_only_with_snapToInteger
        (PP : Plain.Props) (s : State) (x : num) (fin : bool) :
  Plain.disable PP = false -> Plain.disableTapEvent PP = false ->
  let found_by_pan :=
    if Plain.disableTrackFollow PP then Plain.xToProgress PP s x
    else progress s in
  let found_by_tap :=
    if fin && negb (Plain.disableTrackFollow PP)
    then Plain.xToProgress PP s x else progress s in
  let afterPan := progress (state_of (plainHandle PP (PanEnd x) s)) in
  let afterTap := progress (state_of (plainHandle PP (Tap x fin) s)) in
  (Plain.snapToInteger PP = false ->
   afterPan = found_by_pan /\ afterTap = found_by_tap) /\
  (Plain.snapToInteger PP = true ->
   (Js.is_finite found_by_pan = true -> nearestInteger found_by_pan afterPan)
   /\
   (Js.is_finite found_by_tap = true -> nearestInteger found_by_tap afterTap)).
Proof.
  intros D T. cbv zeta. cbn [plainHandle].
  rewrite plain_onGestureEvent_onEnd_progress,
    plain_onSingleTapEvent_onEnd_progress by assumption. cbv zeta.
  split; intros ->; [split; reflexivity|].
  split; intros F.
  - destruct (if Plain.disableTrackFollow PP then _ else _);
      try discriminate. apply roundIfFractional_nearest.
  - destruct (if fin && negb (Plain.disableTrackFollow PP) then _ else _);
      try discriminate. apply roundIfFractional_nearest.
Qed.

Lemma plain_release_rounds_only_with_snapToInteger_witness :
  let s := set_progress (Fin (5 # 2)) (mounted 0 100 75) in
  progress (state_of (plainHandle plainDefaults (PanEnd (Fin 30)) s)) =
    Fin (5 # 2) /\
  progress (state_of (plainHandle plainDefaults (Tap (Fin 30) false) s)) =
    Fin (5 # 2).
Proof.
  exact (proj1
    (@plain_release_rounds_only_with_snapToInteger plainDefaults
       (set_progress (Fin (5 # 2)) (mounted 0 100 75)) (Fin 30) false
       eq_refl eq_refl) eq_refl).
Defined.

(** X21: while stepping is active ([step] set and the marks computed) a
    drag update does not read its position when it assigns [progress]:
    updates at any two positions leave the same [progress], the offset of
    the current mark. *)
Theorem stepping_progress_ignores_position
        (P : Stepped.Props) (s : State) (x y : num) :
  Stepped.stepping P s = true -> Stepped.disableTrackFollow P = false ->
  progress (state_of (Stepped.onActiveSlider P x s)) =
  progress (state_of (Stepped.onActiveSlider P y s)) /\
  progress (state_of (Stepped.onActiveSlider P x s)) =
  match nth_error (markLeftArr s) (thumbIndex s) with
  | Some v => v
  | None => NaN
  end.
Proof.
  intros St D.
  rewrite !(proj1 (stepped_onActiveSlider_values P s _)), D.
  unfold Stepped.xToProgress. rewrite St. split; reflexivity.
Qed.

Lemma stepping_progress_ignores_position_witness :
  let P := steppedWithStep 4 in
  let s := set_markLeftArr (Stepped.markLeftArrData P (mounted 0 4 100))
             (mounted 0 4 100) in
  progress (state_of (Stepped.onActiveSlider P (Fin 10) s)) =
  progress (state_of (Stepped.onActiveSlider P (Fin 90) s)).
Proof.
  exact (proj1
    (@stepping_progress_ignores_position (steppedWithStep 4)
       (set_markLeftArr (Stepped.markLeftArrData (steppedWithStep 4)
                           (mounted 0 4 100)) (mounted 0 4 100))
       (Fin 10) (Fin 90) eq_refl eq_refl)).
Defined.

(** ** Further properties: marks *)

Lemma of_nat_le (i j : nat) :
  (i <= j)%nat -> inject_Z (Z.of_nat i) <= inject_Z (Z.of_nat j).
Proof. intros H. rewrite <- Zle_Qle. lia. Qed.

(** X22: [getMarkStyles] returns one style per mark, [(step ?? 0) + 1] of
    them; mark [i] gets the minimum-track tint exactly when
    [progress >= i], so the tinted marks are the first ones: a tinted mark
    has every mark before it tinted. *)
Theorem getMarkStyles_tints_a_prefix (P : Stepped.Props) (s : State) :
  length (Stepped.getMarkStyles P s) =
    (match Stepped.step P with Some n => n | None => 0 end + 1)%nat /\
  (forall i t, nth_error (Stepped.getMarkStyles P s) i = Some t ->
               (t = MinimumTrackTint <->
                (progress s >= Js.of_nat i)%js = true)) /\
  (forall i j,
      (i <= j)%nat ->
      nth_error (Stepped.getMarkStyles P s) j = Some MinimumTrackTint ->
      nth_error (Stepped.getMarkStyles P s) i = Some MinimumTrackTint).
Proof.
  unfold Stepped.getMarkStyles.
  set (n := (match Stepped.step P with Some n => n | None => 0 end + 1)%nat).
  split; [now rewrite length_map, length_seq|]. split.
  - intros i t. rewrite nth_error_map, nth_error_seq.
    destruct (i <? n)%nat; [|discriminate]. cbn [option_map Nat.add].
    intros H. apply (f_equal (fun o => match o with Some v => v | None => t end))
      in H. subst t.
    destruct (progress s >= Js.of_nat i)%js; split; congruence.
  - intros i j Hij. rewrite !nth_error_map, !nth_error_seq.
    destruct (j <? n)%nat eqn:Ej; [|discriminate].
    apply Nat.ltb_lt in Ej.
    assert (Ei : (i <? n)%nat = true) by (apply Nat.ltb_lt; lia).
    rewrite Ei. cbn [option_map Nat.add].
    intros H.
    apply (f_equal (fun o => match o with
                             | Some v => v
                             | None => MaximumTrackTint
                             end)) in H.
    f_equal.
    destruct (progress s >= Js.of_nat j)%js eqn:Gj; [|discriminate].
    assert (Gi : (progress s >= Js.of_nat i)%js = true).
    { unfold Js.ge, Js.of_nat, Js.of_Z in *.
      destruct (progress s) as [| | |q]; try discriminate; [reflexivity|].
      apply le_Fin. apply le_Fin in Gj.
      eapply Qle_trans; [apply of_nat_le; eassumption | exact Gj]. }
    now rewrite Gi.
Qed.

(** The index [findIndex] returns is [-1] or a position of the list. *)
Lemma findIndex_range (test : num -> bool) (l : list num) :
  (-1 <= findIndex test l < Z.of_nat (length l))%Z.
Proof.
  induction l as [|v l IH]; cbn [findIndex length]; [lia|].
  destruct (test v); [lia|].
  destruct (findIndex test l); lia.
Qed.


(** X23: the index the second reaction stores in [thumbIndex] is always an
    index of the array the first reaction stores in [markLeftArr]: at most
    [step], so that the read [markLeftArr[thumbIndex]] of [xToProgress] is
    defined. *)
Theorem thumbIndex_reaction_in_range
        (P : Stepped.Props) (s : State) (n k : nat) :
  Stepped.step P = Some (S n) ->
  Stepped.thumbIndexData P s = Some k ->
  (k <= S n)%nat /\
  exists left, nth_error (Stepped.markLeftArrData P s) k = Some left.
Proof.
  intros Hstep Hk.
  assert (Hle : (k <= S n)%nat).
  { unfold Stepped.thumbIndexData in Hk. rewrite Hstep in Hk.
    destruct (Stepped.hasIsScrubbing P && isScrubbing s); [discriminate|].
    cbv zeta in Hk.
    match type of Hk with
    | context [findIndex ?f ?l] => generalize dependent (findIndex f l)
    end.
    intros idx Hk. unfold Js.of_nat in Hk.
    remember (Z.of_nat (S n)) as N eqn:HN.
    unfold Js.of_Z in Hk. rewrite clamp_Fin_q in Hk.
    apply (f_equal (fun o => match o with Some v => v | None => 0%nat end))
      in Hk.
    subst k.
    assert (H0 : 0 <= inject_Z N).
    { change 0 with (inject_Z 0). rewrite <- Zle_Qle. lia. }
    destruct (@qclamp_bounds (inject_Z idx) 0 (inject_Z N) H0) as [B0 B1].
    apply Qfloor_resp_le in B1. rewrite Qfloor_Z in B1. lia. }
  split; [exact Hle|].
  destruct (nth_error (Stepped.markLeftArrData P s) k) eqn:E; [eauto|].
  apply nth_error_None in E.
  rewrite (@markLeftArrData_length P s n Hstep) in E. lia.
Qed.

Lemma thumbIndex_reaction_in_range_witness :
  let P := steppedWithStep 4 in
  let s := set_progress (Fin 3) (mounted 0 4 100) in
  exists left, nth_error (Stepped.markLeftArrData P s) 3 = Some left.
Proof.
  apply (@thumbIndex_reaction_in_range (steppedWithStep 4)
           (set_progress (Fin 3) (mounted 0 4 100)) 3 3 eq_refl).
  vm_compute. reflexivity.
Defined.





(** ** Further properties: the reactions between events *)

Lemma state_deliverReacting_cons
      (h : Gesture -> Worklet unit) (react : Reactions -> State -> State)
      (e : Gesture) (r : Reactions) (es : list (Gesture * Reactions))
      (s : State) :
  state_of (deliverReacting h react ((e, r) :: es) s) =
  state_of (deliverReacting h react es (react r (state_of (h e s)))).
Proof. cbn [deliverReacting]. now rewrite !state_bind. Qed.

(** An invariant of every handler and of every reaction is an invariant of
    every sequence of events. *)
Lemma deliverReacting_invariant
      (h : Gesture -> Worklet unit) (react : Reactions -> State -> State)
      (I : State -> Prop) (ok : Gesture -> Prop) :
  (forall e s, ok e -> I s -> I (state_of (h e s))) ->
  (forall r s, I s -> I (react r s)) ->
  forall es s, Forall (fun er => ok (fst er)) es -> I s ->
               I (state_of (deliverReacting h react es s)).
Proof.
  intros Hh Hr es. induction es as [|[e r] es IH]; intros s Hes Hs;
    [exact Hs|].
  inversion Hes; subst. rewrite state_deliverReacting_cons.
  apply IH; auto.
Qed.

(** The reactions of [src/slide.tsx] write [markLeftArr], [thumbIndex] and
    [thumbValue] only. *)
Lemma steppedReact_keeps (P : Stepped.Props) (r : Reactions) (s : State) :
  let s' := steppedReact P r s in
  progress s' = progress s /\ minimumValue s' = minimumValue s /\
  maximumValue s' = maximumValue s /\ width s' = width s /\
  isTriggedHaptic s' = isTriggedHaptic s.
Proof.
  cbv zeta. unfold steppedReact. destruct r as [[] [] []];
    cbn [runsMarkLeftArr runsThumbIndex runsThumbValue];
    repeat match goal with
           | |- context [Stepped.thumbValueData ?P ?t] =>
               destruct (Stepped.thumbValueData P t)
           | |- context [Stepped.thumbIndexData ?P ?t] =>
               destruct (Stepped.thumbIndexData P t)
           end;
    repeat split; reflexivity.
Qed.

(** What they do to [thumbValue]: nothing, or, with [step] unset, the
    clamped position of the progress. *)
Lemma steppedReact_thumbValue (P : Stepped.Props) (r : Reactions) (s : State) :
  thumbValue (steppedReact P r s) = thumbValue s \/
  (stepUnset P /\
   thumbValue (steppedReact P r s) =
   clamp (progress s / (minimumValue s + maximumValue s) * width s)%js
         (Fin 0) (width s - Stepped.thumbWidth P)%js).
Proof.
  unfold steppedReact, stepUnset, Stepped.thumbValueData.
  destruct r as [[] [] []];
    cbn [runsMarkLeftArr runsThumbIndex runsThumbValue];
    repeat match goal with
           | |- context [Stepped.thumbIndexData ?P ?t] =>
               destruct (Stepped.thumbIndexData P t)
           end;
    cbn [isScrubbing progress minimumValue maximumValue width thumbValue
         set_thumbIndex set_markLeftArr];
    try (left; reflexivity);
    destruct (Stepped.hasIsScrubbing P && isScrubbing s);
    try (left; reflexivity);
    destruct (Stepped.step P) as [[|k]|];
    try (left; reflexivity); right; (split; [exact I | reflexivity]).
Qed.

Lemma roundIfFractional_finite (p : num) :
  Js.is_finite p = true -> Js.is_finite (roundIfFractional p) = true.
Proof.
  destruct p as [| | |q]; try discriminate. intros _.
  unfold roundIfFractional.
  destruct (Js.rem (Fin q) (Fin 1) !== Fin 0)%js; reflexivity.
Qed.

Lemma stepped_xToProgress_finite
      (P : Stepped.Props) (s : State) (x : num) (w tw mn mx : Q) :
  stepUnset P -> Js.is_finite x = true ->
  width s = Fin w -> Stepped.thumbWidth P = Fin tw -> tw < w ->
  minimumValue s = Fin mn -> maximumValue s = Fin mx ->
  Js.is_finite (Stepped.xToProgress P s x) = true.
Proof.
  intros HS Hx Hw Htw Hlt Hmn Hmx.
  destruct x as [| | |q]; try discriminate.
  unfold Stepped.xToProgress, Stepped.stepping, Stepped.sliderTotalValue.
  unfold stepUnset in HS.
  destruct (Stepped.step P) as [[|n]|]; try contradiction;
    rewrite Hw, Htw, Hmn, Hmx; cbn [Js.sub Js.neg Js.add];
    rewrite div_Fin by lra; reflexivity.
Qed.

(** The progress a handler of [src/slide.tsx] leaves: the one it found or
    the one [xToProgress] gives for the position of the event, rounded or
    not. *)
Lemma stepped_handle_progress (P : Stepped.Props) (e : Gesture) (s : State) :
  let p' := progress (state_of (steppedHandle P e s)) in
  p' = progress s \/ p' = roundIfFractional (progress s) \/
  exists x, positionOf e = Some x /\
            (p' = Stepped.xToProgress P s x \/
             p' = roundIfFractional (Stepped.xToProgress P s x)).
Proof.
  cbv zeta. destruct e as [|x|x|x fin]; cbn [steppedHandle positionOf].
  - left. revert s. change (keeps progress (Stepped.onGestureEvent_onStart P)).
    unfold Stepped.onGestureEvent_onStart. repeat keeps_step.
  - destruct (Stepped.disable P) eqn:D.
    + left. unfold Stepped.onGestureEvent_onUpdate. now rewrite D.
    + rewrite stepped_onGestureEvent_onUpdate_progress by exact D.
      destruct (Stepped.disableTrackFollow P); [now left|].
      right. right. exists x. auto.
  - destruct (Stepped.disable P) eqn:D.
    + left. unfold Stepped.onGestureEvent_onEnd. now rewrite D.
    + rewrite stepped_onGestureEvent_onEnd_progress by exact D.
      destruct (Stepped.disableTrackFollow P); [|now right; left].
      right. right. exists x. auto.
  - destruct (Stepped.disable P) eqn:D;
      [|destruct (Stepped.disableTapEvent P) eqn:T].
    + left. unfold Stepped.onSingleTapEvent_onEnd. rewrite D, state_bind.
      cbn [orb]. now destruct (Stepped.onTap P).
    + left. unfold Stepped.onSingleTapEvent_onEnd. rewrite D, T, state_bind.
      cbn [orb]. now destruct (Stepped.onTap P).
    + rewrite stepped_onSingleTapEvent_onEnd_progress by assumption.
      destruct (fin && negb (Stepped.disableTrackFollow P));
        [|now right; left].
      right. right. exists x. auto.
Qed.

(** X11: [thumbValue] never leaves the track, reactions included.  For
    finite shared values, a thumb narrower than the track and bounds that
    do not sum to zero, in both Sliders: every enabled drag update at a
    position that is a number puts [thumbValue] within
    [0, width - thumbWidth]; and once there it stays there through every
    sequence of pan and tap events at finite positions, whichever reactions
    run after each event. *)
Theorem thumbValue_stays_on_track
        (SP : Stepped.Props) (PP : Plain.Props) (s : State)
        (w tw mn mx p : Q) :
  width s = Fin w -> minimumValue s = Fin mn -> maximumValue s = Fin mx ->
  progress s = Fin p ->
  Stepped.thumbWidth SP = Fin tw -> Plain.thumbWidth PP = Fin tw ->
  tw < w -> ~ mn + mx == 0 ->
  let on_track (s' : State) := within (Fin 0) (Fin (w - tw)) (thumbValue s') in
  (forall x, x <> NaN ->
     (Stepped.disable SP = false ->
      on_track (state_of (steppedHandle SP (PanUpdate x) s))) /\
     (Plain.disable PP = false ->
      on_track (state_of (plainHandle PP (PanUpdate x) s)))) /\
  (forall es : list (Gesture * Reactions),
     Forall (fun er => finitePosition (fst er)) es -> on_track s ->
     on_track (state_of (deliverReacting (steppedHandle SP) (steppedReact SP)
                           es s)) /\
     on_track (state_of (deliverReacting (plainHandle PP) plainReact es s))).
Proof.
  intros Hw Hmn Hmx Hp HtS HtP Hlt HT. cbv zeta.
  assert (H0 : 0 <= w - tw) by lra.
  split.
  - intros x Hx. split; intros D; cbn [steppedHandle plainHandle].
    + rewrite stepped_onGestureEvent_onUpdate_thumbValue, Hw, HtS by exact D.
      now apply clamp_within_number.
    + rewrite plain_onGestureEvent_onUpdate_thumbValue, Hw, HtP by exact D.
      now apply clamp_within_number.
  - intros es Hes Hs. split.
    + apply (@deliverReacting_invariant (steppedHandle SP) (steppedReact SP)
               (fun s' => (width s' = Fin w /\ minimumValue s' = Fin mn /\
                           maximumValue s' = Fin mx) /\
                          within (Fin 0) (Fin (w - tw)) (thumbValue s') /\
                          (stepUnset SP -> Js.is_finite (progress s') = true))
               finitePosition); auto.
      * intros e s1 He [(Hw1 & Hmn1 & Hmx1) [H1 F1]].
        pose proof (stepped_handle_track SP e s1) as T.
        unfold track in T. injection T as Tw Tmn Tmx _ _.
        split; [repeat split; congruence|]. split.
        -- destruct (stepped_handle_thumbValue SP e s1) as [-> | (x & Hx & ->)];
             [exact H1|].
           rewrite Hw1, HtS. apply clamp_within_number; auto.
           intros ->. specialize (He _ Hx). discriminate.
        -- intros HS. specialize (F1 HS).
           destruct (stepped_handle_progress SP e s1)
             as [-> | [-> | (x & Hx & [-> | ->])]];
             auto using roundIfFractional_finite.
           ++ eapply stepped_xToProgress_finite; eauto.
           ++ apply roundIfFractional_finite.
              eapply stepped_xToProgress_finite; eauto.
      * intros r s1 [(Hw1 & Hmn1 & Hmx1) [H1 F1]].
        destruct (steppedReact_keeps SP r s1) as (Kp & Kmn & Kmx & Kw & _).
        split; [repeat split; congruence|]. split.
        -- destruct (steppedReact_thumbValue SP r s1) as [-> | [HS ->]];
             [exact H1|].
           specialize (F1 HS).
           destruct (progress s1) as [| | |q]; try discriminate.
           rewrite Hw1, Hmn1, Hmx1, HtS. cbn [Js.add Js.sub Js.neg].
           rewrite div_Fin by assumption. cbn [Js.mul].
           apply clamp_Fin_within. lra.
        -- intros HS. rewrite Kp. auto.
      * split; [auto|]. split; [exact Hs|]. intros _. now rewrite Hp.
    + apply (@deliverReacting_invariant (plainHandle PP) plainReact
               (fun s' => width s' = Fin w /\
                          within (Fin 0) (Fin (w - tw)) (thumbValue s'))
               finitePosition); auto.
      * intros e s1 He [Hw1 H1]. split.
        -- pose proof (plain_handle_track PP e s1) as T.
           unfold track in T. injection T as T _ _ _ _. congruence.
        -- destruct (plain_handle_thumbValue PP e s1) as [-> | (x & Hx & ->)];
             [exact H1|].
           rewrite Hw1, HtP. apply clamp_within_number; auto.
           intros ->. specialize (He _ Hx). discriminate.
      * intros r s1 [Hw1 H1]. unfold plainReact.
        destruct (runsMarkLeftArr r); split; assumption.
Qed.

Lemma thumbValue_stays_on_track_witness :
  let s := mounted 0 100 75 in
  let es := [(PanStart, allReactions); (PanUpdate (Fin 200), allReactions);
             (Tap (Fin (-3)) true, allReactions);
             (PanEnd (Fin 40), allReactions)] in
  within (Fin 0) (Fin (75 - 15))
    (thumbValue (state_of (deliverReacting (steppedHandle steppedDefaults)
                             (steppedReact steppedDefaults) es s))) /\
  within (Fin 0) (Fin (75 - 15))
    (thumbValue (state_of (deliverReacting (plainHandle plainDefaults)
                             plainReact es s))).
Proof.
  destruct (@thumbValue_stays_on_track steppedDefaults plainDefaults
              (mounted 0 100 75) 75 15 0 100 0
              eq_refl eq_refl eq_refl eq_refl eq_refl eq_refl) as [_ H].
  - unfold Qlt; simpl; lia.
  - intros E; vm_compute in E; discriminate.
  - apply H.
    + repeat (apply Forall_cons;
              [intros x E; cbn in E; try discriminate;
               injection E as <-; reflexivity|]).
      apply Forall_nil.
    + split; reflexivity.
Defined.

(** ** Further properties: repeating an update *)

Lemma plain_onActiveSlider_twice
      (P : Plain.Props) (r : Reactions) (s : State) (x : num) :
  let p1 := plainReact r (state_of (Plain.onActiveSlider P x s)) in
  state_of (Plain.onActiveSlider P x p1) = p1.
Proof.
  cbv zeta.
  unfold plainReact, Plain.onActiveSlider, Plain.onSlideAcitve,
    Plain.xToProgress, Plain.sliderTotalValue.
  destruct s as [p mn mx w tv bo px mla ti trig scr pd].
  destruct r as [[] r2 r3]; cbv [runsMarkLeftArr];
    destruct (Plain.hasIsScrubbing P), (Plain.disableTrackFollow P),
      (Plain.onValueChange P), (Plain.hapticMode P),
      (Plain.onHapticFeedback P), trig;
    run_fast;
    destruct (x <= Fin 0)%js eqn:E1, (x >= w - Plain.thumbWidth P)%js eqn:E2;
    run_fast; rewrite ?E1, ?E2; run_fast; reflexivity.
Qed.

Lemma plainReact_twice (r : Reactions) (s : State) :
  plainReact r (plainReact r s) = plainReact r s.
Proof. unfold plainReact. now destruct (runsMarkLeftArr r). Qed.

Lemma stepped_second_update_no_haptic
      (P : Stepped.Props) (r : Reactions) (s : State) (x : num) :
  countCalls isOnHapticFeedback
    (calls_of (Stepped.onActiveSlider P x
                 (steppedReact P r
                    (state_of (Stepped.onActiveSlider P x s))))) = 0%nat.
Proof.
  rewrite (proj2 (proj2 (stepped_onActiveSlider_effects P _ x))).
  destruct (steppedReact_keeps P r (state_of (Stepped.onActiveSlider P x s)))
    as (_ & _ & _ & -> & ->).
  rewrite (proj1 (stepped_onActiveSlider_effects P s x)).
  pose proof (stepped_onActiveSlider_track P x s) as T.
  unfold track in T. injection T as -> _ _ _ _.
  destruct (atEdge (width s) (Stepped.thumbWidth P) x), (isTriggedHaptic s),
    (match Stepped.hapticMode P with
     | BOTH => Stepped.onHapticFeedback P
     | _ => false
     end), (Stepped.onValueChange P); reflexivity.
Qed.

Lemma plain_second_update_no_haptic
      (P : Plain.Props) (r : Reactions) (s : State) (x : num) :
  countCalls isOnHapticFeedback
    (calls_of (Plain.onActiveSlider P x
                 (plainReact r (state_of (Plain.onActiveSlider P x s)))))
  = 0%nat.
Proof.
  rewrite (proj2 (proj2 (plain_onActiveSlider_effects P _ x))).
  assert (K : forall t, width (plainReact r t) = width t /\
                        isTriggedHaptic (plainReact r t) = isTriggedHaptic t)
    by (intros t; unfold plainReact; now destruct (runsMarkLeftArr r)).
  destruct (K (state_of (Plain.onActiveSlider P x s))) as [-> ->].
  rewrite (proj1 (plain_onActiveSlider_effects P s x)).
  pose proof (plain_onActiveSlider_track P x s) as T.
  unfold track in T. injection T as -> _ _ _ _.
  destruct (atEdge (width s) (Plain.thumbWidth P) x), (isTriggedHaptic s),
    (match Plain.hapticMode P with
     | BOTH => Plain.onHapticFeedback P
     | _ => false
     end), (Plain.onValueChange P); reflexivity.
Qed.

(** X26: running [onActiveSlider] again at the same position, after the
    reactions that followed the first run, never calls the haptic callback,
    in either Slider; and in the second Slider, whose reactions store
    nothing but the empty [markLeftArr], the second run changes no shared
    value: it leaves the state the first one left, before and after the
    reactions have run again. *)
Theorem repeated_update_changes_nothing
        (SP : Stepped.Props) (PP : Plain.Props) (r : Reactions)
        (s : State) (x : num) :
  let s1 := steppedReact SP r (state_of (Stepped.onActiveSlider SP x s)) in
  let p1 := plainReact r (state_of (Plain.onActiveSlider PP x s)) in
  countCalls isOnHapticFeedback
    (calls_of (Stepped.onActiveSlider SP x s1)) = 0%nat /\
  countCalls isOnHapticFeedback
    (calls_of (Plain.onActiveSlider PP x p1)) = 0%nat /\
  state_of (Plain.onActiveSlider PP x p1) = p1 /\
  plainReact r (state_of (Plain.onActiveSlider PP x p1)) = p1.
Proof.
  cbv zeta. split; [apply stepped_second_update_no_haptic|].
  split; [apply plain_second_update_no_haptic|].
  pose proof (plain_onActiveSlider_twice PP r s x) as H. cbv zeta in H.
  split; [exact H|]. rewrite H. apply plainReact_twice.
Qed.

(** ** Further properties: a drag the track does not follow *)

(** X28: with [disableTrackFollow] set on an enabled Slider, of either
    kind, a drag update stores the clamped position in [thumbValue] and
    leaves [progress] as it was; no reaction writes [progress], so that
    after the start and any number of updates of a pan, whichever reactions
    run in between, [progress] still has the value it had before the
    gesture.  The end of the pan then stores what [xToProgress] returns,
    rounded as on every release (in the second Slider with [snapToInteger]
    only). *)
Theorem drag_without_follow_keeps_progress
        (SP : Stepped.Props) (PP : Plain.Props)
        (s : State) (es : list (Gesture * Reactions)) (x : num) :
  Stepped.disableTrackFollow SP = true -> Stepped.disable SP = false ->
  Plain.disableTrackFollow PP = true -> Plain.disable PP = false ->
  Forall (fun er => dragging (fst er)) es ->
  (thumbValue (state_of (steppedHandle SP (PanUpdate x) s)) =
     clamp x (Fin 0) (width s - Stepped.thumbWidth SP) /\
   progress (state_of (steppedHandle SP (PanUpdate x) s)) = progress s) /\
  (thumbValue (state_of (plainHandle PP (PanUpdate x) s)) =
     clamp x (Fin 0) (width s - Plain.thumbWidth PP) /\
   progress (state_of (plainHandle PP (PanUpdate x) s)) = progress s) /\
  (progress (state_of (deliverReacting (steppedHandle SP) (steppedReact SP)
                         es s)) = progress s /\
   progress (state_of (deliverReacting (plainHandle PP) plainReact es s))
   = progress s) /\
  (progress (state_of (steppedHandle SP (PanEnd x) s)) =
     roundIfFractional (Stepped.xToProgress SP s x) /\
   progress (state_of (plainHandle PP (PanEnd x) s)) =
     if Plain.snapToInteger PP
     then roundIfFractional (Plain.xToProgress PP s x)
     else Plain.xToProgress PP s x).
Proof.
  intros DS ES DP EP Hes.
  split; [|split; [|split]].
  - split.
    + now apply stepped_onGestureEvent_onUpdate_thumbValue.
    + now apply (@stepped_drag_keeps_progress SP (PanUpdate x)).
  - split.
    + now apply plain_onGestureEvent_onUpdate_thumbValue.
    + now apply (@plain_drag_keeps_progress PP (PanUpdate x)).
  - split.
    + apply (@deliverReacting_invariant (steppedHandle SP) (steppedReact SP)
               (fun s' => progress s' = progress s) dragging); auto.
      * intros e s1 He H1.
        rewrite (@stepped_drag_keeps_progress SP e DS He s1). exact H1.
      * intros r s1 H1.
        now rewrite (proj1 (steppedReact_keeps SP r s1)).
    + apply (@deliverReacting_invariant (plainHandle PP) plainReact
               (fun s' => progress s' = progress s) dragging); auto.
      * intros e s1 He H1.
        rewrite (@plain_drag_keeps_progress PP e DP He s1). exact H1.
      * intros r s1 H1. unfold plainReact.
        now destruct (runsMarkLeftArr r).
  - split.
    + cbn [steppedHandle].
      now rewrite stepped_onGestureEvent_onEnd_progress, DS by assumption.
    + cbn [plainHandle].
      now rewrite plain_onGestureEvent_onEnd_progress, DP by assumption.
Qed.

Lemma drag_without_follow_keeps_progress_witness :
  let s := set_progress (Fin 20) (mounted 0 100 75) in
  let drag := [(PanStart, allReactions); (PanUpdate (Fin 15), allReactions);
               (PanUpdate (Fin 30), allReactions)] in
  progress (state_of (deliverReacting (steppedHandle steppedNoFollow)
                        (steppedReact steppedNoFollow) drag s)) = progress s
  /\
  progress (state_of (steppedHandle steppedNoFollow (PanEnd (Fin 30)) s)) =
    roundIfFractional (Stepped.xToProgress steppedNoFollow s (Fin 30)).
Proof.
  destruct (@drag_without_follow_keeps_progress steppedNoFollow plainNoFollow
              (set_progress (Fin 20) (mounted 0 100 75))
              [(PanStart, allReactions); (PanUpdate (Fin 15), allReactions);
               (PanUpdate (Fin 30), allReactions)] (Fin 30)
              eq_refl eq_refl eq_refl eq_refl) as (_ & _ & [H1 _] & [H2 _]).
  - repeat constructor.
  - split; [exact H1 | exact H2].
Defined.


(** ** Further properties: the value a drag reports *)

Lemma clamp_number_Fin (v : num) (lo hi : Q) :
  v <> NaN -> exists q, clamp v (Fin lo) (Fin hi) = Fin q.
Proof.
  intros Hv. destruct v as [| | |q]; [congruence | | |].
  - unfold clamp. cbn. eauto.
  - unfold clamp. cbn. destruct (Qle_bool lo hi); eauto.
  - rewrite clamp_Fin_q. eauto.
Qed.

Lemma In_countCalls (k : Call -> bool) (c : Call) (t : list Call) :
  In c t -> k c = true -> (1 <= countCalls k t)%nat.
Proof.
  intros Hin Hk. unfold countCalls.
  assert (H : In c (filter k t)) by (apply filter_In; auto).
  destruct (filter k t); [contradiction | cbn; lia].
Qed.

(** The [onValueChange] calls of an event are those of its
    [onActiveSlider], whose argument is [shareValueToSeconds()] at the
    clamped position. *)
Lemma stepped_handle_value_changes
      (P : Stepped.Props) (e : Gesture) (s : State) (v : num) :
  In (OnValueChange v) (calls_of (steppedHandle P e s)) ->
  exists x s',
    positionOf e = Some x /\ track s' = track s /\
    v = Stepped.shareValueToSeconds P
          (set_thumbValue (clamp x (Fin 0) (width s' - Stepped.thumbWidth P))
             s').
Proof.
  intros Hin.
  assert (Hc := In_countCalls isOnValueChange _ _ Hin eq_refl).
  rewrite (proj1 (proj2 (stepped_handle_counts P e s))) in Hc.
  destruct e as [|x|x|x fin]; cbn [steppedHandle] in Hin; [lia | | lia |].
  - unfold Stepped.onGestureEvent_onUpdate in Hin.
    destruct (Stepped.disable P); [contradiction|].
    rewrite !calls_bind in Hin.
    match type of Hin with
    | context [calls_of (Stepped.onActiveSlider P x ?t)] => set (s2 := t) in *
    end.
    assert (T : track s2 = track s).
    { unfold s2. destruct (Stepped.hasPanDirectionValue P); reflexivity. }
    assert (E : calls_of (when (Stepped.hasPanDirectionValue P)
                            (px <- gets prevX;;
                             modify (set_panDirectionValue
                                       (if (px - x > Fin 0)%js
                                        then LEFT else RIGHT));;
                             modify (set_prevX x)) s) = [])
      by (destruct (Stepped.hasPanDirectionValue P); reflexivity).
    rewrite E in Hin. cbn [app calls_of modify snd] in Hin.
    rewrite (proj2 (proj2 (stepped_onActiveSlider_effects P s2 x))) in Hin.
    exists x, s2. split; [reflexivity|]. split; [exact T|].
    apply in_app_or in Hin. destruct Hin as [Hin | Hin].
    { destruct (_ && _ && _) in Hin; cbn in Hin; intuition discriminate. }
    apply in_app_or in Hin. destruct Hin as [Hin | Hin].
    + destruct (Stepped.onValueChange P); cbn in Hin; [|contradiction].
      destruct Hin as [Hin | []]. now injection Hin as <-.
    + cbn in Hin. intuition discriminate.
  - unfold Stepped.onSingleTapEvent_onEnd in Hin.
    rewrite calls_bind in Hin.
    assert (E : state_of (when (Stepped.onTap P) (runOnJS OnTap) s) = s)
      by (destruct (Stepped.onTap P); reflexivity).
    rewrite E in Hin.
    apply in_app_or in Hin. destruct Hin as [Hin | Hin].
    { destruct (Stepped.onTap P); cbn in Hin; intuition discriminate. }
    destruct (Stepped.disable P || Stepped.disableTapEvent P);
      [contradiction|].
    rewrite calls_bind in Hin.
    apply in_app_or in Hin. destruct Hin as [Hin | Hin].
    + destruct fin; cbn [when] in Hin; [|contradiction].
      rewrite (proj2 (proj2 (stepped_onActiveSlider_effects P s x))) in Hin.
      exists x, s. split; [reflexivity|]. split; [reflexivity|].
      apply in_app_or in Hin. destruct Hin as [Hin | Hin].
      { destruct (_ && _ && _) in Hin; cbn in Hin; intuition discriminate. }
      apply in_app_or in Hin. destruct Hin as [Hin | Hin].
      * destruct (Stepped.onValueChange P); cbn in Hin; [|contradiction].
        destruct Hin as [Hin | []]. now injection Hin as <-.
      * cbn in Hin. intuition discriminate.
    + exfalso. rewrite !calls_bind in Hin.
      apply in_app_or in Hin. destruct Hin as [Hin | Hin].
      { destruct (Stepped.hasIsScrubbing P); cbn in Hin; contradiction. }
      apply in_app_or in Hin. destruct Hin as [Hin | Hin];
        [cbn in Hin; contradiction|].
      pose proof (In_countCalls isOnValueChange _ _ Hin eq_refl) as C.
      rewrite (proj1 (proj2 (stepped_roundOnRelease_counts P _))) in C. lia.
Qed.

Lemma plain_handle_value_changes
      (P : Plain.Props) (e : Gesture) (s : State) (v : num) :
  In (OnValueChange v) (calls_of (plainHandle P e s)) ->
  exists x s',
    positionOf e = Some x /\ track s' = track s /\
    v = Plain.shareValueToSeconds P
          (set_thumbValue (clamp x (Fin 0) (width s' - Plain.thumbWidth P))
             s').
Proof.
  intros Hin.
  assert (Hc := In_countCalls isOnValueChange _ _ Hin eq_refl).
  rewrite (proj1 (proj2 (plain_handle_counts P e s))) in Hc.
  destruct e as [|x|x|x fin]; cbn [plainHandle] in Hin; [lia | | lia |].
  - unfold Plain.onGestureEvent_onUpdate in Hin.
    destruct (Plain.disable P); [contradiction|].
    rewrite !calls_bind in Hin.
    match type of Hin with
    | context [calls_of (Plain.onActiveSlider P x ?t)] => set (s2 := t) in *
    end.
    assert (T : track s2 = track s).
    { unfold s2. destruct (Plain.hasPanDirectionValue P); reflexivity. }
    assert (E : calls_of (when (Plain.hasPanDirectionValue P)
                            (px <- gets prevX;;
                             modify (set_panDirectionValue
                                       (if (px - x > Fin 0)%js
                                        then LEFT else RIGHT));;
                             modify (set_prevX x)) s) = [])
      by (destruct (Plain.hasPanDirectionValue P); reflexivity).
    rewrite E in Hin. cbn [app calls_of modify snd] in Hin.
    rewrite (proj2 (proj2 (plain_onActiveSlider_effects P s2 x))) in Hin.
    exists x, s2. split; [reflexivity|]. split; [exact T|].
    apply in_app_or in Hin. destruct Hin as [Hin | Hin].
    { destruct (_ && _ && _) in Hin; cbn in Hin; intuition discriminate. }
    destruct (Plain.onValueChange P); cbn in Hin; [|contradiction].
    destruct Hin as [Hin | []]. now injection Hin as <-.
  - unfold Plain.onSingleTapEvent_onEnd in Hin.
    rewrite calls_bind in Hin.
    assert (E : state_of (when (Plain.onTap P) (runOnJS OnTap) s) = s)
      by (destruct (Plain.onTap P); reflexivity).
    rewrite E in Hin.
    apply in_app_or in Hin. destruct Hin as [Hin | Hin].
    { destruct (Plain.onTap P); cbn in Hin; intuition discriminate. }
    destruct (Plain.disable P || Plain.disableTapEvent P);
      [contradiction|].
    rewrite calls_bind in Hin.
    apply in_app_or in Hin. destruct Hin as [Hin | Hin].
    + destruct fin; cbn [when] in Hin; [|contradiction].
      rewrite (proj2 (proj2 (plain_onActiveSlider_effects P s x))) in Hin.
      exists x, s. split; [reflexivity|]. split; [reflexivity|].
      apply in_app_or in Hin. destruct Hin as [Hin | Hin].
      { destruct (_ && _ && _) in Hin; cbn in Hin; intuition discriminate. }
      destruct (Plain.onValueChange P); cbn in Hin; [|contradiction].
      destruct Hin as [Hin | []]. now injection Hin as <-.
    + exfalso. rewrite !calls_bind in Hin.
      apply in_app_or in Hin. destruct Hin as [Hin | Hin].
      { destruct (Plain.hasIsScrubbing P); cbn in Hin; contradiction. }
      apply in_app_or in Hin. destruct Hin as [Hin | Hin];
        [cbn in Hin; contradiction|].
      pose proof (In_countCalls isOnValueChange _ _ Hin eq_refl) as C.
      rewrite (proj1 (proj2 (plain_roundOnRelease_counts P _))) in C. lia.
Qed.

(** X27: what [onValueChange] is told stays within the bounds.  For finite
    shared values, bounds in order that are not both zero and a thumb
    narrower than the track, every value an event at a position that is a
    number hands to [onValueChange] lies within
    [minimumValue, maximumValue], in both Sliders. *)
Theorem onValueChange_within_bounds
        (SP : Stepped.Props) (PP : Plain.Props) (s : State) (e : Gesture)
        (mn mx w tw : Q) :
  minimumValue s = Fin mn -> maximumValue s = Fin mx -> width s = Fin w ->
  Stepped.thumbWidth SP = Fin tw -> Plain.thumbWidth PP = Fin tw ->
  mn <= mx -> ~ (mn == 0 /\ mx == 0) -> tw < w -> positioned e ->
  forall v,
    (In (OnValueChange v) (calls_of (steppedHandle SP e s)) ->
     within (Fin mn) (Fin mx) v) /\
    (In (OnValueChange v) (calls_of (plainHandle PP e s)) ->
     within (Fin mn) (Fin mx) v).
Proof.
  intros Hmn Hmx Hw HtS HtP Hle Hnz Hlt He v.
  split; intros Hin.
  - destruct (stepped_handle_value_changes SP e s v Hin)
      as (x & s' & Hx & T & ->).
    unfold track in T. injection T as Tw Tmn Tmx _ _.
    rewrite Tw, Hw, HtS. cbn [Js.sub Js.neg Js.add].
    destruct (@clamp_number_Fin x 0 (w + - tw) (He x Hx)) as [tv Etv].
    rewrite Etv.
    apply (@shareValueToSeconds_within_iff_stepped SP
             (set_thumbValue (Fin tv) s') mn mx w tv tw); auto; cbn; congruence.
  - destruct (plain_handle_value_changes PP e s v Hin)
      as (x & s' & Hx & T & ->).
    unfold track in T. injection T as Tw Tmn Tmx _ _.
    rewrite Tw, Hw, HtP. cbn [Js.sub Js.neg Js.add].
    destruct (@clamp_number_Fin x 0 (w + - tw) (He x Hx)) as [tv Etv].
    rewrite Etv.
    rewrite (@plain_shareValueToSeconds_eq SP PP) by congruence.
    apply (@shareValueToSeconds_within_iff_stepped SP
             (set_thumbValue (Fin tv) s') mn mx w tv tw); auto; cbn; congruence.
Qed.

Lemma onValueChange_within_bounds_witness :
  let t := calls_of (steppedHandle steppedDefaults (PanUpdate (Fin 200))
                       (mounted 10 20 75)) in
  exists v, In (OnValueChange v) t /\ within (Fin 10) (Fin 20) v.
Proof.
  cbv zeta.
  assert (Hin : In (OnValueChange
                      (Stepped.shareValueToSeconds steppedDefaults
                         (set_thumbValue (Fin 60) (mounted 10 20 75))))
                   (calls_of (steppedHandle steppedDefaults
                                (PanUpdate (Fin 200)) (mounted 10 20 75))))
    by (left; reflexivity).
  eexists. split; [exact Hin|].
  apply (proj1 (@onValueChange_within_bounds steppedDefaults plainDefaults
                  (mounted 10 20 75) (PanUpdate (Fin 200)) 10 20 75 15
                  eq_refl eq_refl eq_refl eq_refl eq_refl
                  ltac:(unfold Qle; simpl; lia)
                  ltac:(intros [E _]; vm_compute in E; discriminate)
                  ltac:(unfold Qlt; simpl; lia)
                  ltac:(intros x E; cbn in E; congruence) _) Hin).
Defined.

Lemma getMarkStyles_tints_a_prefix_witness :
  let s := set_progress (Fin 2) (mounted 0 4 100) in
  length (Stepped.getMarkStyles (steppedWithStep 4) s) = 5%nat /\
  nth_error (Stepped.getMarkStyles (steppedWithStep 4) s) 1 =
    Some MinimumTrackTint.
Proof.
  destruct (@getMarkStyles_tints_a_prefix (steppedWithStep 4)
              (set_progress (Fin 2) (mounted 0 4 100))) as (H1 & _ & H3).
  split; [exact H1|].
  apply (H3 1%nat 2%nat); [lia | reflexivity].
Defined.
